(** * gemdrive request protocol layer: a shallow embedding of [server.go]

    The development follows the Go source function by function.  Go strings
    are [string], [int] and [int64] are [Z] with their 64-bit range written
    out, Go maps ([http.Header], [url.Values], [Config.DomainMap],
    [Item.Children]) are [gmap]s, and the handlers run in a small
    state-and-panic monad over the response writer, the server's mutable
    field, the backend's store and the log of backend calls. *)

From Stdlib Require Import ZArith String Ascii List Lia Bool.
From Stdlib Require Import DecimalString.
From stdpp Require Import base option list gmap strings.

Import ListNotations.
Local Open Scope string_scope.
Local Open Scope Z_scope.

(** ** Go's [strings] package *)

Module Strings.

(** [strings.HasPrefix]. *)
Fixpoint HasPrefix (s pre : string) {struct pre} : bool :=
  match pre, s with
  | EmptyString, _ => true
  | String _ _, EmptyString => false
  | String p pre', String c s' => if Ascii.eqb c p then HasPrefix s' pre' else false
  end.

(** [strings.HasSuffix]: the last [len(suffix)] bytes of [s] are [suffix]. *)
Fixpoint HasSuffix (s suffix : string) : bool :=
  match s with
  | EmptyString => String.eqb suffix EmptyString
  | String _ s' => String.eqb s suffix || HasSuffix s' suffix
  end.

(** The scan of [strings.Split] for a non-empty separator: the leftmost
    occurrence of [sep] closes the current piece, the scan resumes right
    after it ([skip] counts the bytes of a matched separator still to be
    passed over), and the text after the last occurrence is the last piece. *)
Fixpoint split_scan (sep : string) (skip : nat) (s : string) : list string :=
  match s with
  | EmptyString => [EmptyString]
  | String c s' =>
      match skip with
      | S k => split_scan sep k s'
      | O =>
          if HasPrefix s sep
          then EmptyString :: split_scan sep (Nat.pred (String.length sep)) s'
          else match split_scan sep O s' with
               | p :: ps => String c p :: ps
               | [] => [String c EmptyString]
               end
      end
  end.

(** With an empty separator Go splits after every byte (the code never does
    this; ASCII text is assumed for this case). *)
Fixpoint explode (s : string) : list string :=
  match s with
  | EmptyString => []
  | String c s' => String c EmptyString :: explode s'
  end.

(** [strings.Split]. *)
Definition Split (s sep : string) : list string :=
  match sep with
  | EmptyString => explode s
  | String _ _ => split_scan sep O s
  end.

(** Whether the byte [c] occurs in [s]. *)
Fixpoint contains_byte (c : ascii) (s : string) : bool :=
  match s with
  | EmptyString => false
  | String d s' => Ascii.eqb d c || contains_byte c s'
  end.

End Strings.

(** ** Go's [error] values and the repository's [*Error] *)

(** The repository's structured error: a status code and a message. *)
Record Error := mkError { HttpCode : Z; Message : string }.

(** A non-nil value of the interface type [error], as the handlers observe
    it: the result of asserting it to be a pointer to [Error], and the string
    its [Error()] method returns. *)
Record goerror := mkGoError { as_Error : option Error; Error_string : string }.

(** [errors.New]. *)
Definition errors_New (msg : string) : goerror :=
  {| as_Error := None; Error_string := msg |}.

(** ** Go's [strconv] package, base 10 and 64 bits *)

Module Strconv.

Definition maxUint64 : Z := 2 ^ 64 - 1.

Inductive numErr := ErrSyntax | ErrRange.

Definition digit (c : ascii) : option Z :=
  let n := Z.of_nat (nat_of_ascii c) in
  if (48 <=? n) && (n <=? 57) then Some (n - 48) else None.

(** The digit loop of [ParseUint(s, 10, 64)]: a byte that is not a decimal
    digit is a syntax error, a value above [maxUint64] a range error,
    whichever the scan meets first. *)
Fixpoint parseUint_loop (n : Z) (s : string) : Z + numErr :=
  match s with
  | EmptyString => inl n
  | String c s' =>
      match digit c with
      | None => inr ErrSyntax
      | Some d =>
          if n >=? maxUint64 / 10 + 1 then inr ErrRange
          else if 10 * n + d >? maxUint64 then inr ErrRange
          else parseUint_loop (10 * n + d) s'
      end
  end.

Definition ParseUint (s : string) : Z + numErr :=
  match s with
  | EmptyString => inr ErrSyntax
  | String _ _ => parseUint_loop 0 s
  end.

(** The value part of [ParseInt(s, 10, 64)]: an optional sign, then
    [ParseUint]; a range error of [ParseUint] continues with [maxUint64]
    and is reported as a range error by the cutoff test. *)
Definition parseInt (s : string) : Z + numErr :=
  match s with
  | EmptyString => inr ErrSyntax
  | String c s' =>
      let neg := Ascii.eqb c "-" in
      let body := if Ascii.eqb c "+" || neg then s' else s in
      let cutoff := 2 ^ 63 in
      match ParseUint body with
      | inr ErrSyntax => inr ErrSyntax
      | r =>
          let un := match r with inl u => u | inr _ => maxUint64 end in
          if negb neg && (un >=? cutoff) then inr ErrRange
          else if neg && (un >? cutoff) then inr ErrRange
          else inl (if neg then - un else un)
      end
  end.

Definition numErr_text (e : numErr) : string :=
  match e with
  | ErrSyntax => "invalid syntax"
  | ErrRange => "value out of range"
  end.

End Strconv.

(** [strconv.Atoi] and [strconv.ParseInt(s, 10, 64)] return the same values
    on a 64-bit platform; their errors differ in the function name that the
    message carries.  [quote] stands for [strconv.Quote]. *)
Definition NumError_Error (quote : string -> string) (fn num : string)
    (e : Strconv.numErr) : string :=
  "strconv." ++ fn ++ ": parsing " ++ quote num ++ ": " ++ Strconv.numErr_text e.

Definition strconv_parse (quote : string -> string) (fn s : string) : Z + goerror :=
  match Strconv.parseInt s with
  | inl n => inl n
  | inr e => inr (errors_New (NumError_Error quote fn s e))
  end.

(** ** Fixed-width arithmetic and formatting *)

Definition MAX_INT64 : Z := 9223372036854775807.

(** The value of an [int64] expression whose mathematical value is [z]. *)
Definition wrap64 (z : Z) : Z := (z + 2 ^ 63) mod 2 ^ 64 - 2 ^ 63.


(** The verb [%d] of [fmt.Sprintf]. *)
Definition fmt_d (z : Z) : string := NilZero.string_of_int (Z.to_int z).

(** ** [net/http] values *)

Module Http.

(** The bytes [textproto] accepts in a header name. *)
Definition validHeaderFieldByte (c : ascii) : bool :=
  let n := nat_of_ascii c in
  ((48 <=? n) && (n <=? 57) || (65 <=? n) && (n <=? 90) || (97 <=? n) && (n <=? 122)
   || existsb (Nat.eqb n) [33; 35; 36; 37; 38; 39; 42; 43; 45; 46; 94; 95; 96; 124; 126])%nat.

Fixpoint all_valid (s : string) : bool :=
  match s with
  | EmptyString => true
  | String c s' => validHeaderFieldByte c && all_valid s'
  end.

Definition upper_byte (c : ascii) : ascii :=
  let n := nat_of_ascii c in
  if ((97 <=? n) && (n <=? 122))%nat then ascii_of_nat (n - 32) else c.

Definition lower_byte (c : ascii) : ascii :=
  let n := nat_of_ascii c in
  if ((65 <=? n) && (n <=? 90))%nat then ascii_of_nat (n + 32) else c.

Fixpoint canonical_scan (upper : bool) (s : string) : string :=
  match s with
  | EmptyString => EmptyString
  | String c s' =>
      let c' := if upper then upper_byte c else lower_byte c in
      String c' (canonical_scan (Ascii.eqb c' "-") s')
  end.

(** [textproto.CanonicalMIMEHeaderKey]: the first letter and every letter
    after a hyphen in upper case, the others in lower case; a name with a
    byte that is not allowed is left as it is. *)
Definition CanonicalHeaderKey (s : string) : string :=
  if all_valid s then canonical_scan true s else s.

(** [Header.Get], [Header.Set] and [Header.Add] of [http.Header]. *)
Definition Header_Get (h : gmap string (list string)) (key : string) : string :=
  match h !! CanonicalHeaderKey key with
  | Some (v :: _) => v
  | _ => ""
  end.

Definition Header_Set (key value : string) (h : gmap string (list string))
    : gmap string (list string) :=
  <[CanonicalHeaderKey key := [value]]> h.

Definition Header_Add (key value : string) (h : gmap string (list string))
    : gmap string (list string) :=
  <[CanonicalHeaderKey key := (default [] (h !! CanonicalHeaderKey key) ++ [value])%list]> h.

(** [Values.Get] of [url.Values]: the first value of the key, or the empty
    string. *)
Definition Values_Get (v : gmap string (list string)) (key : string) : string :=
  match v !! key with
  | Some (x :: _) => x
  | _ => ""
  end.

(** The request as the handlers read it: [r.URL.Query()] is [URL_Query],
    [r.Cookie] looks a name up in [Cookies] (the cookies in the order they
    were sent), and reading [r.Body] to its end gives [Body] and then the
    read error [Body_err], if any. *)
Record Request := mkRequest {
  Method : string;
  URL_Path : string;
  URL_Query : gmap string (list string);
  Header : gmap string (list string);
  Host : string;
  Cookies : list (string * string);
  ContentLength : Z;
  Body : string;
  Body_err : option goerror
}.

(** [r.Cookie(name)]: the value of the first cookie of that name. *)
Fixpoint Request_Cookie (cs : list (string * string)) (name : string) : option string :=
  match cs with
  | [] => None
  | (n, v) :: cs' => if String.eqb n name then Some v else Request_Cookie cs' name
  end.

(** What a handler has done to its [http.ResponseWriter]: the live header
    map, the status passed to the first [WriteHeader] together with the
    header map as it was at that moment (later changes are not sent), and
    the bytes written. *)
Record ResponseWriter := mkResponseWriter {
  rw_header : gmap string (list string);
  rw_wrote : option (Z * gmap string (list string));
  rw_body : string
}.

Definition fresh : ResponseWriter :=
  {| rw_header := ∅; rw_wrote := None; rw_body := "" |}.

(** The status the client receives: 200 when the handler returns without
    a call of [WriteHeader]. *)
Definition status (w : ResponseWriter) : Z :=
  match rw_wrote w with
  | Some (code, _) => code
  | None => 200
  end.

(** A code that [WriteHeader] sends at once as an informational response,
    as the server of [net/http] does since Go 1.19: 1xx other than 101
    (Switching Protocols).  The header of the response proper has not been
    written by such a call. *)
Definition informational (code : Z) : bool :=
  (100 <=? code) && (code <=? 199) && negb (code =? 101).

(** [bodyAllowedForStatus]: a response with status 1xx, 204 or 304 has no
    body, and [Write] fails with [ErrBodyNotAllowed] without writing. *)
Definition bodyAllowedForStatus (code : Z) : bool :=
  negb (((100 <=? code) && (code <=? 199)) || (code =? 204) || (code =? 304)).

(** The header map the client receives. *)
Definition sent_header (w : ResponseWriter) : gmap string (list string) :=
  match rw_wrote w with
  | Some (_, h) => h
  | None => rw_header w
  end.

(** The fields of [http.Cookie] that [authorize] sets. *)
Record Cookie := mkCookie {
  Name : string;
  Value : string;
  HttpOnly : bool;
  MaxAge : Z;
  Path : string;
  SameSiteLax : bool
}.

End Http.
Export Http.

(** ** The repository's data model *)

(** [Item]: a size and the children by name. *)
#[warnings="-register-all"]
Inductive Item := mkItem { Size : Z; Children : gmap string Item }.

(** The interface [Backend] with its two optional extensions, over the
    backend's own state [B].  A method takes the state and returns it with its
    result; [asWritable] and [asImageServer] are the results of asserting the
    backend to be a [WritableBackend] or an [ImageServer]. *)
Record WritableBackend (B : Type) := mkWritable {
  Write : string -> string -> Z -> Z -> bool -> bool -> B -> option goerror * B;
  MakeDir : string -> bool -> B -> option goerror * B;
  Delete : string -> bool -> B -> option goerror * B
}.
Arguments Write {B}.
Arguments MakeDir {B}.
Arguments Delete {B}.

Record ImageServer (B : Type) := mkImageServer {
  GetImage : string -> Z -> B -> (string + goerror) * B
}.
Arguments GetImage {B}.

Record Backend (B : Type) := mkBackend {
  List : string -> Z -> B -> (Item + goerror) * B;
  Read : string -> Z -> Z -> B -> (Item * string + goerror) * B;
  asWritable : option (WritableBackend B);
  asImageServer : option (ImageServer B)
}.
Arguments List {B}.
Arguments Read {B}.
Arguments asWritable {B}.
Arguments asImageServer {B}.

(** The methods of [*Auth] the server calls, over the auth engine's state
    [A]; [K] is the type [Key]. *)
Record Auth (A K : Type) := mkAuth {
  CanRead : string -> string -> A -> bool;
  CanWrite : string -> string -> A -> bool;
  CompleteAuth : string -> string -> A -> (string * option goerror) * A;
  Authorize : K -> A -> (string * option goerror) * A
}.
Arguments CanRead {A K}.
Arguments CanWrite {A K}.
Arguments CompleteAuth {A K}.
Arguments Authorize {A K}.

(** The one field of [Config] a request reads. *)
Record Config := mkConfig { DomainMap : gmap string string }.

(** The fields of [Server] that stay fixed while it runs; [loginHtml] is
    assigned on every request and lives in the [World]. *)
Record Server (B A K : Type) := mkServer {
  config : Config;
  backend : Backend B;
  auth : Auth A K
}.
Arguments config {B A K}.
Arguments backend {B A K}.
Arguments auth {B A K}.

(** The functions of Go's libraries and of [go.rice] that the handlers call
    and whose results the claims do not depend on. *)
Record GoLib (K Box : Type) := mkGoLib {
  strconv_Quote : string -> string;
  filepath_Dir : string -> string;
  filepath_Base : string -> string;
  path_Join : string -> string -> string;
  path_Ext : string -> string;
  mime_TypeByExtension : string -> string;
  json_Marshal : Item -> string * option goerror;
  json_Unmarshal : string -> K + goerror;
  Cookie_String : Cookie -> string;
  rice_FindBox : string -> Box + goerror;
  Box_Bytes : Box -> string -> string * option goerror
}.
Arguments strconv_Quote {K Box}.
Arguments filepath_Dir {K Box}.
Arguments filepath_Base {K Box}.
Arguments path_Join {K Box}.
Arguments path_Ext {K Box}.
Arguments mime_TypeByExtension {K Box}.
Arguments json_Marshal {K Box}.
Arguments json_Unmarshal {K Box}.
Arguments Cookie_String {K Box}.
Arguments rice_FindBox {K Box}.
Arguments Box_Bytes {K Box}.

(** A call of a backend method, with its arguments. *)
Inductive BackendCall :=
| CallList (path : string) (depth : Z)
| CallRead (path : string) (offset length : Z)
| CallWrite (path : string) (source : string) (offset length : Z) (overwrite truncate : bool)
| CallMakeDir (path : string) (recursive : bool)
| CallDelete (path : string) (recursive : bool)
| CallGetImage (path : string) (size : Z).

(** A capability check, with the token and the path it was made on. *)
Inductive AuthCheck :=
| CheckRead (token path : string)
| CheckWrite (token path : string).

(** ** The handler monad *)

(** Everything a handler can change: its response writer, the server's
    [loginHtml], the states of the backend and of the auth engine, the
    backend calls and the capability checks made so far (oldest first) and
    the lines printed. *)
Record World (B A : Type) := mkWorld {
  resp : ResponseWriter;
  loginHtml : string;
  store : B;
  authst : A;
  calls : list BackendCall;
  checks : list AuthCheck;
  stdout : list string
}.
Arguments mkWorld {B A}.
Arguments resp {B A}.
Arguments loginHtml {B A}.
Arguments store {B A}.
Arguments authst {B A}.
Arguments calls {B A}.
Arguments checks {B A}.
Arguments stdout {B A}.

(** A handler returns, or it panics with a message of Go's runtime. *)
Inductive Result (T : Type) :=
| Done (t : T)
| Panic (msg : string).
Arguments Done {T}.
Arguments Panic {T}.

Definition M (B A T : Type) : Type := World B A -> Result T * World B A.

Definition ret {B A T} (t : T) : M B A T := fun w => (Done t, w).

Definition bind {B A T U} (m : M B A T) (k : T -> M B A U) : M B A U :=
  fun w =>
    match m w with
    | (Done t, w') => k t w'
    | (Panic msg, w') => (Panic msg, w')
    end.

Definition panic {B A T} (msg : string) : M B A T := fun w => (Panic msg, w).

Definition lift {B A T} (r : Result T) : M B A T := fun w => (r, w).

Notation "'let*' x ':=' m 'in' k" := (bind m (fun x => k))
  (at level 10, x name, m at level 200, k at level 200).
Notation "m ';;;' k" := (bind m (fun _ => k))
  (at level 100, k at level 200, right associativity).

(** The message of Go's runtime when a slice of length [len] is indexed at
    [i], past its end. *)
Definition index_panic (i len : nat) : string :=
  "runtime error: index out of range [" ++ fmt_d (Z.of_nat i) ++ "] with length "
  ++ fmt_d (Z.of_nat len).

(** The index expression [l[i]]. *)
Definition index (l : list string) (i : nat) : Result string :=
  match l !! i with
  | Some x => Done x
  | None => Panic (index_panic i (length l))
  end.

(** [extractToken] reads the request only, so it is a function of the
    request; it panics where the source indexes past the end of the split.
    The function has the same text in [server.go] and in
    [cmd/gemdrive-server/main.go]. *)
Definition extractToken (r : Request) : Result (string * option goerror) :=
  let tokenName := "access_token" in
  let query := URL_Query r in
  let queryToken := Values_Get query tokenName in
  if negb (String.eqb queryToken "") then Done (queryToken, None)
  else
    let authHeader := Header_Get (Header r) "Authorization" in
    if negb (String.eqb authHeader "") then
      match index (Strings.Split authHeader " ") 1 with
      | Done tokenHeader => Done (tokenHeader, None)
      | Panic msg => Panic msg
      end
    else
      match Request_Cookie (Cookies r) tokenName with
      | Some value => Done (value, None)
      | None => Done ("", Some (errors_New "No token found"))
      end.

(** [HttpRange]. *)
Record HttpRange := mkHttpRange { Start : Z; End : Z }.

Section Protocol.

Context {B A K Box : Type}.
Variable lib : GoLib K Box.
Variable s : Server B A K.

Local Abbreviation M := (M B A).

(** *** The response writer *)

Definition with_resp (f : ResponseWriter -> ResponseWriter) : M unit :=
  fun w => (Done tt, mkWorld (f (resp w)) (loginHtml w) (store w) (authst w)
                             (calls w) (checks w) (stdout w)).

(** [header.Set(key, value)] and [header[key] = values] on [w.Header()]. *)
Definition header_Set (key value : string) : M unit :=
  with_resp (fun rw => mkResponseWriter (Header_Set key value (rw_header rw))
                                        (rw_wrote rw) (rw_body rw)).

Definition header_assign (key : string) (values : list string) : M unit :=
  with_resp (fun rw => mkResponseWriter (<[key := values]> (rw_header rw))
                                        (rw_wrote rw) (rw_body rw)).

(** [w.WriteHeader(code)]: a second call changes nothing; a first call
    with a code outside 100..999 panics; an informational code is sent at
    once and leaves the header of the response proper unwritten. *)
Definition WriteHeader (code : Z) : M unit :=
  fun w =>
    match rw_wrote (resp w) with
    | Some _ => (Done tt, w)
    | None =>
        if (code <? 100) || (code >? 999)
        then (Panic ("invalid WriteHeader code " ++ fmt_d code), w)
        else if informational code then (Done tt, w)
        else with_resp (fun rw => mkResponseWriter (rw_header rw)
                                    (Some (code, rw_header rw)) (rw_body rw)) w
    end.

(** [w.Write(data)] and [io.WriteString(w, data)]: the header goes out
    with status 200 if it has not gone out yet, and the bytes are written
    unless the status allows no body. *)
Definition Write_ (data : string) : M unit :=
  WriteHeader 200 ;;;
  with_resp (fun rw => if bodyAllowedForStatus (status rw)
                       then mkResponseWriter (rw_header rw) (rw_wrote rw)
                                             (rw_body rw ++ data)
                       else rw).

(** [io.Copy(w, data)]: nothing is written for an empty stream. *)
Definition io_Copy (data : string) : M unit :=
  if String.eqb data "" then ret tt else Write_ data.

(** [fmt.Println(line)]. *)
Definition Println (line : string) : M unit :=
  fun w => (Done tt, mkWorld (resp w) (loginHtml w) (store w) (authst w)
                             (calls w) (checks w) (stdout w ++ [line])).

(** *** The server's field, the auth engine and the backend *)

Definition set_loginHtml (html : string) : M unit :=
  fun w => (Done tt, mkWorld (resp w) html (store w) (authst w) (calls w) (checks w) (stdout w)).

Definition get_loginHtml : M string := fun w => (Done (loginHtml w), w).

(** [s.auth.CanRead] and [s.auth.CanWrite] read the auth engine's state;
    each check is logged. *)
Definition auth_CanRead (token path : string) : M bool :=
  fun w => (Done (CanRead (auth s) token path (authst w)),
            mkWorld (resp w) (loginHtml w) (store w) (authst w) (calls w)
                    (checks w ++ [CheckRead token path]) (stdout w)).

Definition auth_CanWrite (token path : string) : M bool :=
  fun w => (Done (CanWrite (auth s) token path (authst w)),
            mkWorld (resp w) (loginHtml w) (store w) (authst w) (calls w)
                    (checks w ++ [CheckWrite token path]) (stdout w)).

Definition with_auth {T} (f : A -> T * A) : M T :=
  fun w => let (t, a) := f (authst w) in
           (Done t, mkWorld (resp w) (loginHtml w) (store w) a (calls w) (checks w) (stdout w)).

(** A backend method runs on the store and is logged. *)
Definition call {T} (c : BackendCall) (f : B -> T * B) : M T :=
  fun w => let (t, b) := f (store w) in
           (Done t, mkWorld (resp w) (loginHtml w) b (authst w)
                            (calls w ++ [c]) (checks w) (stdout w)).

Definition backend_List (path : string) (depth : Z) : M (Item + goerror) :=
  call (CallList path depth) (List (backend s) path depth).

Definition backend_Read (path : string) (offset length : Z) : M (Item * string + goerror) :=
  call (CallRead path offset length) (Read (backend s) path offset length).

Definition backend_Write (b : WritableBackend B) (path source : string)
    (offset length : Z) (overwrite truncate : bool) : M (option goerror) :=
  call (CallWrite path source offset length overwrite truncate)
       (Write b path source offset length overwrite truncate).

Definition backend_MakeDir (b : WritableBackend B) (path : string) (recursive : bool)
    : M (option goerror) :=
  call (CallMakeDir path recursive) (MakeDir b path recursive).

Definition backend_Delete (b : WritableBackend B) (path : string) (recursive : bool)
    : M (option goerror) :=
  call (CallDelete path recursive) (Delete b path recursive).

Definition backend_GetImage (b : ImageServer B) (path : string) (size : Z)
    : M (string + goerror) :=
  call (CallGetImage path size) (GetImage b path size).

Definition Atoi (str : string) : Z + goerror :=
  strconv_parse (strconv_Quote lib) "Atoi" str.

Definition ParseInt (str : string) : Z + goerror :=
  strconv_parse (strconv_Quote lib) "ParseInt" str.

(** *** The handlers of [server.go] *)

Definition dq : string := String (ascii_of_nat 34) EmptyString.
Definition tab : string := String (ascii_of_nat 9) EmptyString.

Definition emauth_challenge : string :=
  "emauth realm=" ++ dq ++ "Everything" ++ dq ++ ", charset=" ++ dq ++ "UTF-8" ++ dq.

Definition sendLoginPage (r : Request) : M unit :=
  header_Set "WWW-Authenticate" emauth_challenge ;;;
  header_Set "Content-Type" "text/html; charset=utf-8" ;;;
  WriteHeader 403 ;;;
  let* html := get_loginHtml in
  Write_ html.

(** The two branches every handler takes on a backend error [err]: the
    code and message of a structured [Error], or 500 and [err.Error()]. *)
Definition write_backend_error (err : goerror) : M unit :=
  match as_Error err with
  | Some e => WriteHeader (HttpCode e) ;;; Write_ (Message e)
  | None => WriteHeader 500 ;;; Write_ (Error_string err)
  end.

Definition handleHead (r : Request) (reqPath : string) : M unit :=
  let* tok := lift (extractToken r) in
  let token := fst tok in
  let* ok := auth_CanRead token reqPath in
  if negb ok then sendLoginPage r
  else
    let parentDir := filepath_Dir lib reqPath ++ "/" in
    let* res := backend_List parentDir 1 in
    match res with
    | inr err => write_backend_error err
    | inl item =>
        let filename := filepath_Base lib reqPath in
        match Children item !! filename with
        | None => WriteHeader 404 ;;; Write_ "Not found"
        | Some child => header_Set "Content-Length" (fmt_d (Size child))
        end
    end.

Definition handlePut (r : Request) (reqPath : string) : M unit :=
  let* tok := lift (extractToken r) in
  let token := fst tok in
  let query := URL_Query r in
  let* ok := auth_CanWrite token reqPath in
  if negb ok then sendLoginPage r
  else
    match asWritable (backend s) with
    | None => WriteHeader 500 ;;; Write_ "Backend does not support writing"
    | Some backend =>
        let isDir := Strings.HasSuffix reqPath "/" in
        if isDir then
          let recursive := String.eqb (Values_Get query "recursive") "true" in
          let* err := backend_MakeDir backend reqPath recursive in
          match err with
          | Some e => WriteHeader 400 ;;; Write_ (Error_string e)
          | None => ret tt
          end
        else
          let offset := 0 in
          let truncate := true in
          let overwrite := String.eqb (Values_Get query "overwrite") "true" in
          if ContentLength r <? 1 then
            WriteHeader 400 ;;; Write_ "Invalid write size"
          else
            let* err := backend_Write backend reqPath (Body r) offset (ContentLength r)
                                      overwrite truncate in
            match err with
            | Some e => WriteHeader 500 ;;; Write_ (Error_string e)
            | None => ret tt
            end
    end.

Definition handlePatch (r : Request) (reqPath : string) : M unit :=
  let* tok := lift (extractToken r) in
  let token := fst tok in
  let query := URL_Query r in
  let* ok := auth_CanWrite token reqPath in
  if negb ok then sendLoginPage r
  else
    match asWritable (backend s) with
    | None => WriteHeader 500 ;;; Write_ "Backend does not support writing"
    | Some backend =>
        let overwrite := true in
        let truncate := false in
        let offsetParam := Values_Get query "offset" in
        match (if String.eqb offsetParam "" then inl 0
               else Atoi (Values_Get query "offset")) with
        | inr _ => WriteHeader 400 ;;; Write_ "Invalid offset"
        | inl offset =>
            match Atoi (Header_Get (Header r) "Content-Length") with
            | inr _ => WriteHeader 400 ;;; Write_ "Invalid content length"
            | inl size =>
                let* err := backend_Write backend reqPath (Body r) offset size
                                          overwrite truncate in
                match err with
                | Some e => WriteHeader 500 ;;; Write_ (Error_string e)
                | None => ret tt
                end
            end
        end
    end.

Definition handleDelete (r : Request) (reqPath : string) : M unit :=
  let* tok := lift (extractToken r) in
  let token := fst tok in
  let query := URL_Query r in
  let* ok := auth_CanWrite token reqPath in
  if negb ok then sendLoginPage r
  else
    match asWritable (backend s) with
    | None => WriteHeader 500 ;;; Write_ "Backend does not support writing"
    | Some backend =>
        let recursive := String.eqb (Values_Get query "recursive") "true" in
        let* err := backend_Delete backend reqPath recursive in
        match err with
        | Some e => WriteHeader 500 ;;; Write_ (Error_string e)
        | None => ret tt
        end
    end.

(** [http.SetCookie]. *)
Definition http_SetCookie (cookie : Cookie) : M unit :=
  let v := Cookie_String lib cookie in
  if String.eqb v "" then ret tt
  else with_resp (fun rw => mkResponseWriter (Header_Add "Set-Cookie" v (rw_header rw))
                                             (rw_wrote rw) (rw_body rw)).

Definition authorize (r : Request) : M unit :=
  let query := URL_Query r in
  let id := Values_Get query "id" in
  let code := Values_Get query "code" in
  if negb (String.eqb id "") && negb (String.eqb code "") then
    let* res := with_auth (CompleteAuth (auth s) id code) in
    match res with
    | (_, Some err) => WriteHeader 400 ;;; Write_ (Error_string err)
    | (token, None) =>
        let cookie := {| Name := "access_token"; Value := token; HttpOnly := true;
                         MaxAge := 86400 * 365; Path := "/"; SameSiteLax := true |} in
        http_SetCookie cookie ;;;
        Write_ token
    end
  else
    match Body_err r with
    | Some err => WriteHeader 400 ;;; Write_ (Error_string err)
    | None =>
        match json_Unmarshal lib (Body r) with
        | inr err => WriteHeader 400 ;;; Write_ (Error_string err)
        | inl key =>
            let* res := with_auth (Authorize (auth s) key) in
            match res with
            | (_, Some err) => WriteHeader 400 ;;; Write_ (Error_string err)
            | (authId, None) => Write_ authId
            end
        end
    end.

Definition parseRange (header : string) : HttpRange + goerror :=
  let parts := Strings.Split header "=" in
  if negb (length parts =? 2)%nat then inr (errors_New "Invalid Range header")
  else
    let rangeParts := Strings.Split (nth 1 parts "") "-" in
    if negb (length rangeParts =? 2)%nat then inr (errors_New "Invalid Range header")
    else
      match (if negb (String.eqb (nth 0 rangeParts "") "")
             then ParseInt (nth 0 rangeParts "") else inl 0) with
      | inr err => inr err
      | inl start =>
          match (if negb (String.eqb (nth 1 rangeParts "") "")
                 then ParseInt (nth 1 rangeParts "") else inl MAX_INT64) with
          | inr err => inr err
          | inl end_ => inl {| Start := start; End := end_ |}
          end
      end.

Definition serveDir (r : Request) (reqPath : string) : M unit :=
  let htmlIndexPath := reqPath ++ "index.html" in
  let* res := backend_Read htmlIndexPath 0 0 in
  match res with
  | inr _ => WriteHeader 400 ;;; Write_ "Attempted to read directory"
  | inl (_, data) => io_Copy data
  end.

Definition serveFile (r : Request) (reqPath : string) : M unit :=
  let query := URL_Query r in
  header_Set "Accept-Ranges" "bytes" ;;;
  let download := String.eqb (Values_Get query "download") "true" in
  (if download then header_Set "Content-Disposition" "attachment" else ret tt) ;;;
  let rangeHeader := Header_Get (Header r) "Range" in
  match (if negb (String.eqb rangeHeader "")
         then match parseRange rangeHeader with
              | inr err => inr err
              | inl rang =>
                  inl (Some rang, Start rang,
                       if negb (End rang =? MAX_INT64)
                       then wrap64 (wrap64 (End rang - Start rang) + 1) else 0)
              end
         else inl (None, 0, 0)) with
  | inr err => WriteHeader 500 ;;; Write_ (Error_string err)
  | inl (rang, offset, copyLength) =>
      let* res := backend_Read reqPath offset copyLength in
      match res with
      | inr err => write_backend_error err
      | inl (item, data) =>
          match rang with
          | Some rang =>
              let end_ := if End rang =? MAX_INT64 then wrap64 (Size item - 1)
                          else End rang in
              let l := wrap64 (wrap64 (end_ - Start rang) + 1) in
              header_Set "Content-Range"
                ("bytes " ++ fmt_d (Start rang) ++ "-" ++ fmt_d end_ ++ "/"
                 ++ fmt_d (Size item)) ;;;
              header_Set "Content-Length" (fmt_d l) ;;;
              WriteHeader 206
          | None => header_Set "Content-Length" (fmt_d (Size item))
          end ;;;
          io_Copy data
      end
  end.

Definition serveItem (r : Request) (reqPath : string) : M unit :=
  let* tok := lift (extractToken r) in
  let token := fst tok in
  let* ok := auth_CanRead token reqPath in
  if negb ok then sendLoginPage r
  else
    let isDir := Strings.HasSuffix reqPath "/" in
    if isDir then serveDir r reqPath else serveFile r reqPath.

Definition handleGemDriveRequest (r : Request) (reqPath : string) : M unit :=
  let* tok := lift (extractToken r) in
  let token := fst tok in
  let pathParts := Strings.Split reqPath "gemdrive/" in
  let* gemPath := lift (index pathParts 0) in
  let* gemReq := lift (index pathParts 1) in
  if String.eqb gemReq "authorize" then authorize r
  else
    let* ok := auth_CanRead token gemPath in
    if negb ok then sendLoginPage r
    else if String.eqb gemReq "meta.json" then
      let depthParam := Values_Get (URL_Query r) "depth" in
      match (if negb (String.eqb depthParam "") then Atoi depthParam else inl 1) with
      | inr _ => WriteHeader 400 ;;; Write_ "Invalid depth param"
      | inl depth =>
          let* res := backend_List gemPath depth in
          match res with
          | inr err => write_backend_error err
          | inl item =>
              match json_Marshal lib item with
              | (_, Some err) => WriteHeader 500 ;;; Write_ (Error_string err)
              | (jsonBody, None) => Write_ jsonBody
              end
          end
      end
    else
      let gemReqParts := Strings.Split gemReq "/" in
      let* first := lift (index gemReqParts 0) in
      if String.eqb first "images" then
        match asImageServer (backend s) with
        | Some b =>
            let* sizeText := lift (index gemReqParts 1) in
            match Atoi sizeText with
            | inr err => WriteHeader 400 ;;; Write_ (Error_string err)
            | inl size =>
                let* filename := lift (index gemReqParts 2) in
                let imagePath := path_Join lib gemPath filename in
                let* res := backend_GetImage b imagePath size in
                match res with
                | inr err => WriteHeader 500 ;;; Write_ (Error_string err)
                | inl img => io_Copy img
                end
            end
        | None => ret tt
        end
      else ret tt.

(** The host name and the path the handler of [Run] works with: the
    forwarded host if there is one, and the URL's path behind the root that
    [DomainMap] gives that host. *)
Definition request_hostname (r : Request) : string :=
  let hostname := Header_Get (Header r) "X-Forwarded-Host" in
  if String.eqb hostname "" then Host r else hostname.

Definition request_path (r : Request) : string :=
  let reqPath := URL_Path r in
  match DomainMap (config s) !! request_hostname r with
  | Some mapRoot => mapRoot ++ reqPath
  | None => reqPath
  end.

(** The handler that [Run] registers for every path. *)
Definition Run_handler (r : Request) : M unit :=
  match rice_FindBox lib "files" with
  | inr err => WriteHeader 500 ;;; Write_ (Error_string err)
  | inl box =>
      match Box_Bytes lib box "login.html" with
      | (html, Some err) =>
          set_loginHtml html ;;; WriteHeader 500 ;;; Write_ (Error_string err)
      | (html, None) =>
          set_loginHtml html ;;;
          header_assign "Access-Control-Allow-Origin" ["*"] ;;;
          header_assign "Access-Control-Allow-Methods" ["*"] ;;;
          header_assign "Access-Control-Allow-Headers" ["*"] ;;;
          if String.eqb (Method r) "OPTIONS" then ret tt
          else
            let hostname := request_hostname r in
            let reqPath := request_path r in
            let logLine := Method r ++ tab ++ hostname ++ tab ++ reqPath in
            Println logLine ;;;
            let pathParts := Strings.Split reqPath "gemdrive/" in
            let ext := path_Ext lib reqPath in
            let contentType := mime_TypeByExtension lib ext in
            header_Set "Content-Type" contentType ;;;
            if (length pathParts =? 2)%nat then handleGemDriveRequest r reqPath
            else if String.eqb (Method r) "HEAD" then handleHead r reqPath
            else if String.eqb (Method r) "GET" then serveItem r reqPath
            else if String.eqb (Method r) "PUT" then handlePut r reqPath
            else if String.eqb (Method r) "PATCH" then handlePatch r reqPath
            else if String.eqb (Method r) "DELETE" then handleDelete r reqPath
            else ret tt
      end
  end.

End Protocol.

Arguments Strings.Split : simpl never.
Arguments Strings.HasSuffix : simpl never.
Arguments fmt_d : simpl never.
Arguments wrap64 : simpl never.
Arguments CanonicalHeaderKey : simpl never.
Arguments Header_Get : simpl never.
Arguments Header_Set : simpl never.
Arguments Header_Add : simpl never.
Arguments Values_Get : simpl never.
Arguments extractToken : simpl never.
Arguments parseRange : simpl never.
Arguments request_path : simpl never.
Arguments request_hostname : simpl never.
Arguments emauth_challenge : simpl never.
Arguments MAX_INT64 : simpl never.

(** ** The standalone server of [cmd/gemdrive-server/main.go] *)

(** [main.go] has its own copies of [extractToken], [parseRange],
    [HttpRange] and [MAX_INT64], word for word those of [server.go]; the
    definitions above stand for both.  Its [serveItem] serves every request
    whose path has no marker, whatever the method. *)
Module Cmd.

(** [GemDriveServer]. *)
Record GemDriveServer (B A K : Type) := mkGemDriveServer {
  port : Z;
  backend : Backend B;
  auth : Auth A K
}.
Arguments port {B A K}.
Arguments backend {B A K}.
Arguments auth {B A K}.

Section Handlers.

Context {B A K Box : Type}.
Variable lib : GoLib K Box.
Variable s : GemDriveServer B A K.

Local Abbreviation M := (M B A).

Definition auth_CanRead (token path : string) : M bool :=
  fun w => (Done (CanRead (auth s) token path (authst w)),
            mkWorld (resp w) (loginHtml w) (store w) (authst w) (calls w)
                    (checks w ++ [CheckRead token path]) (stdout w)).

Definition backend_Read (path : string) (offset length : Z) : M (Item * string + goerror) :=
  call (CallRead path offset length) (Read (backend s) path offset length).

Definition serveItem (r : Request) : M unit :=
  let* tok := lift (extractToken r) in
  let token := fst tok in
  let* ok := auth_CanRead token (URL_Path r) in
  if negb ok then
    header_Set "WWW-Authenticate" emauth_challenge ;;;
    WriteHeader 403 ;;;
    Write_ "Unauthorized"
  else
    header_Set "Accept-Ranges" "bytes" ;;;
    let rangeHeader := Header_Get (Header r) "Range" in
    match (if negb (String.eqb rangeHeader "")
           then match parseRange lib rangeHeader with
                | inr err => inr err
                | inl rang =>
                    inl (Some rang, Start rang,
                         if negb (End rang =? MAX_INT64)
                         then wrap64 (wrap64 (End rang - Start rang) + 1) else 0)
                end
           else inl (None, 0, 0)) with
    | inr err => WriteHeader 500 ;;; Write_ (Error_string err)
    | inl (rang, offset, copyLength) =>
        let* res := backend_Read (URL_Path r) offset copyLength in
        match res with
        | inr err =>
            match as_Error err with
            | Some readErr => WriteHeader (HttpCode readErr) ;;; Write_ (Message readErr)
            | None => WriteHeader 500 ;;; Write_ (Error_string err)
            end
        | inl (item, data) =>
            match rang with
            | Some rang =>
                let end_ := if End rang =? MAX_INT64 then wrap64 (Size item - 1)
                            else End rang in
                let l := wrap64 (wrap64 (end_ - Start rang) + 1) in
                header_Set "Content-Range"
                  ("bytes " ++ fmt_d (Start rang) ++ "-" ++ fmt_d end_ ++ "/"
                   ++ fmt_d (Size item)) ;;;
                header_Set "Content-Length" (fmt_d l) ;;;
                WriteHeader 206
            | None => header_Set "Content-Length" (fmt_d (Size item))
            end ;;;
            io_Copy data
        end
    end.

End Handlers.

End Cmd.

(** * Observations on a handler *)

(** The response, the backend calls, the capability checks and the outcome
    of a handler started in the world [w]. *)
Definition response {B A} (m : M B A unit) (w : World B A) : ResponseWriter :=
  resp (snd (m w)).
Definition calls_of {B A} (m : M B A unit) (w : World B A) : list BackendCall :=
  calls (snd (m w)).
Definition checks_of {B A} (m : M B A unit) (w : World B A) : list AuthCheck :=
  checks (snd (m w)).
Definition returns {B A} (m : M B A unit) (w : World B A) : Prop :=
  fst (m w) = Done tt.

(** The world [w] after one more capability check. *)
Definition checked {B A} (c : AuthCheck) (w : World B A) : World B A :=
  mkWorld (resp w) (loginHtml w) (store w) (authst w) (calls w)
          (checks w ++ [c]) (stdout w).

(** The world [w] after one more backend call that left the store [b]. *)
Definition called {B A} (c : BackendCall) (b : B) (w : World B A) : World B A :=
  mkWorld (resp w) (loginHtml w) b (authst w) (calls w ++ [c]) (checks w) (stdout w).

(** The capability check of a direct-mode request fails: a token was
    extracted, and [CanRead] (for HEAD and GET) or [CanWrite] (for PUT, PATCH
    and DELETE) refuses it on the path. *)
Definition denied {B A K} (s : Server B A K) (r : Request) (reqPath : string) (a : A)
    : Prop :=
  exists token e, extractToken r = Done (token, e) /\
    ((Method r = "HEAD" \/ Method r = "GET")
       /\ CanRead (auth s) token reqPath a = false
     \/ (Method r = "PUT" \/ Method r = "PATCH" \/ Method r = "DELETE")
       /\ CanWrite (auth s) token reqPath a = false).

(** The world in which the handler of [Run] starts the method's handler:
    the login page loaded, the CORS headers and the content type set, the
    request logged. *)
Definition prepared {B A K Box} (lib : GoLib K Box) (s : Server B A K)
    (html : string) (r : Request) (w : World B A) : World B A :=
  mkWorld
    (mkResponseWriter
       (Header_Set "Content-Type"
          (mime_TypeByExtension lib (path_Ext lib (request_path s r)))
          (<["Access-Control-Allow-Headers" := ["*"]]>
             (<["Access-Control-Allow-Methods" := ["*"]]>
                (<["Access-Control-Allow-Origin" := ["*"]]> (rw_header (resp w))))))
       (rw_wrote (resp w)) (rw_body (resp w)))
    html (store w) (authst w) (calls w) (checks w)
    (stdout w ++ [Method r ++ tab ++ request_hostname r ++ tab ++ request_path s r]).

(** A computation that makes no capability check. *)
Definition keeps_checks {B A T} (m : M B A T) : Prop :=
  forall w, checks (snd (m w)) = checks w.

(** A computation that changes nothing but the response writer. *)
Definition resp_only {B A T} (m : M B A T) : Prop :=
  forall w, exists rw,
    snd (m w) = mkWorld rw (loginHtml w) (store w) (authst w) (calls w) (checks w)
                        (stdout w).

(** * The token as section 6 of the specification words it *)

(** The token the specification describes: the first value present among
    the query parameter, the second white-space-delimited field of the
    [Authorization] header ([String.words] breaks a string at white space),
    and the cookie. *)
Definition claimed_token (r : Request) : string :=
  let queryToken := Values_Get (URL_Query r) "access_token" in
  let authHeader := Header_Get (Header r) "Authorization" in
  if negb (String.eqb queryToken "") then queryToken
  else if negb (String.eqb authHeader "") then nth 1 (String.words authHeader) ""
  else default "" (Request_Cookie (Cookies r) "access_token").

(** The steps of [handleGemDriveRequest] that follow a successful read
    check: the operation [gemReq] on the target [gemPath]. *)
Definition meta_operation {B A K Box} (lib : GoLib K Box) (s : Server B A K)
    (r : Request) (gemPath gemReq : string) : M B A unit :=
  if String.eqb gemReq "meta.json" then
    let depthParam := Values_Get (URL_Query r) "depth" in
    match (if negb (String.eqb depthParam "") then Atoi lib depthParam else inl 1) with
    | inr _ => WriteHeader 400 ;;; Write_ "Invalid depth param"
    | inl depth =>
        let* res := backend_List s gemPath depth in
        match res with
        | inr err => write_backend_error err
        | inl item =>
            match json_Marshal lib item with
            | (_, Some err) => WriteHeader 500 ;;; Write_ (Error_string err)
            | (jsonBody, None) => Write_ jsonBody
            end
        end
    end
  else
    let gemReqParts := Strings.Split gemReq "/" in
    let* first := lift (index gemReqParts 0) in
    if String.eqb first "images" then
      match asImageServer (backend s) with
      | Some b =>
          let* sizeText := lift (index gemReqParts 1) in
          match Atoi lib sizeText with
          | inr err => WriteHeader 400 ;;; Write_ (Error_string err)
          | inl size =>
              let* filename := lift (index gemReqParts 2) in
              let imagePath := path_Join lib gemPath filename in
              let* res := backend_GetImage b imagePath size in
              match res with
              | inr err => WriteHeader 500 ;;; Write_ (Error_string err)
              | inl img => io_Copy img
              end
          end
      | None => ret tt
      end
    else ret tt.

(** * The grammar of the [Range] header *)

(** A bound of a range: the default when the text is empty, else the 64-bit
    integer the text denotes. *)
Definition range_bound (text : string) (dflt : Z) : option Z :=
  if String.eqb text "" then Some dflt
  else match Strconv.parseInt text with
       | inl n => Some n
       | inr _ => None
       end.

(** [header] is one pair [first-last] after a single [=], and its bounds
    are [start] and [end_]: an omitted start is 0, an omitted end is
    [MAX_INT64], which the handlers read as the end of the file. *)
Definition range_grammar (header : string) (start end_ : Z) : Prop :=
  exists unit first last,
    header = unit ++ "=" ++ first ++ "-" ++ last
    /\ Strings.contains_byte "=" unit = false
    /\ Strings.contains_byte "=" first = false
    /\ Strings.contains_byte "=" last = false
    /\ Strings.contains_byte "-" first = false
    /\ Strings.contains_byte "-" last = false
    /\ range_bound first 0 = Some start
    /\ range_bound last MAX_INT64 = Some end_.

(** The header map after the first steps of [serveFile]. *)
Definition file_header (r : Request) (h : gmap string (list string))
    : gmap string (list string) :=
  if String.eqb (Values_Get (URL_Query r) "download") "true"
  then Header_Set "Content-Disposition" "attachment" (Header_Set "Accept-Ranges" "bytes" h)
  else Header_Set "Accept-Ranges" "bytes" h.

Definition serving {B A} (r : Request) (w : World B A) : World B A :=
  mkWorld (mkResponseWriter (file_header r (rw_header (resp w))) (rw_wrote (resp w))
                            (rw_body (resp w)))
          (loginHtml w) (store w) (authst w) (calls w) (checks w) (stdout w).



(** * A small server for the examples *)

(** An in-memory backend over a list of files, an auth engine with two
    fixed tokens and stand-ins for the library functions.  The witnesses and
    counterexamples below run the handlers on them. *)
Module Demo.

Definition quote (str : string) : string := dq ++ str ++ dq.

(** The text before and after the last slash. *)
Fixpoint dir_base (path : string) : string * string :=
  match path with
  | EmptyString => (EmptyString, EmptyString)
  | String c rest =>
      if Strings.contains_byte "/" rest
      then (String c (fst (dir_base rest)), snd (dir_base rest))
      else if Ascii.eqb c "/" then (EmptyString, rest)
      else (EmptyString, path)
  end.

Definition login_page : string := "<html>login</html>".

Definition lib : GoLib unit unit := {|
  strconv_Quote := quote;
  filepath_Dir := fun path => fst (dir_base path);
  filepath_Base := fun path => snd (dir_base path);
  path_Join := fun a b => a ++ b;
  path_Ext := fun _ => "";
  mime_TypeByExtension := fun _ => "";
  json_Marshal := fun item =>
    ("{" ++ dq ++ "size" ++ dq ++ ":" ++ fmt_d (Size item) ++ "}", None);
  json_Unmarshal := fun _ => inl tt;
  Cookie_String := fun c => Name c ++ "=" ++ Value c;
  rice_FindBox := fun _ => inl tt;
  Box_Bytes := fun _ _ => (login_page, None)
|}.

(** The token [writer] may read and write everything, [reader] may read. *)
Definition tokens : Auth unit unit := {|
  CanRead := fun token _ _ => String.eqb token "reader" || String.eqb token "writer";
  CanWrite := fun token _ _ => String.eqb token "writer";
  CompleteAuth := fun _ _ a => (("", Some (errors_New "No such authorization")), a);
  Authorize := fun _ a => (("auth-1", None), a)
|}.

Definition structured (code : Z) (msg : string) : goerror :=
  {| as_Error := Some (mkError code msg); Error_string := msg |}.

Fixpoint lookup_file (path : string) (files : list (string * string)) : option string :=
  match files with
  | [] => None
  | (p, content) :: files' =>
      if String.eqb p path then Some content else lookup_file path files'
  end.

Definition under (dir : string) (file : string * string) : bool :=
  Strings.HasPrefix (fst file) dir && negb (String.eqb (fst file) dir).

Definition size_of (content : string) : Z := Z.of_nat (String.length content).

Definition child_of (dir : string) (file : string * string) : string * Item :=
  (substring (String.length dir) (String.length (fst file) - String.length dir) (fst file),
   mkItem (size_of (snd file)) ∅).

Definition mList (path : string) (depth : Z) (files : list (string * string))
    : (Item + goerror) * list (string * string) :=
  match lookup_file path files with
  | Some content => (inl (mkItem (size_of content) ∅), files)
  | None =>
      if existsb (under path) files
      then (inl (mkItem 0 (list_to_map (map (child_of path) (filter (fun f => under path f = true) files)))),
            files)
      else (inr (structured 404 "Not found"), files)
  end.

Definition mRead (path : string) (offset length : Z) (files : list (string * string))
    : (Item * string + goerror) * list (string * string) :=
  match lookup_file path files with
  | Some content =>
      (inl (mkItem (size_of content) ∅,
            substring (Z.to_nat offset)
              (if length =? 0 then (String.length content - Z.to_nat offset)%nat
               else Z.to_nat length) content),
       files)
  | None => (inr (structured 404 "Not found"), files)
  end.

Definition remove_file (path : string) (files : list (string * string))
    : list (string * string) :=
  filter (fun f => String.eqb (fst f) path = false) files.

Definition mWrite (path source : string) (offset length : Z) (overwrite truncate : bool)
    (files : list (string * string)) : option goerror * list (string * string) :=
  match lookup_file path files with
  | Some _ =>
      if overwrite then (None, (path, source) :: remove_file path files)
      else (Some (structured 400 "File exists"), files)
  | None => (None, (path, source) :: files)
  end.

Definition mMakeDir (path : string) (recursive : bool) (files : list (string * string))
    : option goerror * list (string * string) :=
  (None, files).

Definition mDelete (path : string) (recursive : bool) (files : list (string * string))
    : option goerror * list (string * string) :=
  if Strings.HasSuffix path "/" && existsb (under path) files && negb recursive
  then (Some (structured 400 "Directory not empty"), files)
  else (None, filter (fun f => Strings.HasPrefix (fst f) path = false) files).

Definition writable : WritableBackend (list (string * string)) :=
  {| Write := mWrite; MakeDir := mMakeDir; Delete := mDelete |}.

Definition memory : Backend (list (string * string)) :=
  {| List := mList; Read := mRead; asWritable := Some writable; asImageServer := None |}.

Definition server : Server (list (string * string)) unit unit :=
  mkServer _ _ _ (mkConfig ∅) memory tokens.

Definition ten : string := "0123456789".
Definition hundred_bytes : string :=
  ten ++ ten ++ ten ++ ten ++ ten ++ ten ++ ten ++ ten ++ ten ++ ten.

Definition files : list (string * string) :=
  [("/docs/a.txt", hundred_bytes); ("/docs/dir/b.txt", "b")].

(** The world of a new request. *)
Definition world : World (list (string * string)) unit :=
  mkWorld fresh "" files tt [] [] [].

Definition request (method path : string) (query header : list (string * list string))
    (cookies : list (string * string)) (clen : Z) (body : string) : Request :=
  {| Method := method; URL_Path := path; URL_Query := list_to_map query;
     Header := list_to_map header; Host := "localhost"; Cookies := cookies;
     ContentLength := clen; Body := body; Body_err := None |}.

(** GET of a file without any token. *)
Definition get_anonymous : Request :=
  request "GET" "/docs/a.txt" [] [] [] 0 "".

(** A header with a scheme and nothing after it. *)
Definition get_bearer_only : Request :=
  request "GET" "/docs/a.txt" [] [("Authorization", ["Bearer"])] [] 0 "".

(** A header whose first two fields are separated by a tab. *)
Definition get_tab_header : Request :=
  request "GET" "/docs/a.txt" [] [("Authorization", ["Basic" ++ tab ++ "abc def"])] [] 0 "".

(** A token in each of the three places. *)
Definition get_three_tokens : Request :=
  request "GET" "/docs/a.txt" [("access_token", ["reader"])]
          [("Authorization", ["Bearer writer"])] [("access_token", "other")] 0 "".

(** GET of a file by the reader, with and without a range. *)
Definition get_whole : Request :=
  request "GET" "/docs/a.txt" [("access_token", ["reader"])] [] [] 0 "".

Definition get_range (range : string) : Request :=
  request "GET" "/docs/a.txt" [("access_token", ["reader"])] [("Range", [range])] [] 0 "".

(** [meta.json] of the directory [/docs/] with a [depth] parameter. *)
Definition meta_json (depth : list (string * list string)) : Request :=
  request "GET" "/docs/gemdrive/meta.json" (("access_token", ["reader"]) :: depth) [] [] 0 "".

(** A meta-protocol request for an operation the handler does not know. *)
Definition meta_unknown : Request :=
  request "GET" "/docs/gemdrive/thumbnails/a.png" [("access_token", ["reader"])] [] [] 0 "".

(** PUT of three bytes, PUT of a directory and PUT without a body. *)
Definition put_file : Request :=
  request "PUT" "/docs/new.txt" [("access_token", ["writer"]); ("overwrite", ["true"])]
          [] [] 3 "abc".

Definition put_dir : Request :=
  request "PUT" "/docs/new/" [("access_token", ["writer"]); ("recursive", ["true"])]
          [] [] 0 "".

Definition put_empty : Request :=
  request "PUT" "/docs/new.txt" [("access_token", ["writer"])] [] [] 0 "".

(** PATCH of three bytes at the offset the query gives. *)
Definition patch (query : list (string * list string)) (header : list (string * list string))
    : Request :=
  request "PATCH" "/docs/a.txt" (("access_token", ["writer"]) :: query) header [] 3 "xyz".

(** GET of a file that does not exist. *)
Definition get_missing : Request :=
  request "GET" "/docs/missing.txt" [("access_token", ["reader"])] [] [] 0 "".

(** DELETE of the directory [/docs/dir/], which holds a file, without the
    [recursive] flag. *)
Definition delete_dir : Request :=
  request "DELETE" "/docs/dir/" [("access_token", ["writer"])] [] [] 0 "".

End Demo.

(** * More observations *)

(** A computation that calls no backend method and makes no capability
    check. *)
Definition silent {B A T} (m : M B A T) : Prop :=
  forall w, calls (snd (m w)) = calls w /\ checks (snd (m w)) = checks w.

(** A silent computation that also leaves the auth engine's state alone. *)
Definition quiet {B A T} (m : M B A T) : Prop :=
  forall w, calls (snd (m w)) = calls w /\ checks (snd (m w)) = checks w
            /\ authst (snd (m w)) = authst w.

(** The backend methods that change the store. *)
Definition is_mutating (c : BackendCall) : bool :=
  match c with
  | CallWrite _ _ _ _ _ _ | CallMakeDir _ _ | CallDelete _ _ => true
  | CallList _ _ | CallRead _ _ _ | CallGetImage _ _ => false
  end.

(** The backend calls [cs] of a request are covered by its capability
    checks [ks], made on the auth state [a]: either there is no call, or the
    one check made was a [CanRead] that passed and no call mutates, or it was
    a [CanWrite] that passed. *)
Definition authorized_by {B A K} (s : Server B A K) (a : A)
    (ks : list AuthCheck) (cs : list BackendCall) : Prop :=
  cs = []
  \/ exists token path,
       (ks = [CheckRead token path] /\ CanRead (auth s) token path a = true
        /\ Forall (fun c => is_mutating c = false) cs)
       \/ (ks = [CheckWrite token path] /\ CanWrite (auth s) token path a = true).

(** A handler that makes at most one backend call and at most one capability
    check, the call being covered by the check. *)
Definition disciplined {B A K} (s : Server B A K) (m : M B A unit) : Prop :=
  forall w, exists cs ks,
    calls (snd (m w)) = (calls w ++ cs)%list
    /\ checks (snd (m w)) = (checks w ++ ks)%list
    /\ (length cs <= 1)%nat /\ (length ks <= 1)%nat
    /\ authorized_by s (authst w) ks cs.

(** The steps after a passed check: no further check, and at most one call,
    which satisfies [P]. *)
Definition one_call {B A T} (P : BackendCall -> Prop) (m : M B A T) : Prop :=
  forall w, exists cs,
    calls (snd (m w)) = (calls w ++ cs)%list
    /\ checks (snd (m w)) = checks w
    /\ (length cs <= 1)%nat /\ Forall P cs.

(** The world [w] with the auth engine in state [a]. *)
Definition with_authst {B A} (a : A) (w : World B A) : World B A :=
  mkWorld (resp w) (loginHtml w) (store w) a (calls w) (checks w) (stdout w).

(** The header [k], with the values [v], is in the live header map and in
    the map the client receives. *)
Definition has_header (k : string) (v : list string) (rw : ResponseWriter) : Prop :=
  rw_header rw !! k = Some v /\ sent_header rw !! k = Some v.

(** A computation that does not take the header [k] away. *)
Definition keeps_header {B A T} (k : string) (v : list string) (m : M B A T) : Prop :=
  forall w, has_header k v (resp w) -> has_header k v (resp (snd (m w))).

(** The three CORS headers of [Run]. *)
Definition cors_headers : list string :=
  ["Access-Control-Allow-Origin"; "Access-Control-Allow-Methods";
   "Access-Control-Allow-Headers"].

(** The library server with the backend and the auth engine of a standalone
    server. *)
Definition as_server {B A K} (g : Cmd.GemDriveServer B A K) : Server B A K :=
  mkServer B A K (mkConfig ∅) (Cmd.backend g) (Cmd.auth g).

(** A computation that returns from every world. *)
Definition total {B A T} (m : M B A T) : Prop :=
  forall w, exists t, fst (m w) = Done t.

(** An error whose code, if it is a structured [Error], is one that
    [WriteHeader] accepts. *)
Definition valid_error (err : goerror) : Prop :=
  forall e, as_Error err = Some e -> 100 <= HttpCode e <= 999.

(** A backend whose [List] and [Read] fail with such errors only. *)
Definition valid_backend {B} (b : Backend B) : Prop :=
  (forall path depth st err st', List b path depth st = (inr err, st') -> valid_error err)
  /\ (forall path offset length st err st',
        Read b path offset length st = (inr err, st') -> valid_error err).

(** The status of the response after [WriteHeader code] and a [Write]: an
    informational code has gone out at once, and the write sends 200. *)
Definition final_status (code : Z) : Z :=
  if informational code then 200 else code.

(** The bytes written after [WriteHeader code] and [Write text] on a writer
    that held [body]: nothing more when the status allows no body. *)
Definition final_body (code : Z) (body text : string) : string :=
  if bodyAllowedForStatus (final_status code) then body ++ text else body.

(** The backend methods of the meta protocol. *)
Definition is_meta_call (c : BackendCall) : bool :=
  match c with
  | CallList _ _ | CallGetImage _ _ => true
  | CallRead _ _ _ | CallWrite _ _ _ _ _ _ | CallMakeDir _ _ | CallDelete _ _ => false
  end.

(** * More servers for the examples *)

Module More.

(** The example library with a box that cannot be found, and with a box
    that holds no [login.html]. *)
Definition with_box (find : string -> unit + goerror)
    (bytes : unit -> string -> string * option goerror) : GoLib unit unit :=
  mkGoLib unit unit (strconv_Quote Demo.lib) (filepath_Dir Demo.lib) (filepath_Base Demo.lib)
          (path_Join Demo.lib) (path_Ext Demo.lib) (mime_TypeByExtension Demo.lib)
          (json_Marshal Demo.lib) (json_Unmarshal Demo.lib) (Cookie_String Demo.lib)
          find bytes.

Definition no_box : GoLib unit unit :=
  with_box (fun _ => inr (errors_New "could not locate box")) (Box_Bytes Demo.lib).

Definition no_page : GoLib unit unit :=
  with_box (rice_FindBox Demo.lib) (fun _ _ => ("", Some (errors_New "file does not exist"))).

(** The example server behind the host name [files.example], whose root is
    [/docs]. *)
Definition mapped_server : Server (list (string * string)) unit unit :=
  mkServer _ _ _ (mkConfig {["files.example" := "/docs"]}) Demo.memory Demo.tokens.

(** The example backend without the methods that write. *)
Definition read_only : Backend (list (string * string)) :=
  mkBackend _ Demo.mList Demo.mRead None None.

Definition read_only_server : Server (list (string * string)) unit unit :=
  mkServer _ _ _ (mkConfig ∅) read_only Demo.tokens.

(** The example backend with an image method that marks a file's bytes. *)
Definition mGetImage (path : string) (size : Z) (files : list (string * string))
    : (string + goerror) * list (string * string) :=
  match Demo.lookup_file path files with
  | Some content => (inl ("thumbnail of " ++ content), files)
  | None => (inr (errors_New "no such image"), files)
  end.

Definition with_images : Backend (list (string * string)) :=
  mkBackend _ Demo.mList Demo.mRead (Some Demo.writable) (Some (mkImageServer _ mGetImage)).

Definition image_server : Server (list (string * string)) unit unit :=
  mkServer _ _ _ (mkConfig ∅) with_images Demo.tokens.

(** An auth engine that completes the authorization [auth-1] for the code
    [1234], once: its state is the list of pending authorizations. *)
Definition handshake : Auth (list string) unit := {|
  CanRead := fun token _ _ => String.eqb token "token-1";
  CanWrite := fun token _ _ => String.eqb token "token-1";
  CompleteAuth := fun id code pending =>
    if existsb (String.eqb id) pending && String.eqb code "1234"
    then (("token-1", None), List.filter (fun p => negb (String.eqb id p)) pending)
    else (("", Some (errors_New "Invalid code")), pending);
  Authorize := fun _ pending => (("auth-2", None), ("auth-2" :: pending)%list)
|}.

Definition handshake_server : Server (list (string * string)) (list string) unit :=
  mkServer _ _ _ (mkConfig ∅) Demo.memory handshake.

Definition handshake_world : World (list (string * string)) (list string) :=
  mkWorld fresh "" Demo.files ["auth-1"] [] [] [].

(** A backend whose [List] and [Read] fail with a structured error of the
    given code. *)
Definition failing (code : Z) : Backend (list (string * string)) :=
  mkBackend _ (fun _ _ files => (inr (Demo.structured code "failed"), files))
            (fun _ _ _ files => (inr (Demo.structured code "failed"), files))
            None None.

Definition failing_server (code : Z) : Server (list (string * string)) unit unit :=
  mkServer _ _ _ (mkConfig ∅) (failing code) Demo.tokens.

(** The standalone server on the example backend. *)
Definition standalone : Cmd.GemDriveServer (list (string * string)) unit unit :=
  Cmd.mkGemDriveServer _ _ _ 3838 Demo.memory Demo.tokens.

(** Requests by the reader and the writer of the example server. *)
Definition by_reader (method path : string) (query header : list (string * list string))
    : Request :=
  Demo.request method path (("access_token", ["reader"]) :: query) header [] 0 "".

Definition by_writer (method path : string) (query header : list (string * list string))
    (clen : Z) (body : string) : Request :=
  Demo.request method path (("access_token", ["writer"]) :: query) header [] clen body.

(** The two shapes of an [authorize] request. *)
Definition complete (code : string) : Request :=
  Demo.request "GET" "/docs/gemdrive/authorize" [("id", ["auth-1"]); ("code", [code])]
               [] [] 0 "".

Definition start : Request :=
  Demo.request "POST" "/docs/gemdrive/authorize" [] [] [] 2 "{}".

End More.

(** * Properties of the protocol layer *)

Create HintDb keeps.
Create HintDb resp_only.

Section Claims.

Context {B A K Box : Type}.
Variable lib : GoLib K Box.
Variable s : Server B A K.

Implicit Types (r : Request) (w : World B A).

(** ** [strings.Split] at a one-byte separator *)

Lemma split_scan_nonempty sep k str : Strings.split_scan sep k str <> [].
Proof.
  revert k. induction str as [| c str IH]; intros k; cbn [Strings.split_scan]; [done |].
  destruct k; [| apply IH].
  destruct (Strings.HasPrefix (String c str) sep); [done |].
  destruct (Strings.split_scan sep 0 str); done.
Qed.

Lemma split_byte_free c str :
  Strings.contains_byte c str = false ->
  Strings.Split str (String c "") = [str].
Proof.
  unfold Strings.Split.
  induction str as [| d str IH]; simpl; [done |].
  intros [Hd Hs]%orb_false_elim. rewrite Hd, (IH Hs). reflexivity.
Qed.

Lemma split_byte_at c a b :
  Strings.contains_byte c a = false ->
  Strings.Split (a ++ String c b) (String c "")
    = a :: Strings.Split b (String c "").
Proof.
  unfold Strings.Split.
  induction a as [| d a IH]; simpl.
  - intros _. rewrite Ascii.eqb_refl. reflexivity.
  - intros [Hd Ha]%orb_false_elim. rewrite Hd, (IH Ha). reflexivity.
Qed.

Lemma contains_byte_first c str :
  Strings.contains_byte c str = true ->
  exists a b, str = a ++ String c b /\ Strings.contains_byte c a = false.
Proof.
  induction str as [| d str IH]; simpl; [done |].
  destruct (Ascii.eqb d c) eqn:Hd; simpl.
  - intros _. apply Ascii.eqb_eq in Hd as ->. by exists "", str.
  - intros (a & b & -> & Ha)%IH. exists (String d a), b. simpl. by rewrite Hd, Ha.
Qed.

Lemma split_byte_length c str :
  length (Strings.Split str (String c "")) = 1%nat
  <-> Strings.contains_byte c str = false.
Proof.
  split; [| by intros ->%split_byte_free].
  destruct (Strings.contains_byte c str) eqn:Hc; [| done].
  destruct (contains_byte_first c str Hc) as (a & b & -> & Ha).
  rewrite split_byte_at by done. simpl.
  pose proof (split_scan_nonempty (String c "") 0 b) as Hne.
  unfold Strings.Split. destruct (Strings.split_scan _ _ b); done.
Qed.

(** The pieces are exactly two when the separator occurs exactly once. *)
Lemma split_byte_two c str a b :
  Strings.Split str (String c "") = [a; b]
  <-> str = a ++ String c b
      /\ Strings.contains_byte c a = false /\ Strings.contains_byte c b = false.
Proof.
  split.
  - destruct (Strings.contains_byte c str) eqn:Hc.
    + destruct (contains_byte_first c str Hc) as (a' & b' & -> & Ha).
      rewrite split_byte_at by done. intros Heq.
      assert (a' = a) as -> by congruence.
      assert (Hb : Strings.Split b' (String c "") = [b]) by congruence.
      assert (Hfree : Strings.contains_byte c b' = false).
      { apply split_byte_length. by rewrite Hb. }
      rewrite split_byte_free in Hb by done.
      assert (b' = b) as -> by congruence. done.
    + rewrite split_byte_free by done. done.
  - intros (-> & Ha & Hb). rewrite split_byte_at, split_byte_free by done. done.
Qed.

Lemma split_byte_length_two c str :
  length (Strings.Split str (String c "")) = 2%nat ->
  exists a b, Strings.Split str (String c "") = [a; b].
Proof.
  destruct (Strings.Split str (String c "")) as [| a [| b [| ? ?]]]; try done.
  intros _. by exists a, b.
Qed.

(** ** Headers *)

Lemma Header_Get_Set key value h : Header_Get (Header_Set key value h) key = value.
Proof. unfold Header_Get, Header_Set. by rewrite lookup_insert_eq. Qed.

Lemma Header_Get_Set_ne key key' value h :
  CanonicalHeaderKey key <> CanonicalHeaderKey key' ->
  Header_Get (Header_Set key value h) key' = Header_Get h key'.
Proof. intros Hne. unfold Header_Get, Header_Set. by rewrite lookup_insert_ne. Qed.

(** ** The login page *)

Lemma sendLoginPage_run r w :
  rw_wrote (resp w) = None ->
  sendLoginPage r w =
    (Done tt,
     let h := Header_Set "Content-Type" "text/html; charset=utf-8"
                (Header_Set "WWW-Authenticate" emauth_challenge (rw_header (resp w))) in
     mkWorld (mkResponseWriter h (Some (403, h)) (rw_body (resp w) ++ loginHtml w))
             (loginHtml w) (store w) (authst w) (calls w) (checks w) (stdout w)).
Proof.
  destruct w as [[h wr b] l st a c k o]; simpl; intros ->.
  reflexivity.
Qed.

(** Every handler starts with the token and the capability check. *)
Ltac start_handler Ht Hc :=
  unfold bind, lift, auth_CanRead, auth_CanWrite; rewrite Ht; simpl; rewrite Hc;
  reflexivity.

Lemma handleHead_denied r p w token e :
  extractToken r = Done (token, e) ->
  CanRead (auth s) token p (authst w) = false ->
  handleHead lib s r p w = sendLoginPage r (checked (CheckRead token p) w).
Proof. intros Ht Hc. unfold handleHead. start_handler Ht Hc. Qed.

Lemma serveItem_denied r p w token e :
  extractToken r = Done (token, e) ->
  CanRead (auth s) token p (authst w) = false ->
  serveItem lib s r p w = sendLoginPage r (checked (CheckRead token p) w).
Proof. intros Ht Hc. unfold serveItem. start_handler Ht Hc. Qed.

Lemma handlePut_denied r p w token e :
  extractToken r = Done (token, e) ->
  CanWrite (auth s) token p (authst w) = false ->
  handlePut s r p w = sendLoginPage r (checked (CheckWrite token p) w).
Proof. intros Ht Hc. unfold handlePut. start_handler Ht Hc. Qed.

Lemma handlePatch_denied r p w token e :
  extractToken r = Done (token, e) ->
  CanWrite (auth s) token p (authst w) = false ->
  handlePatch lib s r p w = sendLoginPage r (checked (CheckWrite token p) w).
Proof. intros Ht Hc. unfold handlePatch. start_handler Ht Hc. Qed.

Lemma handleDelete_denied r p w token e :
  extractToken r = Done (token, e) ->
  CanWrite (auth s) token p (authst w) = false ->
  handleDelete s r p w = sendLoginPage r (checked (CheckWrite token p) w).
Proof. intros Ht Hc. unfold handleDelete. start_handler Ht Hc. Qed.

(** ** The dispatch of [Run] *)

(** The method's handler of a direct-mode request, as the [switch] of
    [Run] selects it. *)
Lemma Run_handler_direct r w box html :
  rice_FindBox lib "files" = inl box ->
  Box_Bytes lib box "login.html" = (html, None) ->
  length (Strings.Split (request_path s r) "gemdrive/") <> 2%nat ->
  (Method r = "HEAD" ->
     Run_handler lib s r w = handleHead lib s r (request_path s r) (prepared lib s html r w))
  /\ (Method r = "GET" ->
     Run_handler lib s r w = serveItem lib s r (request_path s r) (prepared lib s html r w))
  /\ (Method r = "PUT" ->
     Run_handler lib s r w = handlePut s r (request_path s r) (prepared lib s html r w))
  /\ (Method r = "PATCH" ->
     Run_handler lib s r w = handlePatch lib s r (request_path s r) (prepared lib s html r w))
  /\ (Method r = "DELETE" ->
     Run_handler lib s r w = handleDelete s r (request_path s r) (prepared lib s html r w)).
Proof.
  intros Hbox Hbytes Hlen. apply Nat.eqb_neq in Hlen.
  repeat split; intros Hm; unfold Run_handler; rewrite Hbox, Hbytes, Hm;
    cbn; rewrite Hlen; unfold prepared; rewrite Hm; reflexivity.
Qed.

(** C1.  A direct-mode request whose capability check fails is answered
    with status 403, the login page as body and the [WWW-Authenticate]
    challenge, and no backend method is called for it. *)
Theorem denied_direct_request r w box html :
  rice_FindBox lib "files" = inl box ->
  Box_Bytes lib box "login.html" = (html, None) ->
  resp w = fresh ->
  length (Strings.Split (request_path s r) "gemdrive/") <> 2%nat ->
  denied s r (request_path s r) (authst w) ->
  returns (Run_handler lib s r) w /\
  status (response (Run_handler lib s r) w) = 403 /\
  rw_body (response (Run_handler lib s r) w) = html /\
  Header_Get (sent_header (response (Run_handler lib s r) w)) "WWW-Authenticate"
    = emauth_challenge /\
  calls_of (Run_handler lib s r) w = calls w /\
  store (snd (Run_handler lib s r w)) = store w.
Proof.
  intros Hbox Hbytes Hw Hlen (token & e & Ht & Hd).
  destruct (Run_handler_direct r w box html Hbox Hbytes Hlen)
    as (Hhead & Hget & Hput & Hpatch & Hdelete).
  assert (Hrun : exists c,
    Run_handler lib s r w = sendLoginPage r (checked c (prepared lib s html r w))).
  { destruct Hd as [[[Hm | Hm] Hc] | [[Hm | [Hm | Hm]] Hc]].
    - rewrite (Hhead Hm). eexists. by eapply handleHead_denied.
    - rewrite (Hget Hm). eexists. by eapply serveItem_denied.
    - rewrite (Hput Hm). eexists. by eapply handlePut_denied.
    - rewrite (Hpatch Hm). eexists. by eapply handlePatch_denied.
    - rewrite (Hdelete Hm). eexists. by eapply handleDelete_denied. }
  destruct Hrun as [c Hrun].
  unfold returns, response, calls_of. rewrite Hrun.
  rewrite sendLoginPage_run by (simpl; by rewrite Hw).
  simpl. rewrite Hw. simpl.
  do 3 (split; [reflexivity |]).
  split; [| split; reflexivity].
  unfold sent_header; simpl.
  rewrite Header_Get_Set_ne by (vm_compute; discriminate).
  apply Header_Get_Set.
Qed.

(** ** Token extraction *)

Lemma eqb_empty_false (str : string) : str <> "" -> String.eqb str "" = false.
Proof. intros H. by apply String.eqb_neq. Qed.

(** C9.  Token extraction is not total: with no token in the query and an
    [Authorization] header that is not empty and has no space, the split
    has one element and [extractToken] indexes it at 1, out of range. *)
Theorem extractToken_index_out_of_range r h :
  Values_Get (URL_Query r) "access_token" = "" ->
  Header_Get (Header r) "Authorization" = h ->
  h <> "" ->
  Strings.contains_byte " " h = false ->
  Strings.Split h " " = [h] /\
  extractToken r = Panic "runtime error: index out of range [1] with length 1".
Proof.
  intros Hq Hh Hne Hfree.
  assert (Hsplit : Strings.Split h " " = [h]) by by apply split_byte_free.
  split; [done |].
  unfold extractToken. rewrite Hq, Hh, Hsplit, (eqb_empty_false h Hne).
  reflexivity.
Qed.

Lemma append_empty_r (str : string) : str ++ "" = str.
Proof.
  induction str as [| c str IH]; [done |].
  change (String c (str ++ "") = String c str). by rewrite IH.
Qed.

Lemma split_second_field scheme t rest :
  Strings.contains_byte " " scheme = false ->
  Strings.contains_byte " " t = false ->
  rest = "" \/ (exists rest', rest = " " ++ rest') ->
  Strings.Split (scheme ++ " " ++ t ++ rest) " " !! 1%nat = Some t.
Proof.
  intros Hs Ht Hrest.
  change (scheme ++ " " ++ t ++ rest) with (scheme ++ String " " (t ++ rest)).
  rewrite split_byte_at by done. simpl.
  destruct Hrest as [-> | [rest' ->]].
  - rewrite append_empty_r.
    by rewrite split_byte_free.
  - change (t ++ " " ++ rest') with (t ++ String " " rest').
    by rewrite split_byte_at.
Qed.

(** ** Computations that make no capability check *)

Lemma keeps_ret {T} (t : T) : keeps_checks (ret (B := B) (A := A) t).
Proof. done. Qed.

Lemma keeps_lift {T} (x : Result T) : keeps_checks (lift (B := B) (A := A) x).
Proof. done. Qed.

Lemma keeps_bind {T U} (m : M B A T) (k : T -> M B A U) :
  keeps_checks m -> (forall t, keeps_checks (k t)) -> keeps_checks (bind m k).
Proof.
  intros Hm Hk w. unfold bind. specialize (Hm w).
  destruct (m w) as [[t | msg] w']; simpl in *; [| done].
  by rewrite Hk.
Qed.

Lemma keeps_with_resp f : keeps_checks (with_resp (B := B) (A := A) f).
Proof. done. Qed.

Lemma keeps_WriteHeader code : keeps_checks (WriteHeader (B := B) (A := A) code).
Proof.
  intros w. unfold WriteHeader.
  destruct (rw_wrote (resp w)); [done |].
  by destruct ((code <? 100) || (code >? 999)), (informational code).
Qed.

Lemma keeps_Write data : keeps_checks (Write_ (B := B) (A := A) data).
Proof.
  apply keeps_bind; [apply keeps_WriteHeader | intros _; apply keeps_with_resp].
Qed.

Lemma keeps_io_Copy data : keeps_checks (io_Copy (B := B) (A := A) data).
Proof.
  unfold io_Copy. destruct (String.eqb data ""); [apply keeps_ret | apply keeps_Write].
Qed.

Lemma keeps_call {T} c (f : B -> T * B) : keeps_checks (call (A := A) c f).
Proof. intros w. unfold call. by destruct (f (store w)). Qed.

Lemma keeps_with_auth {T} (f : A -> T * A) : keeps_checks (with_auth (B := B) f).
Proof. intros w. unfold with_auth. by destruct (f (authst w)). Qed.

Lemma keeps_get_loginHtml : keeps_checks (get_loginHtml (B := B) (A := A)).
Proof. done. Qed.

Hint Resolve keeps_ret keeps_lift keeps_with_resp keeps_WriteHeader keeps_Write
  keeps_io_Copy keeps_call keeps_with_auth keeps_get_loginHtml : keeps.

(** Breaks a handler into its primitive steps. *)
Ltac keeps :=
  repeat first
    [ progress eauto with keeps
    | apply keeps_bind; [| intros ?]
    | match goal with
      | |- keeps_checks (match ?x with _ => _ end) => destruct x
      | |- keeps_checks (let (_, _) := ?x in _) => destruct x
      end ].

Lemma keeps_sendLoginPage r : keeps_checks (sendLoginPage (B := B) (A := A) r).
Proof. unfold sendLoginPage, header_Set. keeps. Qed.

Lemma keeps_write_backend_error err :
  keeps_checks (write_backend_error (B := B) (A := A) err).
Proof. unfold write_backend_error. keeps. Qed.

Hint Resolve keeps_sendLoginPage keeps_write_backend_error : keeps.

Lemma keeps_serveDir r p : keeps_checks (serveDir s r p).
Proof. unfold serveDir, backend_Read. keeps. Qed.

Lemma keeps_serveFile r p : keeps_checks (serveFile lib s r p).
Proof. unfold serveFile, backend_Read, header_Set. keeps. Qed.

Lemma keeps_authorize r : keeps_checks (authorize lib s r).
Proof. unfold authorize, http_SetCookie. keeps. Qed.

Hint Resolve keeps_serveDir keeps_serveFile keeps_authorize : keeps.

Lemma checks_after {T} (m : M B A T) c w :
  keeps_checks m -> checks (snd (m (checked c w))) = (checks w ++ [c])%list.
Proof. intros Hm. by rewrite Hm. Qed.

(** Each handler makes one capability check, with the extracted token. *)
Lemma handleHead_checks r p w token e :
  extractToken r = Done (token, e) ->
  checks_of (handleHead lib s r p) w = (checks w ++ [CheckRead token p])%list.
Proof.
  intros Ht. unfold checks_of, handleHead, bind at 1, lift. rewrite Ht.
  unfold bind at 1, auth_CanRead. cbn beta iota.
  apply (checks_after _ (CheckRead token p) w).
  unfold backend_List, header_Set. keeps.
Qed.

Lemma serveItem_checks r p w token e :
  extractToken r = Done (token, e) ->
  checks_of (serveItem lib s r p) w = (checks w ++ [CheckRead token p])%list.
Proof.
  intros Ht. unfold checks_of, serveItem, bind at 1, lift. rewrite Ht.
  unfold bind at 1, auth_CanRead. cbn beta iota.
  apply (checks_after _ (CheckRead token p) w). keeps.
Qed.

Lemma handlePut_checks r p w token e :
  extractToken r = Done (token, e) ->
  checks_of (handlePut s r p) w = (checks w ++ [CheckWrite token p])%list.
Proof.
  intros Ht. unfold checks_of, handlePut, bind at 1, lift. rewrite Ht.
  unfold bind at 1, auth_CanWrite. cbn beta iota.
  apply (checks_after _ (CheckWrite token p) w).
  unfold backend_MakeDir, backend_Write. keeps.
Qed.

Lemma handlePatch_checks r p w token e :
  extractToken r = Done (token, e) ->
  checks_of (handlePatch lib s r p) w = (checks w ++ [CheckWrite token p])%list.
Proof.
  intros Ht. unfold checks_of, handlePatch, bind at 1, lift. rewrite Ht.
  unfold bind at 1, auth_CanWrite. cbn beta iota.
  apply (checks_after _ (CheckWrite token p) w).
  unfold backend_Write. keeps.
Qed.

Lemma handleDelete_checks r p w token e :
  extractToken r = Done (token, e) ->
  checks_of (handleDelete s r p) w = (checks w ++ [CheckWrite token p])%list.
Proof.
  intros Ht. unfold checks_of, handleDelete, bind at 1, lift. rewrite Ht.
  unfold bind at 1, auth_CanWrite. cbn beta iota.
  apply (checks_after _ (CheckWrite token p) w).
  unfold backend_Delete. keeps.
Qed.

(** The first steps of [handleGemDriveRequest] on a path that the marker
    splits in two, for an operation other than [authorize]. *)
Lemma handleGemDriveRequest_start r p w token e gemPath gemReq :
  extractToken r = Done (token, e) ->
  Strings.Split p "gemdrive/" = [gemPath; gemReq] ->
  gemReq <> "authorize" ->
  handleGemDriveRequest lib s r p w
    = (if CanRead (auth s) token gemPath (authst w)
       then meta_operation lib s r gemPath gemReq
       else sendLoginPage r) (checked (CheckRead token gemPath) w).
Proof.
  intros Ht Hsplit Hne.
  unfold handleGemDriveRequest, bind at 1, lift. rewrite Ht, Hsplit.
  unfold bind at 1. cbn [index lookup list_lookup].
  unfold bind at 1. cbn beta iota.
  apply String.eqb_neq in Hne. rewrite Hne.
  unfold bind at 1, auth_CanRead. cbn beta iota. cbn [fst].
  by destruct (CanRead (auth s) token gemPath (authst w)).
Qed.

Lemma keeps_meta_operation r gemPath gemReq :
  keeps_checks (meta_operation lib s r gemPath gemReq).
Proof. unfold meta_operation, backend_List, backend_GetImage. keeps. Qed.

Lemma handleGemDriveRequest_checks r p w token e gemPath gemReq :
  extractToken r = Done (token, e) ->
  Strings.Split p "gemdrive/" = [gemPath; gemReq] ->
  gemReq <> "authorize" ->
  checks_of (handleGemDriveRequest lib s r p) w
    = (checks w ++ [CheckRead token gemPath])%list.
Proof.
  intros Ht Hsplit Hne. unfold checks_of.
  rewrite (handleGemDriveRequest_start r p w token e gemPath gemReq) by done.
  apply checks_after.
  destruct (CanRead _ _ _ _); [apply keeps_meta_operation | apply keeps_sendLoginPage].
Qed.

(** C5 (amended).  Token extraction takes the first non-empty value among
    the [access_token] query parameter, the [Authorization] header and the
    [access_token] cookie, in that order; of the header it takes the text
    between the first and the second space character (the element at index
    1 of the header split at every space).  With all three absent the
    token is empty, and every handler still makes its [CanRead] or
    [CanWrite] check with the token extracted, the empty one included. *)
Theorem extractToken_priority r :
  let queryToken := Values_Get (URL_Query r) "access_token" in
  let authHeader := Header_Get (Header r) "Authorization" in
  let cookie := Request_Cookie (Cookies r) "access_token" in
  (queryToken <> "" -> extractToken r = Done (queryToken, None))
  /\ (forall scheme t rest,
        queryToken = "" -> authHeader <> "" ->
        authHeader = scheme ++ " " ++ t ++ rest ->
        Strings.contains_byte " " scheme = false ->
        Strings.contains_byte " " t = false ->
        rest = "" \/ (exists rest', rest = " " ++ rest') ->
        extractToken r = Done (t, None))
  /\ (forall value,
        queryToken = "" -> authHeader = "" -> cookie = Some value ->
        extractToken r = Done (value, None))
  /\ (queryToken = "" -> authHeader = "" -> cookie = None ->
      extractToken r = Done ("", Some (errors_New "No token found")))
  /\ (forall token e p w,
        extractToken r = Done (token, e) ->
        checks_of (handleHead lib s r p) w = (checks w ++ [CheckRead token p])%list
        /\ checks_of (serveItem lib s r p) w = (checks w ++ [CheckRead token p])%list
        /\ checks_of (handlePut s r p) w = (checks w ++ [CheckWrite token p])%list
        /\ checks_of (handlePatch lib s r p) w = (checks w ++ [CheckWrite token p])%list
        /\ checks_of (handleDelete s r p) w = (checks w ++ [CheckWrite token p])%list)
  /\ (forall token e p w gemPath gemReq,
        extractToken r = Done (token, e) ->
        Strings.Split p "gemdrive/" = [gemPath; gemReq] ->
        gemReq <> "authorize" ->
        checks_of (handleGemDriveRequest lib s r p) w
          = (checks w ++ [CheckRead token gemPath])%list).
Proof.
  intros queryToken authHeader cookie. subst queryToken authHeader cookie.
  repeat apply conj.
  - intros Hq. unfold extractToken. by rewrite (eqb_empty_false _ Hq).
  - intros scheme t rest Hq Hh Heq Hs Ht Hrest. unfold extractToken.
    rewrite Hq, (eqb_empty_false _ Hh), Heq. cbn [String.eqb negb].
    unfold index. by rewrite split_second_field.
  - intros value Hq Hh Hc. unfold extractToken. by rewrite Hq, Hh, Hc.
  - intros Hq Hh Hc. unfold extractToken. by rewrite Hq, Hh, Hc.
  - intros token e p w Ht.
    eauto 10 using handleHead_checks, serveItem_checks, handlePut_checks,
      handlePatch_checks, handleDelete_checks.
  - intros. by eapply handleGemDriveRequest_checks.
Qed.

(** ** Computations that change the response only *)

Lemma resp_only_ret {T} (t : T) : resp_only (ret (B := B) (A := A) t).
Proof. intros [rw l st a c k o]. by exists rw. Qed.

Lemma resp_only_bind {T U} (m : M B A T) (k : T -> M B A U) :
  resp_only m -> (forall t, resp_only (k t)) -> resp_only (bind m k).
Proof.
  intros Hm Hk w. unfold bind. destruct (Hm w) as [rw Hrw].
  destruct (m w) as [[t | msg] w']; simpl in *; subst w'; [| by eexists].
  destruct (Hk t (mkWorld rw (loginHtml w) (store w) (authst w) (calls w) (checks w)
                          (stdout w))) as [rw' ->]. by eexists.
Qed.

Lemma resp_only_with_resp f : resp_only (with_resp (B := B) (A := A) f).
Proof. intros w. by eexists. Qed.

Lemma resp_only_WriteHeader code : resp_only (WriteHeader (B := B) (A := A) code).
Proof.
  intros [rw l st a c k o]. unfold WriteHeader. simpl.
  destruct (rw_wrote rw); [by eexists |].
  destruct ((code <? 100) || (code >? 999)), (informational code); by eexists.
Qed.

Lemma resp_only_Write data : resp_only (Write_ (B := B) (A := A) data).
Proof.
  apply resp_only_bind; [apply resp_only_WriteHeader | intros _; apply resp_only_with_resp].
Qed.

Lemma resp_only_io_Copy data : resp_only (io_Copy (B := B) (A := A) data).
Proof.
  unfold io_Copy. destruct (String.eqb data ""); [apply resp_only_ret | apply resp_only_Write].
Qed.

Lemma resp_only_get_loginHtml : resp_only (get_loginHtml (B := B) (A := A)).
Proof. intros [rw l st a c k o]. by exists rw. Qed.

Hint Resolve resp_only_ret resp_only_with_resp resp_only_WriteHeader resp_only_Write
  resp_only_io_Copy resp_only_get_loginHtml : resp_only.

Ltac resp_only :=
  repeat first
    [ progress eauto with resp_only
    | apply resp_only_bind; [| intros ?]
    | match goal with
      | |- resp_only (match ?x with _ => _ end) => destruct x
      end ].

Lemma resp_only_write_backend_error err :
  resp_only (write_backend_error (B := B) (A := A) err).
Proof. unfold write_backend_error. resp_only. Qed.

Lemma resp_only_calls {T} (m : M B A T) w : resp_only m -> calls (snd (m w)) = calls w.
Proof. intros Hm. by destruct (Hm w) as [rw ->]. Qed.

Lemma resp_only_store {T} (m : M B A T) w : resp_only m -> store (snd (m w)) = store w.
Proof. intros Hm. by destruct (Hm w) as [rw ->]. Qed.

(** ** Backend calls *)

Lemma call_run {T} c (f : B -> T * B) w :
  call (A := A) c f w = (Done (fst (f (store w))), called c (snd (f (store w))) w).
Proof. unfold call, called. by destruct (f (store w)). Qed.

Lemma bind_call_run {T U} c (f : B -> T * B) (k : T -> M B A U) w :
  bind (call c f) k w = k (fst (f (store w))) (called c (snd (f (store w))) w).
Proof. unfold bind. by rewrite call_run. Qed.

(** A backend call followed by steps on the response only. *)
Lemma bind_call_calls {T} c (f : B -> T * B) (k : T -> M B A unit) w :
  (forall t, resp_only (k t)) ->
  calls (snd (bind (call c f) k w)) = (calls w ++ [c])%list.
Proof.
  intros Hk. unfold bind. rewrite call_run.
  by rewrite resp_only_calls.
Qed.

(** Status and body of [WriteHeader code ;;; Write_ text] on a writer whose
    header has not gone out, for a code that [WriteHeader] accepts. *)
Lemma error_reply_status code text w :
  rw_wrote (resp w) = None -> 100 <= code <= 999 ->
  (WriteHeader code ;;; Write_ text) w =
    (Done tt,
     mkWorld (mkResponseWriter (rw_header (resp w))
                               (Some (final_status code, rw_header (resp w)))
                               (final_body code (rw_body (resp w)) text))
             (loginHtml w) (store w) (authst w) (calls w) (checks w) (stdout w)).
Proof.
  destruct w as [[h wr b] l st a c k o]; simpl. intros -> Hcode.
  unfold final_body, final_status.
  unfold bind, WriteHeader, Write_, bind, WriteHeader, with_resp. simpl.
  replace ((code <? 100) || (code >? 999)) with false.
  - destruct (informational code); simpl; [done |].
    unfold status. simpl. by destruct (bodyAllowedForStatus code).
  - symmetry. apply orb_false_iff. rewrite Z.gtb_ltb.
    split; apply Z.ltb_ge; lia.
Qed.

(** The same for a code that is the status of the response and allows a
    body, as the codes are that the handlers write themselves. *)
Lemma error_reply_run code text w :
  rw_wrote (resp w) = None -> 100 <= code <= 999 ->
  informational code = false -> bodyAllowedForStatus code = true ->
  (WriteHeader code ;;; Write_ text) w =
    (Done tt,
     mkWorld (mkResponseWriter (rw_header (resp w)) (Some (code, rw_header (resp w)))
                               (rw_body (resp w) ++ text))
             (loginHtml w) (store w) (authst w) (calls w) (checks w) (stdout w)).
Proof.
  intros Hw Hcode Hinf Hbody. rewrite error_reply_status by done.
  unfold final_body, final_status. by rewrite Hinf, Hbody.
Qed.

(** ** PUT *)

Lemma handlePut_allowed r p w token e wb :
  extractToken r = Done (token, e) ->
  CanWrite (auth s) token p (authst w) = true ->
  asWritable (backend s) = Some wb ->
  handlePut s r p w =
    (if Strings.HasSuffix p "/" then
       let* err := backend_MakeDir wb p (String.eqb (Values_Get (URL_Query r) "recursive") "true") in
       match err with
       | Some e => WriteHeader 400 ;;; Write_ (Error_string e)
       | None => ret tt
       end
     else if ContentLength r <? 1 then WriteHeader 400 ;;; Write_ "Invalid write size"
     else
       let* err := backend_Write wb p (Body r) 0 (ContentLength r)
                     (String.eqb (Values_Get (URL_Query r) "overwrite") "true") true in
       match err with
       | Some e => WriteHeader 500 ;;; Write_ (Error_string e)
       | None => ret tt
       end) (checked (CheckWrite token p) w).
Proof.
  intros Ht Hc Hwb. unfold handlePut, bind at 1, lift. rewrite Ht.
  unfold bind at 1, auth_CanWrite. cbn beta iota. cbn [fst].
  rewrite Hc, Hwb. reflexivity.
Qed.

(** C7.  An authorized PUT on a writable backend: a path that ends in a
    slash calls [MakeDir] with [recursive] from the query flag; any other
    path calls [Write] with offset 0, the declared content length,
    [overwrite] from the query flag and [truncate = true], unless the
    declared content length is below 1, which is answered with 400 before
    any call of [Write]. *)
Theorem put_translation r p w token e wb :
  extractToken r = Done (token, e) ->
  CanWrite (auth s) token p (authst w) = true ->
  asWritable (backend s) = Some wb ->
  (Strings.HasSuffix p "/" = true ->
     calls_of (handlePut s r p) w
       = (calls w ++ [CallMakeDir p (String.eqb (Values_Get (URL_Query r) "recursive") "true")])%list)
  /\ (Strings.HasSuffix p "/" = false -> 1 <= ContentLength r ->
     calls_of (handlePut s r p) w
       = (calls w ++ [CallWrite p (Body r) 0 (ContentLength r)
                        (String.eqb (Values_Get (URL_Query r) "overwrite") "true") true])%list)
  /\ (Strings.HasSuffix p "/" = false -> ContentLength r < 1 ->
     rw_wrote (resp w) = None ->
     returns (handlePut s r p) w
     /\ status (response (handlePut s r p) w) = 400
     /\ rw_body (response (handlePut s r p) w) = rw_body (resp w) ++ "Invalid write size"
     /\ calls_of (handlePut s r p) w = calls w).
Proof.
  intros Ht Hc Hwb. unfold calls_of, returns, response.
  rewrite (handlePut_allowed r p w token e wb) by done.
  repeat apply conj.
  - intros ->. unfold backend_MakeDir. rewrite bind_call_calls; [done |].
    intros [err |]; resp_only.
  - intros -> Hlen. apply Z.ltb_ge in Hlen. rewrite Hlen.
    unfold backend_Write. rewrite bind_call_calls; [done |].
    intros [err |]; resp_only.
  - intros -> Hlen Hw. apply Z.ltb_lt in Hlen. rewrite Hlen.
    by rewrite error_reply_run.
Qed.

(** ** PATCH *)

Lemma Atoi_value str n : Strconv.parseInt str = inl n -> Atoi lib str = inl n.
Proof. intros H. unfold Atoi, strconv_parse. by rewrite H. Qed.

Lemma Atoi_error str err :
  Strconv.parseInt str = inr err -> exists e, Atoi lib str = inr e.
Proof. intros H. unfold Atoi, strconv_parse. rewrite H. by eexists. Qed.

Lemma handlePatch_allowed r p w token e wb :
  extractToken r = Done (token, e) ->
  CanWrite (auth s) token p (authst w) = true ->
  asWritable (backend s) = Some wb ->
  handlePatch lib s r p w =
    (match (if String.eqb (Values_Get (URL_Query r) "offset") "" then inl 0
            else Atoi lib (Values_Get (URL_Query r) "offset")) with
     | inr _ => WriteHeader 400 ;;; Write_ "Invalid offset"
     | inl offset =>
         match Atoi lib (Header_Get (Header r) "Content-Length") with
         | inr _ => WriteHeader 400 ;;; Write_ "Invalid content length"
         | inl size =>
             let* err := backend_Write wb p (Body r) offset size true false in
             match err with
             | Some e => WriteHeader 500 ;;; Write_ (Error_string e)
             | None => ret tt
             end
         end
     end) (checked (CheckWrite token p) w).
Proof.
  intros Ht Hc Hwb. unfold handlePatch, bind at 1, lift. rewrite Ht.
  unfold bind at 1, auth_CanWrite. cbn beta iota. cbn [fst].
  rewrite Hc, Hwb. reflexivity.
Qed.

(** C8 (amended).  An authorized PATCH on a writable backend: the offset
    is 0 when the [offset] query parameter is absent and the parameter's
    value when it is an integer, of either sign; a parameter that is not an
    integer is answered with 400, and so is a [Content-Length] header that
    is missing or not an integer; otherwise [Write] is called with that
    offset, the header's value as length, [overwrite = true] and
    [truncate = false]. *)
Theorem patch_translation r p w token e wb :
  extractToken r = Done (token, e) ->
  CanWrite (auth s) token p (authst w) = true ->
  asWritable (backend s) = Some wb ->
  let offsetParam := Values_Get (URL_Query r) "offset" in
  let lengthText := Header_Get (Header r) "Content-Length" in
  (forall offset size,
     offsetParam = "" /\ offset = 0
       \/ offsetParam <> "" /\ Strconv.parseInt offsetParam = inl offset ->
     Strconv.parseInt lengthText = inl size ->
     calls_of (handlePatch lib s r p) w
       = (calls w ++ [CallWrite p (Body r) offset size true false])%list)
  /\ (forall err,
     offsetParam <> "" -> Strconv.parseInt offsetParam = inr err ->
     rw_wrote (resp w) = None ->
     returns (handlePatch lib s r p) w
     /\ status (response (handlePatch lib s r p) w) = 400
     /\ rw_body (response (handlePatch lib s r p) w) = rw_body (resp w) ++ "Invalid offset"
     /\ calls_of (handlePatch lib s r p) w = calls w)
  /\ (forall offset err,
     offsetParam = "" /\ offset = 0
       \/ offsetParam <> "" /\ Strconv.parseInt offsetParam = inl offset ->
     Strconv.parseInt lengthText = inr err ->
     rw_wrote (resp w) = None ->
     returns (handlePatch lib s r p) w
     /\ status (response (handlePatch lib s r p) w) = 400
     /\ rw_body (response (handlePatch lib s r p) w)
          = rw_body (resp w) ++ "Invalid content length"
     /\ calls_of (handlePatch lib s r p) w = calls w).
Proof.
  intros Ht Hc Hwb offsetParam lengthText. subst offsetParam lengthText.
  unfold calls_of, returns, response.
  rewrite (handlePatch_allowed r p w token e wb) by done.
  assert (Hoff : forall offset,
    Values_Get (URL_Query r) "offset" = "" /\ offset = 0
      \/ Values_Get (URL_Query r) "offset" <> ""
         /\ Strconv.parseInt (Values_Get (URL_Query r) "offset") = inl offset ->
    (if String.eqb (Values_Get (URL_Query r) "offset") "" then inl 0
     else Atoi lib (Values_Get (URL_Query r) "offset")) = inl offset).
  { intros offset [[-> ->] | [Hne Hp]]; [done |].
    by rewrite (eqb_empty_false _ Hne), (Atoi_value _ _ Hp). }
  repeat apply conj.
  - intros offset size Ho Hs. rewrite (Hoff _ Ho), (Atoi_value _ _ Hs).
    unfold backend_Write. rewrite bind_call_calls; [done |].
    intros [err |]; resp_only.
  - intros err Hne Hp Hw. rewrite (eqb_empty_false _ Hne).
    destruct (Atoi_error _ _ Hp) as [e' ->].
    by rewrite error_reply_run.
  - intros offset err Ho Hs Hw. rewrite (Hoff _ Ho).
    destruct (Atoi_error _ _ Hs) as [e' ->].
    by rewrite error_reply_run.
Qed.

(** ** The meta-protocol *)

(** C6 (amended).  A [meta.json] request that passes the read check calls
    [List] with depth 1 when the [depth] parameter is absent and with the
    parameter's value when it is an integer, of either sign; a value that
    is not an integer is answered with 400 before any call of [List]. *)
Theorem meta_json_depth r p w token e gemPath :
  extractToken r = Done (token, e) ->
  Strings.Split p "gemdrive/" = [gemPath; "meta.json"] ->
  CanRead (auth s) token gemPath (authst w) = true ->
  let depthParam := Values_Get (URL_Query r) "depth" in
  (depthParam = "" ->
     calls_of (handleGemDriveRequest lib s r p) w = (calls w ++ [CallList gemPath 1])%list)
  /\ (forall depth,
     depthParam <> "" -> Strconv.parseInt depthParam = inl depth ->
     calls_of (handleGemDriveRequest lib s r p) w
       = (calls w ++ [CallList gemPath depth])%list)
  /\ (forall err,
     depthParam <> "" -> Strconv.parseInt depthParam = inr err ->
     rw_wrote (resp w) = None ->
     returns (handleGemDriveRequest lib s r p) w
     /\ status (response (handleGemDriveRequest lib s r p) w) = 400
     /\ rw_body (response (handleGemDriveRequest lib s r p) w)
          = rw_body (resp w) ++ "Invalid depth param"
     /\ calls_of (handleGemDriveRequest lib s r p) w = calls w).
Proof.
  intros Ht Hsplit Hc depthParam. subst depthParam.
  unfold calls_of, returns, response.
  rewrite (handleGemDriveRequest_start r p w token e gemPath "meta.json") by done.
  rewrite Hc. unfold meta_operation. cbn [String.eqb Ascii.eqb Bool.eqb].
  assert (Hlist : forall depth,
    calls (snd ((let* res := backend_List s gemPath depth in
                 match res with
                 | inr err => write_backend_error err
                 | inl item =>
                     match json_Marshal lib item with
                     | (_, Some err) => WriteHeader 500 ;;; Write_ (Error_string err)
                     | (jsonBody, None) => Write_ jsonBody
                     end
                 end) (checked (CheckRead token gemPath) w)))
    = (calls w ++ [CallList gemPath depth])%list).
  { intros depth. unfold backend_List. rewrite bind_call_calls; [done |].
    intros [item | err]; [| apply resp_only_write_backend_error].
    destruct (json_Marshal lib item) as [body [err |]]; resp_only. }
  repeat apply conj.
  - intros ->. apply Hlist.
  - intros depth Hne Hp. rewrite (eqb_empty_false _ Hne), (Atoi_value _ _ Hp).
    apply Hlist.
  - intros err Hne Hp Hw. rewrite (eqb_empty_false _ Hne). cbn [negb].
    destruct (Atoi_error _ _ Hp) as [e' ->].
    by rewrite error_reply_run.
Qed.

Lemma Run_handler_meta r w box html :
  rice_FindBox lib "files" = inl box ->
  Box_Bytes lib box "login.html" = (html, None) ->
  Method r <> "OPTIONS" ->
  length (Strings.Split (request_path s r) "gemdrive/") = 2%nat ->
  Run_handler lib s r w
    = handleGemDriveRequest lib s r (request_path s r) (prepared lib s html r w).
Proof.
  intros Hbox Hbytes Hm Hlen. apply String.eqb_neq in Hm.
  unfold Run_handler. rewrite Hbox, Hbytes, Hm. cbn. by rewrite Hlen.
Qed.

Lemma meta_operation_unmatched r w gemPath gemReq :
  gemReq <> "meta.json" ->
  head (Strings.Split gemReq "/") <> Some "images" \/ asImageServer (backend s) = None ->
  meta_operation lib s r gemPath gemReq w = (Done tt, w).
Proof.
  intros Hne%String.eqb_neq Hcase. unfold meta_operation. rewrite Hne.
  pose proof (split_scan_nonempty "/" 0 gemReq) as Hnil.
  change (Strings.split_scan "/" 0 gemReq) with (Strings.Split gemReq "/") in Hnil.
  destruct (Strings.Split gemReq "/") as [| first parts]; [done |].
  unfold bind, lift. cbn [index lookup list_lookup].
  destruct (String.eqb first "images") eqn:Hfirst; [| done].
  apply String.eqb_eq in Hfirst as ->.
  destruct Hcase as [Hhead | ->]; done.
Qed.

(** C10.  A meta-protocol request that passes the read check, whose
    operation is neither [meta.json] nor [authorize] and either does not
    start with the part [images] or meets a backend that is no
    [ImageServer]: the handler returns without a call of [WriteHeader] and
    without writing a byte, so the client receives status 200 and an empty
    body; no backend method is called. *)
Theorem unmatched_meta_request r w box html token e gemPath gemReq :
  rice_FindBox lib "files" = inl box ->
  Box_Bytes lib box "login.html" = (html, None) ->
  Method r <> "OPTIONS" ->
  resp w = fresh ->
  Strings.Split (request_path s r) "gemdrive/" = [gemPath; gemReq] ->
  extractToken r = Done (token, e) ->
  CanRead (auth s) token gemPath (authst w) = true ->
  gemReq <> "meta.json" ->
  gemReq <> "authorize" ->
  head (Strings.Split gemReq "/") <> Some "images" \/ asImageServer (backend s) = None ->
  returns (Run_handler lib s r) w
  /\ rw_wrote (response (Run_handler lib s r) w) = None
  /\ rw_body (response (Run_handler lib s r) w) = ""
  /\ status (response (Run_handler lib s r) w) = 200
  /\ calls_of (Run_handler lib s r) w = calls w.
Proof.
  intros Hbox Hbytes Hm Hw Hsplit Ht Hc Hmeta Hauth Hcase.
  unfold returns, response, calls_of.
  rewrite (Run_handler_meta r w box html) by (try done; by rewrite Hsplit).
  rewrite (handleGemDriveRequest_start r _ _ token e gemPath gemReq) by done.
  cbn [prepared authst]. rewrite Hc.
  rewrite meta_operation_unmatched by done.
  unfold status. simpl. by rewrite Hw.
Qed.

(** ** Backend errors *)

Lemma handleDelete_allowed r p w token e wb :
  extractToken r = Done (token, e) ->
  CanWrite (auth s) token p (authst w) = true ->
  asWritable (backend s) = Some wb ->
  handleDelete s r p w =
    (let* err := backend_Delete wb p
                   (String.eqb (Values_Get (URL_Query r) "recursive") "true") in
     match err with
     | Some e => WriteHeader 500 ;;; Write_ (Error_string e)
     | None => ret tt
     end) (checked (CheckWrite token p) w).
Proof.
  intros Ht Hc Hwb. unfold handleDelete, bind at 1, lift. rewrite Ht.
  unfold bind at 1, auth_CanWrite. cbn beta iota. cbn [fst].
  rewrite Hc, Hwb. reflexivity.
Qed.

(** What [handleDelete] answers when [Delete] fails: 500 and [err.Error()],
    whatever the error is. *)
Lemma handleDelete_error r p w token e wb err st :
  extractToken r = Done (token, e) ->
  CanWrite (auth s) token p (authst w) = true ->
  asWritable (backend s) = Some wb ->
  Delete wb p (String.eqb (Values_Get (URL_Query r) "recursive") "true") (store w)
    = (Some err, st) ->
  rw_wrote (resp w) = None ->
  status (response (handleDelete s r p) w) = 500
  /\ rw_body (response (handleDelete s r p) w) = rw_body (resp w) ++ Error_string err.
Proof.
  intros Ht Hc Hwb Hdel Hw. unfold response.
  rewrite (handleDelete_allowed r p w token e wb) by done.
  unfold backend_Delete. rewrite bind_call_run.
  cbn [checked store]. rewrite Hdel. cbn [fst snd].
  by rewrite error_reply_run.
Qed.

(** What the handlers of [List] and [Read] answer on a structured error:
    its code and its message. *)
Lemma write_backend_error_structured err e w :
  as_Error err = Some e -> rw_wrote (resp w) = None -> 100 <= HttpCode e <= 999 ->
  status (resp (snd (write_backend_error err w))) = final_status (HttpCode e)
  /\ rw_body (resp (snd (write_backend_error err w)))
       = final_body (HttpCode e) (rw_body (resp w)) (Message e).
Proof.
  intros He Hw Hcode. unfold write_backend_error. rewrite He.
  by rewrite error_reply_status.
Qed.

(** ** Integers of [strconv] *)

Lemma digit_range c d : Strconv.digit c = Some d -> 0 <= d <= 9.
Proof.
  unfold Strconv.digit.
  destruct ((48 <=? Z.of_nat (nat_of_ascii c)) && (Z.of_nat (nat_of_ascii c) <=? 57))
    eqn:Hc; [| done].
  apply andb_true_iff in Hc as [?%Z.leb_le ?%Z.leb_le]. intros [= <-]. lia.
Qed.

Lemma parseUint_loop_nonneg str n u :
  0 <= n -> Strconv.parseUint_loop n str = inl u -> 0 <= u.
Proof.
  revert n. induction str as [| c str IH]; intros n Hn; simpl.
  - by intros [= <-].
  - destruct (Strconv.digit c) as [d |] eqn:Hd; [| done].
    apply digit_range in Hd.
    destruct (n >=? Strconv.maxUint64 / 10 + 1); [done |].
    destruct (10 * n + d >? Strconv.maxUint64); [done |].
    apply IH. lia.
Qed.

(** A text without a minus sign denotes no negative number. *)
Lemma parseInt_nonneg str n :
  Strings.contains_byte "-" str = false ->
  Strconv.parseInt str = inl n -> 0 <= n <= MAX_INT64.
Proof.
  destruct str as [| c str]; [done |]. simpl.
  intros [Hc _]%orb_false_elim. rewrite Hc.
  set (body := if (Ascii.eqb c "+") || false then str else String c str).
  destruct (Strconv.ParseUint body) as [u | []] eqn:Hu; [| done |].
  - cbn [negb andb]. destruct (u >=? 2 ^ 63) eqn:Hcut; [done |]. intros [= <-].
    split.
    + unfold Strconv.ParseUint in Hu. destruct body; [done |].
      by eapply parseUint_loop_nonneg.
    + unfold MAX_INT64. lia.
  - intros H. vm_compute in H. done.
Qed.



(** ** [parseRange] *)

Lemma contains_byte_app c a b :
  Strings.contains_byte c (a ++ b)
    = Strings.contains_byte c a || Strings.contains_byte c b.
Proof.
  induction a as [| d a IH]; [done |].
  change (String d a ++ b) with (String d (a ++ b)). simpl.
  by rewrite IH, orb_assoc.
Qed.

Lemma ParseInt_bound text dflt :
  (if negb (String.eqb text "") then ParseInt lib text else inl dflt)
    = match range_bound text dflt with
      | Some n => inl n
      | None => inr (errors_New (NumError_Error (strconv_Quote lib) "ParseInt" text
                       match Strconv.parseInt text with
                       | inr e => e
                       | inl _ => Strconv.ErrSyntax
                       end))
      end.
Proof.
  unfold range_bound, ParseInt, strconv_parse.
  destruct (String.eqb text ""); [done |]. simpl.
  by destruct (Strconv.parseInt text).
Qed.

Lemma parseRange_grammar h rg :
  parseRange lib h = inl rg <-> range_grammar h (Start rg) (End rg).
Proof.
  unfold parseRange, range_grammar. split.
  - destruct (length (Strings.Split h "=") =? 2)%nat eqn:Hlen; [| done].
    apply Nat.eqb_eq, split_byte_length_two in Hlen as (unit & b & Hsplit).
    rewrite Hsplit. cbn [negb nth].
    apply split_byte_two in Hsplit as (-> & Hunit & Hb).
    destruct (length (Strings.Split b "-") =? 2)%nat eqn:Hlen; [| done].
    apply Nat.eqb_eq, split_byte_length_two in Hlen as (first & last & Hsplit).
    rewrite Hsplit. cbn [negb nth].
    apply split_byte_two in Hsplit as (-> & Hfirst & Hlast).
    change (first ++ String "-" last) with (first ++ "-" ++ last) in Hb.
    rewrite !contains_byte_app in Hb.
    apply orb_false_elim in Hb as [Hb1 [_ Hb2]%orb_false_elim].
    rewrite !ParseInt_bound.
    destruct (range_bound first 0) as [start |] eqn:Hstart; [| done].
    destruct (range_bound last MAX_INT64) as [end_ |] eqn:Hend; [| done].
    intros [= <-]. by exists unit, first, last.
  - intros (unit & first & last & -> & Hunit & Hf1 & Hl1 & Hf2 & Hl2 & Hstart & Hend).
    assert (Hsplit : Strings.Split (unit ++ "=" ++ first ++ "-" ++ last) "="
                     = [unit; first ++ "-" ++ last]).
    { apply split_byte_two. split; [done |]. split; [done |].
      rewrite !contains_byte_app, Hf1, Hl1. done. }
    rewrite Hsplit. cbn [length Nat.eqb negb nth].
    assert (Hsplit2 : Strings.Split (first ++ "-" ++ last) "-" = [first; last]).
    { by apply split_byte_two. }
    rewrite Hsplit2. cbn [length Nat.eqb negb nth].
    rewrite !ParseInt_bound, Hstart, Hend. by destruct rg.
Qed.

Lemma parseRange_bounds h rg :
  parseRange lib h = inl rg ->
  0 <= Start rg <= MAX_INT64 /\ 0 <= End rg <= MAX_INT64.
Proof.
  intros (unit & first & last & _ & _ & _ & _ & Hf & Hl & Hstart & Hend)%parseRange_grammar.
  unfold range_bound in *. split.
  - destruct (String.eqb first ""); [injection Hstart as <-; unfold MAX_INT64; lia |].
    destruct (Strconv.parseInt first) eqn:Hp; [| done].
    injection Hstart as <-. exact (parseInt_nonneg first _ Hf Hp).
  - destruct (String.eqb last ""); [injection Hend as <-; unfold MAX_INT64; lia |].
    destruct (Strconv.parseInt last) eqn:Hp; [| done].
    injection Hend as <-. exact (parseInt_nonneg last _ Hl Hp).
Qed.

(** ** GET of a file *)


Lemma io_Copy_first data w :
  rw_wrote (resp w) = None ->
  fst (io_Copy data w) = Done tt
  /\ status (resp (snd (io_Copy data w))) = 200
  /\ sent_header (resp (snd (io_Copy data w))) = rw_header (resp w)
  /\ rw_body (resp (snd (io_Copy data w))) = rw_body (resp w) ++ data
  /\ calls (snd (io_Copy data w)) = calls w.
Proof.
  destruct w as [[h wr b] l st a c k o]; simpl. intros ->.
  unfold io_Copy. destruct (String.eqb data "") eqn:Hd.
  - apply String.eqb_eq in Hd as ->. by rewrite append_empty_r.
  - done.
Qed.

Lemma serveFile_malformed r p w err :
  Header_Get (Header r) "Range" <> "" ->
  parseRange lib (Header_Get (Header r) "Range") = inr err ->
  serveFile lib s r p w = (WriteHeader 500 ;;; Write_ (Error_string err)) (serving r w).
Proof.
  intros Hne Hp. unfold serveFile, serving, file_header.
  rewrite (eqb_empty_false _ Hne), Hp. cbn [negb].
  by destruct (String.eqb (Values_Get (URL_Query r) "download") "true").
Qed.

Lemma serveFile_ranged r p w rg :
  Header_Get (Header r) "Range" <> "" ->
  parseRange lib (Header_Get (Header r) "Range") = inl rg ->
  serveFile lib s r p w =
    (let* res := backend_Read s p (Start rg)
                   (if negb (End rg =? MAX_INT64)
                    then wrap64 (wrap64 (End rg - Start rg) + 1) else 0) in
     match res with
     | inr err => write_backend_error err
     | inl (item, data) =>
         let end_ := if End rg =? MAX_INT64 then wrap64 (Size item - 1) else End rg in
         let l := wrap64 (wrap64 (end_ - Start rg) + 1) in
         header_Set "Content-Range"
           ("bytes " ++ fmt_d (Start rg) ++ "-" ++ fmt_d end_ ++ "/" ++ fmt_d (Size item)) ;;;
         header_Set "Content-Length" (fmt_d l) ;;;
         WriteHeader 206 ;;;
         io_Copy data
     end) (serving r w).
Proof.
  intros Hne Hp. unfold serveFile, serving, file_header.
  rewrite (eqb_empty_false _ Hne), Hp. cbn [negb].
  by destruct (String.eqb (Values_Get (URL_Query r) "download") "true").
Qed.

Lemma serveFile_whole r p w :
  Header_Get (Header r) "Range" = "" ->
  serveFile lib s r p w =
    (let* res := backend_Read s p 0 0 in
     match res with
     | inr err => write_backend_error err
     | inl (item, data) =>
         header_Set "Content-Length" (fmt_d (Size item)) ;;; io_Copy data
     end) (serving r w).
Proof.
  intros Hh. unfold serveFile, serving, file_header. rewrite Hh. cbn [String.eqb negb].
  by destruct (String.eqb (Values_Get (URL_Query r) "download") "true").
Qed.


Lemma whole_reply_run k1 v1 data w :
  rw_wrote (resp w) = None ->
  fst ((header_Set k1 v1 ;;; io_Copy data) w) = Done tt
  /\ status (resp (snd ((header_Set k1 v1 ;;; io_Copy data) w))) = 200
  /\ sent_header (resp (snd ((header_Set k1 v1 ;;; io_Copy data) w)))
       = Header_Set k1 v1 (rw_header (resp w))
  /\ rw_body (resp (snd ((header_Set k1 v1 ;;; io_Copy data) w))) = rw_body (resp w) ++ data
  /\ calls (snd ((header_Set k1 v1 ;;; io_Copy data) w)) = calls w.
Proof.
  intros Hw.
  assert (Heq : (header_Set k1 v1 ;;; io_Copy data) w
                = io_Copy data
                    (mkWorld (mkResponseWriter (Header_Set k1 v1 (rw_header (resp w)))
                                               (rw_wrote (resp w)) (rw_body (resp w)))
                             (loginHtml w) (store w) (authst w) (calls w) (checks w)
                             (stdout w))) by reflexivity.
  rewrite Heq. clear Heq.
  match goal with
  | |- context [io_Copy data ?w'] => exact (io_Copy_first data w' Hw)
  end.
Qed.

Lemma serveItem_allowed r p w token e :
  extractToken r = Done (token, e) ->
  CanRead (auth s) token p (authst w) = true ->
  serveItem lib s r p w =
    (if Strings.HasSuffix p "/" then serveDir s r p else serveFile lib s r p)
      (checked (CheckRead token p) w).
Proof.
  intros Ht Hc. unfold serveItem, bind at 1, lift. rewrite Ht.
  unfold bind at 1, auth_CanRead. cbn beta iota. cbn [fst]. by rewrite Hc.
Qed.

Lemma no_grammar_error h :
  (forall start end_, ~ range_grammar h start end_) ->
  exists err, parseRange lib h = inr err.
Proof.
  intros Hno. destruct (parseRange lib h) as [rg | err] eqn:Hp; [| by eexists].
  apply parseRange_grammar in Hp. by destruct (Hno _ _ Hp).
Qed.

Lemma empty_not_of_grammar start end_ : ~ range_grammar "" start end_.
Proof.
  intros (unit & first & last & Heq & _).
  destruct unit; cbv [String.append] in Heq; discriminate.
Qed.

(** C4 (amended).  [parseRange] accepts exactly the headers of the grammar:
    one pair [first-last] after a single [=], either bound optional, an
    omitted start being 0 and an omitted end [MAX_INT64], the mark of "to
    the end of the file".  A GET of a file whose [Range] header has a value
    that is not empty and is not of this grammar is answered with status
    500, and [Read] is not called.  A [Range] header whose value is empty
    is not of the grammar either, but it is taken for no header at all:
    [parseRange] is not called, the whole file is read and the status is
    200. *)
Theorem malformed_range_is_500 :
  (forall h rg, parseRange lib h = inl rg <-> range_grammar h (Start rg) (End rg))
  /\ (forall r p w,
        Header_Get (Header r) "Range" <> "" ->
        (forall start end_, ~ range_grammar (Header_Get (Header r) "Range") start end_) ->
        rw_wrote (resp w) = None ->
        returns (serveFile lib s r p) w
        /\ status (response (serveFile lib s r p) w) = 500
        /\ calls_of (serveFile lib s r p) w = calls w)
  /\ (forall r w box html token e,
        rice_FindBox lib "files" = inl box ->
        Box_Bytes lib box "login.html" = (html, None) ->
        resp w = fresh ->
        Method r = "GET" ->
        length (Strings.Split (request_path s r) "gemdrive/") <> 2%nat ->
        extractToken r = Done (token, e) ->
        CanRead (auth s) token (request_path s r) (authst w) = true ->
        Strings.HasSuffix (request_path s r) "/" = false ->
        Header_Get (Header r) "Range" <> "" ->
        (forall start end_, ~ range_grammar (Header_Get (Header r) "Range") start end_) ->
        returns (Run_handler lib s r) w
        /\ status (response (Run_handler lib s r) w) = 500
        /\ calls_of (Run_handler lib s r) w = calls w)
  /\ (forall r p w item data st,
        Header_Get (Header r) "Range" = "" ->
        rw_wrote (resp w) = None ->
        Read (backend s) p 0 0 (store w) = (inl (item, data), st) ->
        (forall start end_, ~ range_grammar (Header_Get (Header r) "Range") start end_)
        /\ returns (serveFile lib s r p) w
        /\ status (response (serveFile lib s r p) w) = 200
        /\ rw_body (response (serveFile lib s r p) w) = rw_body (resp w) ++ data
        /\ calls_of (serveFile lib s r p) w = (calls w ++ [CallRead p 0 0])%list).
Proof.
  assert (Hfile : forall r p w,
    Header_Get (Header r) "Range" <> "" ->
    (forall start end_, ~ range_grammar (Header_Get (Header r) "Range") start end_) ->
    rw_wrote (resp w) = None ->
    returns (serveFile lib s r p) w
    /\ status (response (serveFile lib s r p) w) = 500
    /\ calls_of (serveFile lib s r p) w = calls w).
  { intros r p w Hne Hno Hw. destruct (no_grammar_error _ Hno) as [err Hp].
    unfold returns, response, calls_of. rewrite (serveFile_malformed r p w err) by done.
    by rewrite error_reply_run. }
  split; [apply parseRange_grammar |]. split; [exact Hfile |]. split.
  - intros r w box html token e Hbox Hbytes Hw Hm Hlen Ht Hc Hdir Hne Hno.
    destruct (Run_handler_direct r w box html Hbox Hbytes Hlen) as (_ & Hget & _).
    unfold returns, response, calls_of. rewrite (Hget Hm).
    rewrite (serveItem_allowed r _ _ token e) by done. rewrite Hdir.
    refine (Hfile r _ (checked (CheckRead token (request_path s r))
                               (prepared lib s html r w)) Hne Hno _).
    simpl. by rewrite Hw.
  - intros r p w item data st Hh Hw Hread.
    split; [rewrite Hh; intros start end_; apply empty_not_of_grammar |].
    unfold returns, response, calls_of.
    rewrite (serveFile_whole r p w Hh). unfold backend_Read. rewrite bind_call_run.
    cbn [serving store]. rewrite Hread. cbn [fst snd].
    destruct (whole_reply_run "Content-Length" (fmt_d (Size item)) data
                (called (CallRead p 0 0) st (serving r w)) Hw)
      as (Hret & Hstatus & _ & Hbody & Hcalls).
    by rewrite Hret, Hstatus, Hbody, Hcalls.
Qed.


(** * Further properties of the handlers *)

(** ** Silent computations *)

Create HintDb silent.

Lemma silent_ret {T} (t : T) : silent (ret (B := B) (A := A) t).
Proof. done. Qed.

Lemma silent_lift {T} (x : Result T) : silent (lift (B := B) (A := A) x).
Proof. done. Qed.

Lemma silent_bind {T U} (m : M B A T) (k : T -> M B A U) :
  silent m -> (forall t, silent (k t)) -> silent (bind m k).
Proof.
  intros Hm Hk w. unfold bind. destruct (Hm w) as [Hc Hk'].
  destruct (m w) as [[t | msg] w']; simpl in *; [| done].
  destruct (Hk t w') as [-> ->]. done.
Qed.

Lemma silent_resp_only {T} (m : M B A T) : resp_only m -> silent m.
Proof. intros Hm w. by destruct (Hm w) as [rw ->]. Qed.

Lemma silent_with_auth {T} (f : A -> T * A) : silent (with_auth (B := B) f).
Proof. intros w. unfold with_auth. by destruct (f (authst w)). Qed.

Lemma silent_WriteHeader code : silent (WriteHeader (B := B) (A := A) code).
Proof. apply silent_resp_only, resp_only_WriteHeader. Qed.

Lemma silent_Write data : silent (Write_ (B := B) (A := A) data).
Proof. apply silent_resp_only, resp_only_Write. Qed.

Lemma silent_io_Copy data : silent (io_Copy (B := B) (A := A) data).
Proof. apply silent_resp_only, resp_only_io_Copy. Qed.

Lemma silent_with_resp f : silent (with_resp (B := B) (A := A) f).
Proof. done. Qed.

Lemma silent_get_loginHtml : silent (get_loginHtml (B := B) (A := A)).
Proof. done. Qed.

Lemma silent_set_loginHtml html : silent (set_loginHtml (B := B) (A := A) html).
Proof. done. Qed.

Lemma silent_Println line : silent (Println (B := B) (A := A) line).
Proof. done. Qed.

Hint Resolve silent_ret silent_lift silent_with_auth silent_WriteHeader silent_Write
  silent_io_Copy silent_with_resp silent_get_loginHtml silent_set_loginHtml
  silent_Println : silent.

Ltac silent :=
  repeat first
    [ progress eauto with silent
    | apply silent_bind; [| intros ?]
    | match goal with
      | |- silent (match ?x with _ => _ end) => destruct x
      end ].

Lemma silent_sendLoginPage r : silent (sendLoginPage (B := B) (A := A) r).
Proof. unfold sendLoginPage, header_Set. silent. Qed.

Lemma silent_write_backend_error err : silent (write_backend_error (B := B) (A := A) err).
Proof. unfold write_backend_error. silent. Qed.

Lemma silent_authorize r : silent (authorize lib s r).
Proof. unfold authorize, http_SetCookie. silent. Qed.

Hint Resolve silent_sendLoginPage silent_write_backend_error silent_authorize : silent.

(** ** At most one call, after the check *)

Lemma one_call_silent {T} P (m : M B A T) : silent m -> one_call P m.
Proof.
  intros Hm w. destruct (Hm w) as [Hc Hk]. exists [].
  rewrite app_nil_r. repeat split; [done | done | simpl; lia | constructor].
Qed.

Lemma one_call_bind {T U} P (m : M B A T) (k : T -> M B A U) :
  silent m -> (forall t, one_call P (k t)) -> one_call P (bind m k).
Proof.
  intros Hm Hk w. unfold bind. destruct (Hm w) as [Hc Hk'].
  destruct (m w) as [[t | msg] w']; simpl in *.
  - destruct (Hk t w') as (cs & Hcs & Hks & Hlen & HP). exists cs.
    by rewrite Hcs, Hks, Hc, Hk'.
  - exists []. rewrite app_nil_r. repeat split; [done | done | simpl; lia | constructor].
Qed.

Lemma one_call_call {T} (P : BackendCall -> Prop) c (f : B -> T * B)
    (k : T -> M B A unit) :
  P c -> (forall t, silent (k t)) -> one_call P (bind (call c f) k).
Proof.
  intros Hc Hk w. rewrite bind_call_run.
  destruct (Hk (fst (f (store w))) (called c (snd (f (store w))) w)) as [-> ->].
  exists [c]. simpl. repeat split; [lia | by constructor].
Qed.

Ltac one_call :=
  repeat first
    [ apply one_call_call; [done | intros ?; silent]
    | apply one_call_silent; solve [silent]
    | apply one_call_bind; [solve [silent] | intros ?]
    | match goal with
      | |- one_call _ (match ?x with _ => _ end) => destruct x
      end ].

Lemma covered P (h : M B A unit) r c (b : bool) (rest : M B A unit) w :
  h w = (if negb b then sendLoginPage r else rest) (checked c w) ->
  one_call P rest ->
  exists cs,
    calls (snd (h w)) = (calls w ++ cs)%list
    /\ checks (snd (h w)) = (checks w ++ [c])%list
    /\ (length cs <= 1)%nat /\ (b = false -> cs = []) /\ Forall P cs.
Proof.
  intros -> Hrest. destruct b; cbn [negb].
  - destruct (Hrest (checked c w)) as (cs & Hcs & Hks & Hlen & HP).
    exists cs. by rewrite Hcs, Hks.
  - destruct (silent_sendLoginPage r (checked c w)) as [-> ->].
    exists []. simpl. rewrite app_nil_r.
    repeat split; [lia | constructor].
Qed.

(** A handler that has checked [CanRead] and then calls no mutating
    method. *)
Lemma disciplined_read (h : M B A unit) r w token path (rest : M B A unit) :
  h w = (if negb (CanRead (auth s) token path (authst w)) then sendLoginPage r else rest)
          (checked (CheckRead token path) w) ->
  one_call (fun c => is_mutating c = false) rest ->
  exists cs ks,
    calls (snd (h w)) = (calls w ++ cs)%list
    /\ checks (snd (h w)) = (checks w ++ ks)%list
    /\ (length cs <= 1)%nat /\ (length ks <= 1)%nat
    /\ authorized_by s (authst w) ks cs.
Proof.
  intros Heq Hrest.
  destruct (covered _ h r _ _ rest w Heq Hrest) as (cs & Hcs & Hks & Hlen & Hfalse & HP).
  exists cs, [CheckRead token path]. repeat split; [done | done | done | simpl; lia |].
  destruct (CanRead (auth s) token path (authst w)) eqn:Hc.
  - right. exists token, path. left. done.
  - left. by apply Hfalse.
Qed.

(** A handler that has checked [CanWrite]. *)
Lemma disciplined_write (h : M B A unit) r w token path (rest : M B A unit) :
  h w = (if negb (CanWrite (auth s) token path (authst w)) then sendLoginPage r else rest)
          (checked (CheckWrite token path) w) ->
  one_call (fun _ => True) rest ->
  exists cs ks,
    calls (snd (h w)) = (calls w ++ cs)%list
    /\ checks (snd (h w)) = (checks w ++ ks)%list
    /\ (length cs <= 1)%nat /\ (length ks <= 1)%nat
    /\ authorized_by s (authst w) ks cs.
Proof.
  intros Heq Hrest.
  destruct (covered _ h r _ _ rest w Heq Hrest) as (cs & Hcs & Hks & Hlen & Hfalse & HP).
  exists cs, [CheckWrite token path]. repeat split; [done | done | done | simpl; lia |].
  destruct (CanWrite (auth s) token path (authst w)) eqn:Hc.
  - right. exists token, path. right. done.
  - left. by apply Hfalse.
Qed.

Lemma disciplined_unchanged (h : M B A unit) w x :
  h w = (x, w) ->
  exists cs ks,
    calls (snd (h w)) = (calls w ++ cs)%list
    /\ checks (snd (h w)) = (checks w ++ ks)%list
    /\ (length cs <= 1)%nat /\ (length ks <= 1)%nat
    /\ authorized_by s (authst w) ks cs.
Proof.
  intros ->. exists [], []. rewrite !app_nil_r. simpl.
  repeat split; [lia | lia | by left].
Qed.

Lemma disciplined_silent (m : M B A unit) : silent m -> disciplined s m.
Proof.
  intros Hm w. destruct (Hm w) as [-> ->]. exists [], []. rewrite !app_nil_r. simpl.
  repeat split; [lia | lia | by left].
Qed.

Lemma disciplined_handleHead r p : disciplined s (handleHead lib s r p).
Proof.
  intros w. destruct (extractToken r) as [[token e] | msg] eqn:Ht.
  - eapply (disciplined_read _ r w token p).
    + unfold handleHead, bind at 1, lift. rewrite Ht.
      unfold bind at 1, auth_CanRead. cbn beta iota. cbn [fst]. reflexivity.
    + unfold backend_List, header_Set. one_call.
  - apply (disciplined_unchanged _ w (Panic msg)).
    unfold handleHead, bind, lift. by rewrite Ht.
Qed.

Lemma disciplined_serveItem r p : disciplined s (serveItem lib s r p).
Proof.
  intros w. destruct (extractToken r) as [[token e] | msg] eqn:Ht.
  - eapply (disciplined_read _ r w token p).
    + unfold serveItem, bind at 1, lift. rewrite Ht.
      unfold bind at 1, auth_CanRead. cbn beta iota. cbn [fst]. reflexivity.
    + unfold serveDir, serveFile, backend_Read, header_Set. one_call.
  - apply (disciplined_unchanged _ w (Panic msg)).
    unfold serveItem, bind, lift. by rewrite Ht.
Qed.

Lemma disciplined_handlePut r p : disciplined s (handlePut s r p).
Proof.
  intros w. destruct (extractToken r) as [[token e] | msg] eqn:Ht.
  - eapply (disciplined_write _ r w token p).
    + unfold handlePut, bind at 1, lift. rewrite Ht.
      unfold bind at 1, auth_CanWrite. cbn beta iota. cbn [fst]. reflexivity.
    + unfold backend_MakeDir, backend_Write. one_call.
  - apply (disciplined_unchanged _ w (Panic msg)).
    unfold handlePut, bind, lift. by rewrite Ht.
Qed.

Lemma disciplined_handlePatch r p : disciplined s (handlePatch lib s r p).
Proof.
  intros w. destruct (extractToken r) as [[token e] | msg] eqn:Ht.
  - eapply (disciplined_write _ r w token p).
    + unfold handlePatch, bind at 1, lift. rewrite Ht.
      unfold bind at 1, auth_CanWrite. cbn beta iota. cbn [fst]. reflexivity.
    + unfold backend_Write. one_call.
  - apply (disciplined_unchanged _ w (Panic msg)).
    unfold handlePatch, bind, lift. by rewrite Ht.
Qed.

Lemma disciplined_handleDelete r p : disciplined s (handleDelete s r p).
Proof.
  intros w. destruct (extractToken r) as [[token e] | msg] eqn:Ht.
  - eapply (disciplined_write _ r w token p).
    + unfold handleDelete, bind at 1, lift. rewrite Ht.
      unfold bind at 1, auth_CanWrite. cbn beta iota. cbn [fst]. reflexivity.
    + unfold backend_Delete. one_call.
  - apply (disciplined_unchanged _ w (Panic msg)).
    unfold handleDelete, bind, lift. by rewrite Ht.
Qed.

Lemma disciplined_handleGemDriveRequest r p :
  disciplined s (handleGemDriveRequest lib s r p).
Proof.
  intros w. destruct (extractToken r) as [[token e] | msg] eqn:Ht.
  2: { apply (disciplined_unchanged _ w (Panic msg)).
       unfold handleGemDriveRequest, bind, lift. by rewrite Ht. }
  destruct (index (Strings.Split p "gemdrive/") 0) as [gemPath | msg] eqn:H0.
  2: { apply (disciplined_unchanged _ w (Panic msg)).
       unfold handleGemDriveRequest, bind, lift. cbv zeta. by rewrite Ht, H0. }
  destruct (index (Strings.Split p "gemdrive/") 1) as [gemReq | msg] eqn:H1.
  2: { apply (disciplined_unchanged _ w (Panic msg)).
       unfold handleGemDriveRequest, bind, lift. cbv zeta. by rewrite Ht, H0, H1. }
  destruct (String.eqb gemReq "authorize") eqn:Ha.
  - assert (Heq : handleGemDriveRequest lib s r p w = authorize lib s r w).
    { unfold handleGemDriveRequest, bind, lift. cbv zeta. by rewrite Ht, H0, H1, Ha. }
    destruct (silent_authorize r w) as [Hc Hk].
    rewrite Heq, Hc, Hk. exists [], []. rewrite !app_nil_r. simpl.
    repeat split; [lia | lia | by left].
  - eapply (disciplined_read _ r w token gemPath).
    + unfold handleGemDriveRequest, bind at 1, lift. cbv zeta. rewrite Ht.
      unfold bind at 1. rewrite H0. unfold bind at 1. rewrite H1, Ha.
      unfold bind at 1, auth_CanRead. cbn beta iota. cbn [fst]. reflexivity.
    + unfold backend_List, backend_GetImage. one_call.
Qed.

(** ** The handler of [Run] *)

Lemma quiet_bind {T U} (m : M B A T) (k : T -> M B A U) :
  quiet m -> (forall t, quiet (k t)) -> quiet (bind m k).
Proof.
  intros Hm Hk w. unfold bind. destruct (Hm w) as (Hc & Hk' & Ha).
  destruct (m w) as [[t | msg] w']; simpl in *; [| done].
  destruct (Hk t w') as (-> & -> & ->). done.
Qed.

Lemma disciplined_bind {T} (m : M B A T) (k : T -> M B A unit) :
  quiet m -> (forall t, disciplined s (k t)) -> disciplined s (bind m k).
Proof.
  intros Hm Hk w. unfold bind. destruct (Hm w) as (Hc & Hk' & Ha).
  destruct (m w) as [[t | msg] w']; simpl in *.
  - destruct (Hk t w') as (cs & ks & Hcs & Hks & Hlen & Hlen' & Hauth).
    exists cs, ks. by rewrite Hcs, Hks, Hc, Hk', <- Ha.
  - exists [], []. rewrite !app_nil_r, Hc, Hk'. simpl.
    repeat split; [lia | lia | by left].
Qed.

Lemma quiet_with_resp f : quiet (with_resp (B := B) (A := A) f).
Proof. done. Qed.

Lemma quiet_set_loginHtml html : quiet (set_loginHtml (B := B) (A := A) html).
Proof. done. Qed.

Lemma quiet_Println line : quiet (Println (B := B) (A := A) line).
Proof. done. Qed.

Lemma disciplined_Run_handler r : disciplined s (Run_handler lib s r).
Proof.
  unfold Run_handler.
  destruct (rice_FindBox lib "files") as [box | err];
    [| apply disciplined_silent; silent].
  destruct (Box_Bytes lib box "login.html") as [html [err |]];
    [apply disciplined_silent; silent |].
  apply disciplined_bind; [apply quiet_set_loginHtml | intros _].
  do 3 (apply disciplined_bind; [apply quiet_with_resp | intros _]).
  destruct (String.eqb (Method r) "OPTIONS"); [apply disciplined_silent; silent |].
  apply disciplined_bind; [apply quiet_Println | intros _].
  apply disciplined_bind; [apply quiet_with_resp | intros _].
  destruct (length (Strings.Split (request_path s r) "gemdrive/") =? 2)%nat;
    [apply disciplined_handleGemDriveRequest |].
  destruct (String.eqb (Method r) "HEAD"); [apply disciplined_handleHead |].
  destruct (String.eqb (Method r) "GET"); [apply disciplined_serveItem |].
  destruct (String.eqb (Method r) "PUT"); [apply disciplined_handlePut |].
  destruct (String.eqb (Method r) "PATCH"); [apply disciplined_handlePatch |].
  destruct (String.eqb (Method r) "DELETE"); [apply disciplined_handleDelete |].
  apply disciplined_silent; silent.
Qed.

(** X1.  Whatever the request, the handler of [Run] makes at most one
    backend call and at most one capability check, and a call is only made
    after the check has passed on the auth state of the request: a call that
    mutates the store after [CanWrite], any other call after [CanRead] or
    [CanWrite]. *)
Theorem backend_calls_are_authorized r w :
  exists cs ks,
    calls_of (Run_handler lib s r) w = (calls w ++ cs)%list
    /\ checks_of (Run_handler lib s r) w = (checks w ++ ks)%list
    /\ (length cs <= 1)%nat /\ (length ks <= 1)%nat
    /\ authorized_by s (authst w) ks cs.
Proof. apply disciplined_Run_handler. Qed.

Lemma Run_handler_loaded r w box html :
  rice_FindBox lib "files" = inl box ->
  Box_Bytes lib box "login.html" = (html, None) ->
  Method r <> "OPTIONS" ->
  Run_handler lib s r w =
    (if (length (Strings.Split (request_path s r) "gemdrive/") =? 2)%nat
     then handleGemDriveRequest lib s r (request_path s r)
     else if String.eqb (Method r) "HEAD" then handleHead lib s r (request_path s r)
     else if String.eqb (Method r) "GET" then serveItem lib s r (request_path s r)
     else if String.eqb (Method r) "PUT" then handlePut s r (request_path s r)
     else if String.eqb (Method r) "PATCH" then handlePatch lib s r (request_path s r)
     else if String.eqb (Method r) "DELETE" then handleDelete s r (request_path s r)
     else ret tt) (prepared lib s html r w).
Proof.
  intros Hbox Hbytes Hm%String.eqb_neq.
  unfold Run_handler. rewrite Hbox, Hbytes, Hm. reflexivity.
Qed.

(** X2.  An OPTIONS request is answered as soon as the CORS headers are
    set: the handler returns with the three headers in place, without a
    status, a body, a capability check, a backend call or a log line. *)
Theorem options_short_circuit r w box html :
  rice_FindBox lib "files" = inl box ->
  Box_Bytes lib box "login.html" = (html, None) ->
  Method r = "OPTIONS" ->
  Run_handler lib s r w =
    (Done tt,
     mkWorld (mkResponseWriter
                (<["Access-Control-Allow-Headers" := ["*"]]>
                   (<["Access-Control-Allow-Methods" := ["*"]]>
                      (<["Access-Control-Allow-Origin" := ["*"]]> (rw_header (resp w)))))
                (rw_wrote (resp w)) (rw_body (resp w)))
             html (store w) (authst w) (calls w) (checks w) (stdout w)).
Proof.
  intros Hbox Hbytes Hm. unfold Run_handler. rewrite Hbox, Hbytes, Hm. reflexivity.
Qed.

(** X3.  When the login page cannot be loaded (no box, or no [login.html]
    in it) every request, OPTIONS included, is answered with 500 and the
    error's text: no CORS header is set, no check is made and no backend
    method is called. *)
Theorem login_page_unavailable r w :
  rw_wrote (resp w) = None ->
  (forall err, rice_FindBox lib "files" = inr err ->
     returns (Run_handler lib s r) w
     /\ status (response (Run_handler lib s r) w) = 500
     /\ rw_body (response (Run_handler lib s r) w) = rw_body (resp w) ++ Error_string err
     /\ sent_header (response (Run_handler lib s r) w) = rw_header (resp w)
     /\ calls_of (Run_handler lib s r) w = calls w
     /\ checks_of (Run_handler lib s r) w = checks w)
  /\ (forall box html err,
     rice_FindBox lib "files" = inl box ->
     Box_Bytes lib box "login.html" = (html, Some err) ->
     returns (Run_handler lib s r) w
     /\ status (response (Run_handler lib s r) w) = 500
     /\ rw_body (response (Run_handler lib s r) w) = rw_body (resp w) ++ Error_string err
     /\ sent_header (response (Run_handler lib s r) w) = rw_header (resp w)
     /\ calls_of (Run_handler lib s r) w = calls w
     /\ checks_of (Run_handler lib s r) w = checks w).
Proof.
  intros Hw. split.
  - intros err Hbox. unfold returns, response, calls_of, checks_of, Run_handler.
    rewrite Hbox. by rewrite error_reply_run.
  - intros box html err Hbox Hbytes.
    unfold returns, response, calls_of, checks_of, Run_handler.
    rewrite Hbox, Hbytes.
    assert (Heq : (set_loginHtml html ;;; WriteHeader 500 ;;; Write_ (Error_string err)) w
                  = (WriteHeader 500 ;;; Write_ (Error_string err))
                      (mkWorld (resp w) html (store w) (authst w) (calls w) (checks w)
                               (stdout w))) by reflexivity.
    rewrite Heq. by rewrite error_reply_run.
Qed.

(** X4.  A direct-mode request whose method is none of OPTIONS, HEAD, GET,
    PUT, PATCH and DELETE falls through the [switch]: the handler returns
    without a status or a body, so the client receives 200 and an empty body,
    and neither a capability check nor a backend call is made. *)
Theorem unknown_method_falls_through r w box html :
  rice_FindBox lib "files" = inl box ->
  Box_Bytes lib box "login.html" = (html, None) ->
  length (Strings.Split (request_path s r) "gemdrive/") <> 2%nat ->
  Method r <> "OPTIONS" -> Method r <> "HEAD" -> Method r <> "GET" ->
  Method r <> "PUT" -> Method r <> "PATCH" -> Method r <> "DELETE" ->
  Run_handler lib s r w = (Done tt, prepared lib s html r w)
  /\ (resp w = fresh ->
      status (response (Run_handler lib s r) w) = 200
      /\ rw_body (response (Run_handler lib s r) w) = "")
  /\ calls_of (Run_handler lib s r) w = calls w
  /\ checks_of (Run_handler lib s r) w = checks w.
Proof.
  intros Hbox Hbytes Hlen%Nat.eqb_neq Ho Hh%String.eqb_neq Hg%String.eqb_neq
    Hp%String.eqb_neq Hpa%String.eqb_neq Hd%String.eqb_neq.
  assert (Heq : Run_handler lib s r w = (Done tt, prepared lib s html r w)).
  { rewrite (Run_handler_loaded r w box html) by done.
    by rewrite Hlen, Hh, Hg, Hp, Hpa, Hd. }
  unfold response, calls_of, checks_of. rewrite Heq.
  split; [done |]. split; [| done].
  intros Hw. unfold status. simpl. by rewrite Hw.
Qed.

(** X5.  The path a direct-mode GET is checked on is the URL's path behind
    the root that [DomainMap] gives the host name, the forwarded host
    ([X-Forwarded-Host]) taking precedence over the connection's host; a host
    that is not in the map leaves the path as it is.  (In meta-protocol mode
    the check is made on the part of that path before the marker.) *)
Theorem mapped_path_is_checked r w box html token e :
  rice_FindBox lib "files" = inl box ->
  Box_Bytes lib box "login.html" = (html, None) ->
  Method r = "GET" ->
  extractToken r = Done (token, e) ->
  let forwarded := Header_Get (Header r) "X-Forwarded-Host" in
  let host := if String.eqb forwarded "" then Host r else forwarded in
  (forall root,
     DomainMap (config s) !! host = Some root ->
     length (Strings.Split (root ++ URL_Path r) "gemdrive/") <> 2%nat ->
     checks_of (Run_handler lib s r) w
       = (checks w ++ [CheckRead token (root ++ URL_Path r)])%list)
  /\ (DomainMap (config s) !! host = None ->
     length (Strings.Split (URL_Path r) "gemdrive/") <> 2%nat ->
     checks_of (Run_handler lib s r) w = (checks w ++ [CheckRead token (URL_Path r)])%list).
Proof.
  intros Hbox Hbytes Hm Ht forwarded host.
  assert (Hpath : forall path,
    request_path s r = path ->
    length (Strings.Split path "gemdrive/") <> 2%nat ->
    checks_of (Run_handler lib s r) w = (checks w ++ [CheckRead token path])%list).
  { intros path <- Hlen.
    destruct (Run_handler_direct r w box html Hbox Hbytes Hlen) as (_ & Hget & _).
    unfold checks_of. rewrite (Hget Hm).
    apply (serveItem_checks r _ (prepared lib s html r w) token e Ht). }
  split.
  - intros root Hroot. apply Hpath. unfold request_path, request_hostname.
    fold forwarded. fold host. by rewrite Hroot.
  - intros Hnone. apply Hpath. unfold request_path, request_hostname.
    fold forwarded. fold host. by rewrite Hnone.
Qed.

(** X6.  On a backend that is no [WritableBackend], an authorized PUT,
    PATCH or DELETE is answered with 500 "Backend does not support writing",
    and no backend method is called. *)
Theorem read_only_backend_rejects_writes r p w token e :
  extractToken r = Done (token, e) ->
  CanWrite (auth s) token p (authst w) = true ->
  asWritable (backend s) = None ->
  rw_wrote (resp w) = None ->
  let reply (h : M B A unit) :=
    returns h w /\ status (response h w) = 500
    /\ rw_body (response h w) = rw_body (resp w) ++ "Backend does not support writing"
    /\ calls_of h w = calls w in
  reply (handlePut s r p) /\ reply (handlePatch lib s r p) /\ reply (handleDelete s r p).
Proof.
  intros Ht Hc Hwb Hw reply. subst reply. cbv beta.
  assert (Hput : handlePut s r p w
                 = (WriteHeader 500 ;;; Write_ "Backend does not support writing")
                     (checked (CheckWrite token p) w)).
  { unfold handlePut, bind at 1, lift. rewrite Ht.
    unfold bind at 1, auth_CanWrite. cbn beta iota. cbn [fst]. by rewrite Hc, Hwb. }
  assert (Hpatch : handlePatch lib s r p w
                 = (WriteHeader 500 ;;; Write_ "Backend does not support writing")
                     (checked (CheckWrite token p) w)).
  { unfold handlePatch, bind at 1, lift. rewrite Ht.
    unfold bind at 1, auth_CanWrite. cbn beta iota. cbn [fst]. by rewrite Hc, Hwb. }
  assert (Hdelete : handleDelete s r p w
                 = (WriteHeader 500 ;;; Write_ "Backend does not support writing")
                     (checked (CheckWrite token p) w)).
  { unfold handleDelete, bind at 1, lift. rewrite Ht.
    unfold bind at 1, auth_CanWrite. cbn beta iota. cbn [fst]. by rewrite Hc, Hwb. }
  unfold returns, response, calls_of. rewrite Hput, Hpatch, Hdelete.
  by rewrite error_reply_run.
Qed.

(** ** HEAD *)

Lemma handleHead_allowed r p w token e :
  extractToken r = Done (token, e) ->
  CanRead (auth s) token p (authst w) = true ->
  handleHead lib s r p w =
    (let* res := backend_List s (filepath_Dir lib p ++ "/") 1 in
     match res with
     | inr err => write_backend_error err
     | inl item =>
         match Children item !! filepath_Base lib p with
         | None => WriteHeader 404 ;;; Write_ "Not found"
         | Some child => header_Set "Content-Length" (fmt_d (Size child))
         end
     end) (checked (CheckRead token p) w).
Proof.
  intros Ht Hc. unfold handleHead, bind at 1, lift. rewrite Ht.
  unfold bind at 1, auth_CanRead. cbn beta iota. cbn [fst]. by rewrite Hc.
Qed.

(** X7.  An authorized HEAD lists the parent directory at depth 1 and looks
    the base name up among its children: a child gives its size as
    [Content-Length] with no status and no body written; no such child gives
    404 "Not found". *)
Theorem head_reports_the_size r p w token e item st :
  extractToken r = Done (token, e) ->
  CanRead (auth s) token p (authst w) = true ->
  List (backend s) (filepath_Dir lib p ++ "/") 1 (store w) = (inl item, st) ->
  rw_wrote (resp w) = None ->
  calls_of (handleHead lib s r p) w = (calls w ++ [CallList (filepath_Dir lib p ++ "/") 1])%list
  /\ (forall child,
        Children item !! filepath_Base lib p = Some child ->
        returns (handleHead lib s r p) w
        /\ rw_wrote (response (handleHead lib s r p) w) = None
        /\ Header_Get (sent_header (response (handleHead lib s r p) w)) "Content-Length"
             = fmt_d (Size child)
        /\ rw_body (response (handleHead lib s r p) w) = rw_body (resp w))
  /\ (Children item !! filepath_Base lib p = None ->
        returns (handleHead lib s r p) w
        /\ status (response (handleHead lib s r p) w) = 404
        /\ rw_body (response (handleHead lib s r p) w) = rw_body (resp w) ++ "Not found").
Proof.
  intros Ht Hc Hlist Hw. unfold calls_of, returns, response.
  rewrite (handleHead_allowed r p w token e) by done.
  unfold backend_List. rewrite bind_call_run. cbn [checked store].
  rewrite Hlist. cbn [fst snd]. repeat apply conj.
  - destruct (Children item !! filepath_Base lib p).
    + done.
    + by rewrite resp_only_calls by resp_only.
  - intros child ->. unfold header_Set, with_resp. cbn. rewrite Hw.
    repeat split. unfold sent_header. cbn. apply Header_Get_Set.
  - intros ->. by rewrite error_reply_run.
Qed.

(** ** Errors of [List] and [Read] *)

Lemma final_status_plain code : 200 <= code -> final_status code = code.
Proof.
  intros Hlow. unfold final_status, informational.
  replace (code <=? 199) with false by (symmetry; apply Z.leb_gt; lia).
  by rewrite andb_false_r.
Qed.

Lemma final_body_plain code body text :
  200 <= code -> code <> 204 -> code <> 304 ->
  final_body code body text = body ++ text.
Proof.
  intros Hlow H204 H304. unfold final_body. rewrite (final_status_plain _ Hlow).
  unfold bodyAllowedForStatus.
  replace (code <=? 199) with false by (symmetry; apply Z.leb_gt; lia).
  replace (code =? 204) with false by (symmetry; apply Z.eqb_neq; lia).
  replace (code =? 304) with false by (symmetry; apply Z.eqb_neq; lia).
  by rewrite andb_false_r.
Qed.

Lemma write_backend_error_run err w :
  rw_wrote (resp w) = None ->
  (forall e, as_Error err = Some e -> 100 <= HttpCode e <= 999 ->
     write_backend_error err w = (WriteHeader (HttpCode e) ;;; Write_ (Message e)) w
     /\ fst (write_backend_error err w) = Done tt
     /\ status (resp (snd (write_backend_error err w))) = final_status (HttpCode e)
     /\ rw_body (resp (snd (write_backend_error err w)))
          = final_body (HttpCode e) (rw_body (resp w)) (Message e))
  /\ (as_Error err = None ->
     fst (write_backend_error err w) = Done tt
     /\ status (resp (snd (write_backend_error err w))) = 500
     /\ rw_body (resp (snd (write_backend_error err w)))
          = rw_body (resp w) ++ Error_string err).
Proof.
  intros Hw. split.
  - intros e He Hcode. unfold write_backend_error. rewrite He.
    by rewrite error_reply_status.
  - intros He. unfold write_backend_error. rewrite He. by rewrite error_reply_run.
Qed.

Lemma meta_json_run r p w token e gemPath depth :
  extractToken r = Done (token, e) ->
  Strings.Split p "gemdrive/" = [gemPath; "meta.json"] ->
  CanRead (auth s) token gemPath (authst w) = true ->
  (if negb (String.eqb (Values_Get (URL_Query r) "depth") "")
   then Atoi lib (Values_Get (URL_Query r) "depth") else inl 1) = inl depth ->
  handleGemDriveRequest lib s r p w =
    (let* res := backend_List s gemPath depth in
     match res with
     | inr err => write_backend_error err
     | inl item =>
         match json_Marshal lib item with
         | (_, Some err) => WriteHeader 500 ;;; Write_ (Error_string err)
         | (jsonBody, None) => Write_ jsonBody
         end
     end) (checked (CheckRead token gemPath) w).
Proof.
  intros Ht Hsplit Hc Hdepth.
  rewrite (handleGemDriveRequest_start r p w token e gemPath "meta.json") by done.
  rewrite Hc. unfold meta_operation. cbn [String.eqb Ascii.eqb Bool.eqb].
  cbv zeta. by rewrite Hdepth.
Qed.

(** X8.  An error of [List] (HEAD, [meta.json]) or of [Read] (GET of a
    file) that is a structured [Error] with a code between 100 and 999 is
    passed to [WriteHeader] and its message to [Write].  The status of the
    response is the code, except that an informational code (1xx other than
    101) goes out as an interim response and the write that follows answers
    200; the body is the message, except that nothing is written under a
    status that allows no body (101, 204, 304).  So for every code from 200
    on other than 204 and 304 the status is the code and the body the
    message.  Any other error gives 500 and the error's text.  The body is
    what the handler's writes put into the response; for HEAD the server
    accepts these bytes and does not send them. *)
Theorem read_side_errors_propagate r p w token e err st :
  extractToken r = Done (token, e) ->
  rw_wrote (resp w) = None ->
  (forall e0, as_Error err = Some e0 -> 100 <= HttpCode e0 <= 999) ->
  let propagated (h : M B A unit) :=
    returns h w
    /\ (forall e0, as_Error err = Some e0 ->
          status (response h w) = final_status (HttpCode e0)
          /\ rw_body (response h w) = final_body (HttpCode e0) (rw_body (resp w)) (Message e0)
          /\ (200 <= HttpCode e0 -> HttpCode e0 <> 204 -> HttpCode e0 <> 304 ->
              status (response h w) = HttpCode e0
              /\ rw_body (response h w) = rw_body (resp w) ++ Message e0))
    /\ (as_Error err = None ->
          status (response h w) = 500
          /\ rw_body (response h w) = rw_body (resp w) ++ Error_string err) in
  (CanRead (auth s) token p (authst w) = true ->
   List (backend s) (filepath_Dir lib p ++ "/") 1 (store w) = (inr err, st) ->
   propagated (handleHead lib s r p))
  /\ (forall gemPath depth,
      Strings.Split p "gemdrive/" = [gemPath; "meta.json"] ->
      CanRead (auth s) token gemPath (authst w) = true ->
      (if negb (String.eqb (Values_Get (URL_Query r) "depth") "")
       then Atoi lib (Values_Get (URL_Query r) "depth") else inl 1) = inl depth ->
      List (backend s) gemPath depth (store w) = (inr err, st) ->
      propagated (handleGemDriveRequest lib s r p))
  /\ (CanRead (auth s) token p (authst w) = true ->
      Strings.HasSuffix p "/" = false ->
      Header_Get (Header r) "Range" = "" ->
      Read (backend s) p 0 0 (store w) = (inr err, st) ->
      propagated (serveItem lib s r p)).
Proof.
  intros Ht Hw Hvalid propagated.
  assert (Hreply : forall (h : M B A unit) w',
    h w = write_backend_error err w' ->
    rw_wrote (resp w') = None -> rw_body (resp w') = rw_body (resp w) ->
    propagated h).
  { intros h w' Heq Hw' Hbody. subst propagated. cbv beta.
    unfold returns, response. rewrite Heq.
    destruct (write_backend_error_run err w' Hw') as [Hs Hp].
    destruct (as_Error err) as [e1 |] eqn:He.
    - destruct (Hs e1 eq_refl (Hvalid e1 eq_refl)) as (_ & Hret & Hstatus & Hb).
      split; [done |]. split; [| done].
      intros e0 [= <-]. rewrite Hstatus, Hb, Hbody.
      split; [done |]. split; [done |]. intros Hlow H204 H304.
      by rewrite (final_status_plain _ Hlow), (final_body_plain _ _ _ Hlow H204 H304).
    - destruct (Hp eq_refl) as (Hret & Hstatus & Hb).
      split; [done |]. split; [done |]. intros _. by rewrite Hstatus, Hb, Hbody. }
  repeat apply conj.
  - intros Hc Hlist.
    apply (Hreply _ (called (CallList (filepath_Dir lib p ++ "/") 1) st
                            (checked (CheckRead token p) w))); try done.
    rewrite (handleHead_allowed r p w token e) by done.
    unfold backend_List. rewrite bind_call_run. cbn [checked store].
    by rewrite Hlist.
  - intros gemPath depth Hsplit Hc Hdepth Hlist.
    apply (Hreply _ (called (CallList gemPath depth) st
                            (checked (CheckRead token gemPath) w))); try done.
    rewrite (meta_json_run r p w token e gemPath depth) by done.
    unfold backend_List. rewrite bind_call_run. cbn [checked store].
    by rewrite Hlist.
  - intros Hc Hdir Hrange Hread.
    apply (Hreply _ (called (CallRead p 0 0) st
                            (serving r (checked (CheckRead token p) w)))); try done.
    rewrite (serveItem_allowed r p w token e) by done. rewrite Hdir.
    rewrite (serveFile_whole r p _ Hrange).
    unfold backend_Read. rewrite bind_call_run. cbn [serving checked store].
    by rewrite Hread.
Qed.

(** X9.  [meta.json] that [List] answers: the body is the item as
    [json.Marshal] renders it, with no status written (200); an error of
    [json.Marshal] gives 500 and its text. *)
Theorem meta_json_body r p w token e gemPath depth item st :
  extractToken r = Done (token, e) ->
  Strings.Split p "gemdrive/" = [gemPath; "meta.json"] ->
  CanRead (auth s) token gemPath (authst w) = true ->
  (if negb (String.eqb (Values_Get (URL_Query r) "depth") "")
   then Atoi lib (Values_Get (URL_Query r) "depth") else inl 1) = inl depth ->
  List (backend s) gemPath depth (store w) = (inl item, st) ->
  rw_wrote (resp w) = None ->
  (forall jsonBody,
     json_Marshal lib item = (jsonBody, None) ->
     returns (handleGemDriveRequest lib s r p) w
     /\ status (response (handleGemDriveRequest lib s r p) w) = 200
     /\ rw_body (response (handleGemDriveRequest lib s r p) w) = rw_body (resp w) ++ jsonBody
     /\ store (snd (handleGemDriveRequest lib s r p w)) = st)
  /\ (forall jsonBody err,
     json_Marshal lib item = (jsonBody, Some err) ->
     returns (handleGemDriveRequest lib s r p) w
     /\ status (response (handleGemDriveRequest lib s r p) w) = 500
     /\ rw_body (response (handleGemDriveRequest lib s r p) w)
          = rw_body (resp w) ++ Error_string err).
Proof.
  intros Ht Hsplit Hc Hdepth Hlist Hw. unfold returns, response.
  rewrite (meta_json_run r p w token e gemPath depth) by done.
  unfold backend_List. rewrite bind_call_run. cbn [checked store].
  rewrite Hlist. cbn [fst snd]. split.
  - intros jsonBody ->.
    destruct w as [[h wr b] l st0 a c k o]; simpl in *; subst wr.
    unfold Write_, bind, WriteHeader, with_resp, called. simpl. done.
  - intros jsonBody err ->. by rewrite error_reply_run.
Qed.

(** ** GET of a directory *)

(** X10.  An authorized GET of a path that ends in a slash reads
    [index.html] under it from offset 0 to the end, whatever the [Range]
    header says: when [Read] fails, for any reason, the answer is 400
    "Attempted to read directory"; when it succeeds the bytes are copied with
    no status written (200) and no header added. *)
Theorem directory_get_serves_index r p w token e :
  extractToken r = Done (token, e) ->
  CanRead (auth s) token p (authst w) = true ->
  Strings.HasSuffix p "/" = true ->
  rw_wrote (resp w) = None ->
  calls_of (serveItem lib s r p) w = (calls w ++ [CallRead (p ++ "index.html") 0 0])%list
  /\ (forall err st,
        Read (backend s) (p ++ "index.html") 0 0 (store w) = (inr err, st) ->
        returns (serveItem lib s r p) w
        /\ status (response (serveItem lib s r p) w) = 400
        /\ rw_body (response (serveItem lib s r p) w)
             = rw_body (resp w) ++ "Attempted to read directory")
  /\ (forall item data st,
        Read (backend s) (p ++ "index.html") 0 0 (store w) = (inl (item, data), st) ->
        returns (serveItem lib s r p) w
        /\ status (response (serveItem lib s r p) w) = 200
        /\ rw_body (response (serveItem lib s r p) w) = rw_body (resp w) ++ data
        /\ sent_header (response (serveItem lib s r p) w) = rw_header (resp w)).
Proof.
  intros Ht Hc Hdir Hw. unfold calls_of, returns, response.
  rewrite (serveItem_allowed r p w token e) by done. rewrite Hdir.
  unfold serveDir, backend_Read. repeat apply conj.
  - rewrite bind_call_calls; [done |]. intros [[item data] | err]; resp_only.
  - intros err st Hread. rewrite bind_call_run. cbn [checked store].
    rewrite Hread. cbn [fst snd]. by rewrite error_reply_run.
  - intros item data st Hread. rewrite bind_call_run. cbn [checked store].
    rewrite Hread. cbn [fst snd].
    destruct (io_Copy_first data (called (CallRead (p ++ "index.html") 0 0) st
                                         (checked (CheckRead token p) w)) Hw)
      as (Hret & Hstatus & Hheader & Hbody & _).
    by rewrite Hret, Hstatus, Hheader, Hbody.
Qed.

(** ** The meta-protocol, continued *)

(** X11.  A meta-protocol request for an operation other than [authorize]
    whose read check on the target path fails is answered like a denied
    direct request: 403, the login page, the [WWW-Authenticate] challenge,
    and no backend call, whatever the operation asked for. *)
Theorem denied_meta_request r w box html token e gemPath gemReq :
  rice_FindBox lib "files" = inl box ->
  Box_Bytes lib box "login.html" = (html, None) ->
  Method r <> "OPTIONS" ->
  resp w = fresh ->
  Strings.Split (request_path s r) "gemdrive/" = [gemPath; gemReq] ->
  gemReq <> "authorize" ->
  extractToken r = Done (token, e) ->
  CanRead (auth s) token gemPath (authst w) = false ->
  returns (Run_handler lib s r) w
  /\ status (response (Run_handler lib s r) w) = 403
  /\ rw_body (response (Run_handler lib s r) w) = html
  /\ Header_Get (sent_header (response (Run_handler lib s r) w)) "WWW-Authenticate"
       = emauth_challenge
  /\ calls_of (Run_handler lib s r) w = calls w
  /\ checks_of (Run_handler lib s r) w = (checks w ++ [CheckRead token gemPath])%list.
Proof.
  intros Hbox Hbytes Hm Hw Hsplit Hne Ht Hc.
  unfold returns, response, calls_of, checks_of.
  rewrite (Run_handler_meta r w box html) by (try done; by rewrite Hsplit).
  rewrite (handleGemDriveRequest_start r _ _ token e gemPath gemReq) by done.
  cbn [prepared authst]. rewrite Hc.
  rewrite sendLoginPage_run by (simpl; by rewrite Hw).
  simpl. rewrite Hw. simpl.
  do 3 (split; [reflexivity |]). split; [| split; reflexivity].
  unfold sent_header; simpl.
  rewrite Header_Get_Set_ne by (vm_compute; discriminate).
  apply Header_Get_Set.
Qed.

(** ** [authorize] *)

(** X12.  The operation [authorize] is reached without a capability check:
    once a token could be extracted (any token, or none), the handler runs
    [authorize] on the unchanged world, and neither a check nor a backend
    call is made. *)
Theorem authorize_needs_no_capability r p w tok gemPath :
  extractToken r = Done tok ->
  Strings.Split p "gemdrive/" = [gemPath; "authorize"] ->
  handleGemDriveRequest lib s r p w = authorize lib s r w
  /\ checks_of (handleGemDriveRequest lib s r p) w = checks w
  /\ calls_of (handleGemDriveRequest lib s r p) w = calls w.
Proof.
  intros Ht Hsplit.
  assert (Heq : handleGemDriveRequest lib s r p w = authorize lib s r w).
  { unfold handleGemDriveRequest, bind, lift. cbv zeta. by rewrite Ht, Hsplit. }
  unfold checks_of, calls_of. rewrite Heq.
  destruct (silent_authorize r w) as [-> ->]. done.
Qed.

(** The cookie [authorize] sets for a token. *)
Lemma authorize_complete_run r w :
  Values_Get (URL_Query r) "id" <> "" ->
  Values_Get (URL_Query r) "code" <> "" ->
  authorize lib s r w =
    (let* res := with_auth (CompleteAuth (auth s) (Values_Get (URL_Query r) "id")
                                         (Values_Get (URL_Query r) "code")) in
     match res with
     | (_, Some err) => WriteHeader 400 ;;; Write_ (Error_string err)
     | (token, None) =>
         http_SetCookie lib {| Name := "access_token"; Value := token; HttpOnly := true;
                               MaxAge := 86400 * 365; Path := "/"; SameSiteLax := true |} ;;;
         Write_ token
     end) w.
Proof.
  intros Hid Hcode. unfold authorize.
  by rewrite (eqb_empty_false _ Hid), (eqb_empty_false _ Hcode).
Qed.

Lemma bind_with_auth_run {T U} (f : A -> T * A) (k : T -> M B A U) w :
  bind (with_auth f) k w = k (fst (f (authst w))) (with_authst (snd (f (authst w))) w).
Proof. unfold bind, with_auth, with_authst. by destruct (f (authst w)). Qed.

Lemma cookie_reply_run cookie text w :
  rw_wrote (resp w) = None ->
  (http_SetCookie lib cookie ;;; Write_ text) w =
    (Done tt,
     let h := if String.eqb (Cookie_String lib cookie) "" then rw_header (resp w)
              else Header_Add "Set-Cookie" (Cookie_String lib cookie) (rw_header (resp w)) in
     mkWorld (mkResponseWriter h (Some (200, h)) (rw_body (resp w) ++ text))
             (loginHtml w) (store w) (authst w) (calls w) (checks w) (stdout w)).
Proof.
  destruct w as [[h wr b] l st a c k o]; simpl. intros ->.
  unfold http_SetCookie. by destruct (String.eqb (Cookie_String lib cookie) "").
Qed.

(** X13.  [authorize] with both [id] and [code] completes the handshake:
    a token from [CompleteAuth] is written as the body with no status (200),
    after a [Set-Cookie] header for the cookie [access_token] with that
    value (http-only, one year, path [/], same-site lax) has been added,
    and the auth state is the one [CompleteAuth] left; an error of
    [CompleteAuth] gives 400 and its text, and no cookie. *)
Theorem authorize_completion r w a' :
  Values_Get (URL_Query r) "id" <> "" ->
  Values_Get (URL_Query r) "code" <> "" ->
  rw_wrote (resp w) = None ->
  (forall token,
     CompleteAuth (auth s) (Values_Get (URL_Query r) "id") (Values_Get (URL_Query r) "code")
                  (authst w) = ((token, None), a') ->
     let cookie := Cookie_String lib
                     {| Name := "access_token"; Value := token; HttpOnly := true;
                        MaxAge := 31536000; Path := "/"; SameSiteLax := true |} in
     returns (authorize lib s r) w
     /\ status (response (authorize lib s r) w) = 200
     /\ rw_body (response (authorize lib s r) w) = rw_body (resp w) ++ token
     /\ authst (snd (authorize lib s r w)) = a'
     /\ sent_header (response (authorize lib s r) w)
          = (if String.eqb cookie "" then rw_header (resp w)
             else Header_Add "Set-Cookie" cookie (rw_header (resp w))))
  /\ (forall token err,
     CompleteAuth (auth s) (Values_Get (URL_Query r) "id") (Values_Get (URL_Query r) "code")
                  (authst w) = ((token, Some err), a') ->
     returns (authorize lib s r) w
     /\ status (response (authorize lib s r) w) = 400
     /\ rw_body (response (authorize lib s r) w) = rw_body (resp w) ++ Error_string err
     /\ authst (snd (authorize lib s r w)) = a'
     /\ sent_header (response (authorize lib s r) w) = rw_header (resp w)).
Proof.
  intros Hid Hcode Hw. unfold returns, response.
  rewrite (authorize_complete_run r w Hid Hcode).
  rewrite bind_with_auth_run. split.
  - intros token Hcomplete. rewrite Hcomplete. cbn [fst snd].
    change (86400 * 365) with 31536000.
    by rewrite cookie_reply_run.
  - intros token err Hcomplete. rewrite Hcomplete. cbn [fst snd].
    by rewrite error_reply_run.
Qed.

(** X14.  [authorize] without both [id] and [code] starts the handshake
    from the request body: a body that cannot be read or is no [Key], or an
    error of [Authorize], gives 400 with the error's text; otherwise the
    body of the response is the authorization id, with no status written
    (200), and the auth state is the one [Authorize] left. *)
Theorem authorize_request r w :
  Values_Get (URL_Query r) "id" = "" \/ Values_Get (URL_Query r) "code" = "" ->
  rw_wrote (resp w) = None ->
  let refused err :=
    returns (authorize lib s r) w
    /\ status (response (authorize lib s r) w) = 400
    /\ rw_body (response (authorize lib s r) w) = rw_body (resp w) ++ Error_string err in
  (forall err, Body_err r = Some err ->
     refused err /\ authst (snd (authorize lib s r w)) = authst w)
  /\ (forall err, Body_err r = None -> json_Unmarshal lib (Body r) = inr err ->
     refused err /\ authst (snd (authorize lib s r w)) = authst w)
  /\ (forall key authId err a',
     Body_err r = None -> json_Unmarshal lib (Body r) = inl key ->
     Authorize (auth s) key (authst w) = ((authId, Some err), a') ->
     refused err /\ authst (snd (authorize lib s r w)) = a')
  /\ (forall key authId a',
     Body_err r = None -> json_Unmarshal lib (Body r) = inl key ->
     Authorize (auth s) key (authst w) = ((authId, None), a') ->
     returns (authorize lib s r) w
     /\ status (response (authorize lib s r) w) = 200
     /\ rw_body (response (authorize lib s r) w) = rw_body (resp w) ++ authId
     /\ authst (snd (authorize lib s r w)) = a').
Proof.
  intros Hshape Hw refused. subst refused. cbv beta.
  assert (Hif : negb (String.eqb (Values_Get (URL_Query r) "id") "")
                && negb (String.eqb (Values_Get (URL_Query r) "code") "") = false).
  { destruct Hshape as [-> | ->]; [done |]. apply andb_false_r. }
  unfold returns, response, authorize. rewrite Hif. repeat apply conj.
  - intros err ->. by rewrite error_reply_run.
  - intros err -> ->. by rewrite error_reply_run.
  - intros key authId err a' -> -> Hauth. rewrite bind_with_auth_run, Hauth.
    cbn [fst snd]. by rewrite error_reply_run.
  - intros key authId a' -> -> Hauth. rewrite bind_with_auth_run, Hauth.
    cbn [fst snd].
    destruct w as [[h wr b] l st a c k o]; simpl in *; subst wr. done.
Qed.

(** ** Images *)

Lemma bind_lift_done {T U} (x : T) (k : T -> M B A U) w :
  bind (lift (Done x)) k w = k x w.
Proof. reflexivity. Qed.

Lemma split_three a b c :
  Strings.contains_byte "/" a = false ->
  Strings.contains_byte "/" b = false ->
  Strings.contains_byte "/" c = false ->
  Strings.Split (a ++ "/" ++ b ++ "/" ++ c) "/" = [a; b; c].
Proof.
  intros Ha Hb Hc.
  change (a ++ "/" ++ b ++ "/" ++ c) with (a ++ String "/" (b ++ String "/" c)).
  by rewrite !split_byte_at, split_byte_free.
Qed.

Lemma images_run r p w token e gemPath gemReq b :
  extractToken r = Done (token, e) ->
  Strings.Split p "gemdrive/" = [gemPath; gemReq] ->
  CanRead (auth s) token gemPath (authst w) = true ->
  head (Strings.Split gemReq "/") = Some "images" ->
  asImageServer (backend s) = Some b ->
  handleGemDriveRequest lib s r p w =
    (let* sizeText := lift (index (Strings.Split gemReq "/") 1) in
     match Atoi lib sizeText with
     | inr err => WriteHeader 400 ;;; Write_ (Error_string err)
     | inl size =>
         let* filename := lift (index (Strings.Split gemReq "/") 2) in
         let* res := backend_GetImage b (path_Join lib gemPath filename) size in
         match res with
         | inr err => WriteHeader 500 ;;; Write_ (Error_string err)
         | inl img => io_Copy img
         end
     end) (checked (CheckRead token gemPath) w).
Proof.
  intros Ht Hsplit Hc Hhead Hb.
  assert (Hne : gemReq <> "authorize").
  { intros ->. vm_compute in Hhead. discriminate. }
  assert (Hmeta : String.eqb gemReq "meta.json" = false).
  { apply String.eqb_neq. intros ->. vm_compute in Hhead. discriminate. }
  rewrite (handleGemDriveRequest_start r p w token e gemPath gemReq) by done.
  rewrite Hc. unfold meta_operation. rewrite Hmeta. cbv zeta.
  destruct (Strings.Split gemReq "/") as [| first parts]; [done |].
  injection Hhead as ->.
  unfold bind at 1, lift at 1. cbn [index lookup list_lookup].
  cbn [String.eqb Ascii.eqb Bool.eqb]. by rewrite Hb.
Qed.

(** X15.  [images/<size>/<filename>] on a backend that is an
    [ImageServer], after a passed read check: a size that is no integer gives
    400 without a backend call; otherwise [GetImage] is called with the
    target path joined with the file name and with the size, its bytes are
    the body, and its error gives 500. *)
Theorem images_translation r p w token e gemPath sizeText filename b :
  extractToken r = Done (token, e) ->
  Strings.Split p "gemdrive/" = [gemPath; "images/" ++ sizeText ++ "/" ++ filename] ->
  Strings.contains_byte "/" sizeText = false ->
  Strings.contains_byte "/" filename = false ->
  CanRead (auth s) token gemPath (authst w) = true ->
  asImageServer (backend s) = Some b ->
  rw_wrote (resp w) = None ->
  (forall err, Strconv.parseInt sizeText = inr err ->
     returns (handleGemDriveRequest lib s r p) w
     /\ status (response (handleGemDriveRequest lib s r p) w) = 400
     /\ calls_of (handleGemDriveRequest lib s r p) w = calls w)
  /\ (forall size, Strconv.parseInt sizeText = inl size ->
     calls_of (handleGemDriveRequest lib s r p) w
       = (calls w ++ [CallGetImage (path_Join lib gemPath filename) size])%list
     /\ (forall img st,
           GetImage b (path_Join lib gemPath filename) size (store w) = (inl img, st) ->
           returns (handleGemDriveRequest lib s r p) w
           /\ status (response (handleGemDriveRequest lib s r p) w) = 200
           /\ rw_body (response (handleGemDriveRequest lib s r p) w) = rw_body (resp w) ++ img)
     /\ (forall err st,
           GetImage b (path_Join lib gemPath filename) size (store w) = (inr err, st) ->
           returns (handleGemDriveRequest lib s r p) w
           /\ status (response (handleGemDriveRequest lib s r p) w) = 500
           /\ rw_body (response (handleGemDriveRequest lib s r p) w)
                = rw_body (resp w) ++ Error_string err)).
Proof.
  intros Ht Hsplit Hsize Hname Hc Hb Hw.
  assert (Hparts : Strings.Split ("images/" ++ sizeText ++ "/" ++ filename) "/"
                   = ["images"; sizeText; filename]).
  { by apply (split_three "images"). }
  unfold returns, response, calls_of.
  rewrite (images_run r p w token e gemPath _ b) by (try done; by rewrite Hparts).
  rewrite Hparts. cbn [index lookup list_lookup]. rewrite !bind_lift_done. split.
  - intros err Hp. destruct (Atoi_error _ _ Hp) as [e' ->].
    by rewrite error_reply_run.
  - intros size Hp. rewrite (Atoi_value _ _ Hp). rewrite !bind_lift_done.
    unfold backend_GetImage. repeat apply conj.
    + rewrite bind_call_calls; [done |]. intros [img | err]; resp_only.
    + intros img st Himg. rewrite bind_call_run. cbn [checked store].
      rewrite Himg. cbn [fst snd].
      destruct (io_Copy_first img (called (CallGetImage (path_Join lib gemPath filename) size)
                                          st (checked (CheckRead token gemPath) w)) Hw)
        as (Hret & Hstatus & _ & Hbody & _).
      by rewrite Hret, Hstatus, Hbody.
    + intros err st Himg. rewrite bind_call_run. cbn [checked store].
      rewrite Himg. cbn [fst snd]. by rewrite error_reply_run.
Qed.

(** X16.  The image branch indexes the parts of the operation without
    checking how many there are: on an [ImageServer] backend, after a passed
    read check, the operation [images] alone panics at index 1, and
    [images/<size>] with an integer size panics at index 2; nothing has been
    written and no backend method has been called by then. *)
Theorem images_without_parts_panics r p w token e gemPath b :
  extractToken r = Done (token, e) ->
  CanRead (auth s) token gemPath (authst w) = true ->
  asImageServer (backend s) = Some b ->
  (Strings.Split p "gemdrive/" = [gemPath; "images"] ->
     handleGemDriveRequest lib s r p w
       = (Panic "runtime error: index out of range [1] with length 1",
          checked (CheckRead token gemPath) w))
  /\ (forall sizeText size,
     Strings.Split p "gemdrive/" = [gemPath; "images/" ++ sizeText] ->
     Strings.contains_byte "/" sizeText = false ->
     Strconv.parseInt sizeText = inl size ->
     handleGemDriveRequest lib s r p w
       = (Panic "runtime error: index out of range [2] with length 2",
          checked (CheckRead token gemPath) w)).
Proof.
  intros Ht Hc Hb. split.
  - intros Hsplit.
    by rewrite (images_run r p w token e gemPath "images" b).
  - intros sizeText size Hsplit Hfree Hp.
    assert (Hparts : Strings.Split ("images/" ++ sizeText) "/" = ["images"; sizeText]).
    { change ("images/" ++ sizeText) with ("images" ++ String "/" sizeText).
      by rewrite split_byte_at, split_byte_free. }
    rewrite (images_run r p w token e gemPath _ b) by (try done; by rewrite Hparts).
    rewrite Hparts. cbn [index lookup list_lookup]. rewrite bind_lift_done.
    by rewrite (Atoi_value _ _ Hp).
Qed.

(** ** Ranges *)

(** X17.  No range that [parseRange] accepts has a negative bound, because
    the minus sign is the separator: both bounds lie between 0 and
    [MAX_INT64].  In particular a header with only a last part, as in
    [bytes=-500], is not a suffix range: it is the range from 0 to that
    number. *)
Theorem parseRange_has_no_negative_bound :
  (forall h rg,
     parseRange lib h = inl rg ->
     0 <= Start rg <= MAX_INT64 /\ 0 <= End rg <= MAX_INT64)
  /\ (forall unit last n,
     Strings.contains_byte "=" unit = false ->
     Strings.contains_byte "=" last = false ->
     Strings.contains_byte "-" last = false ->
     last <> "" ->
     Strconv.parseInt last = inl n ->
     parseRange lib (unit ++ "=-" ++ last) = inl {| Start := 0; End := n |}).
Proof.
  split; [apply parseRange_bounds |].
  intros unit last n Hunit Hlast1 Hlast2 Hne Hp.
  apply parseRange_grammar. exists unit, "", last. cbn [Start End].
  repeat split; try done.
  unfold range_bound. by rewrite (eqb_empty_false _ Hne), Hp.
Qed.

(** ** Writes that succeed *)

(** X18.  A write that the backend accepts is answered without a status
    and without a body (200, empty), for PUT of a directory, PUT of a file,
    PATCH and DELETE alike, and the store is the one the backend method
    left. *)
Theorem accepted_writes_answer_nothing r p w token e wb st :
  extractToken r = Done (token, e) ->
  CanWrite (auth s) token p (authst w) = true ->
  asWritable (backend s) = Some wb ->
  let accepted (h : M B A unit) c :=
    h w = (Done tt, called c st (checked (CheckWrite token p) w)) in
  (Strings.HasSuffix p "/" = true ->
   MakeDir wb p (String.eqb (Values_Get (URL_Query r) "recursive") "true") (store w)
     = (None, st) ->
   accepted (handlePut s r p)
            (CallMakeDir p (String.eqb (Values_Get (URL_Query r) "recursive") "true")))
  /\ (Strings.HasSuffix p "/" = false -> 1 <= ContentLength r ->
   Write wb p (Body r) 0 (ContentLength r)
         (String.eqb (Values_Get (URL_Query r) "overwrite") "true") true (store w)
     = (None, st) ->
   accepted (handlePut s r p)
            (CallWrite p (Body r) 0 (ContentLength r)
                       (String.eqb (Values_Get (URL_Query r) "overwrite") "true") true))
  /\ (forall offset size,
   (if String.eqb (Values_Get (URL_Query r) "offset") "" then inl 0
    else Atoi lib (Values_Get (URL_Query r) "offset")) = inl offset ->
   Atoi lib (Header_Get (Header r) "Content-Length") = inl size ->
   Write wb p (Body r) offset size true false (store w) = (None, st) ->
   accepted (handlePatch lib s r p) (CallWrite p (Body r) offset size true false))
  /\ (Delete wb p (String.eqb (Values_Get (URL_Query r) "recursive") "true") (store w)
     = (None, st) ->
   accepted (handleDelete s r p)
            (CallDelete p (String.eqb (Values_Get (URL_Query r) "recursive") "true"))).
Proof.
  intros Ht Hc Hwb accepted. subst accepted. cbv beta. repeat apply conj.
  - intros Hdir Hmk. rewrite (handlePut_allowed r p w token e wb) by done.
    rewrite Hdir. unfold backend_MakeDir. rewrite bind_call_run.
    cbn [checked store]. by rewrite Hmk.
  - intros Hdir Hlen%Z.ltb_ge Hwr. rewrite (handlePut_allowed r p w token e wb) by done.
    rewrite Hdir, Hlen. unfold backend_Write. rewrite bind_call_run.
    cbn [checked store]. by rewrite Hwr.
  - intros offset size Hoff Hsize Hwr.
    rewrite (handlePatch_allowed r p w token e wb) by done.
    rewrite Hoff, Hsize. unfold backend_Write. rewrite bind_call_run.
    cbn [checked store]. by rewrite Hwr.
  - intros Hdel. rewrite (handleDelete_allowed r p w token e wb) by done.
    unfold backend_Delete. rewrite bind_call_run.
    cbn [checked store]. by rewrite Hdel.
Qed.

(** ** Headers that stay *)

Create HintDb kept.

Section Kept.

Variable k : string.
Variable v : list string.

Lemma kept_ret {T} (t : T) : keeps_header k v (ret (B := B) (A := A) t).
Proof. intros w Hw. exact Hw. Qed.

Lemma kept_lift {T} (x : Result T) : keeps_header k v (lift (B := B) (A := A) x).
Proof. intros w Hw. exact Hw. Qed.

Lemma kept_bind {T U} (m : M B A T) (f : T -> M B A U) :
  keeps_header k v m -> (forall t, keeps_header k v (f t)) -> keeps_header k v (bind m f).
Proof.
  intros Hm Hf w Hw. unfold bind. specialize (Hm w Hw).
  destruct (m w) as [[t | msg] w']; simpl in *; [| done].
  by apply Hf.
Qed.

Lemma kept_header_Set key value :
  CanonicalHeaderKey key <> k -> keeps_header k v (header_Set (B := B) (A := A) key value).
Proof.
  intros Hne [[h wr b] l st a c ks o] [Hlive Hsent]. simpl in *.
  unfold has_header, sent_header, Header_Set in *. simpl in *.
  split; [by rewrite lookup_insert_ne |].
  destruct wr as [[code h'] |]; [done | by rewrite lookup_insert_ne].
Qed.

Lemma kept_SetCookie cookie :
  CanonicalHeaderKey "Set-Cookie" <> k -> keeps_header k v (http_SetCookie (B := B) (A := A) lib cookie).
Proof.
  intros Hne [[h wr b] l st a c ks o] [Hlive Hsent]. unfold http_SetCookie.
  destruct (String.eqb (Cookie_String lib cookie) ""); [done |].
  unfold has_header, sent_header, Header_Add in *. simpl in *.
  split; [by rewrite lookup_insert_ne |].
  destruct wr as [[code h'] |]; [done | by rewrite lookup_insert_ne].
Qed.

Lemma kept_WriteHeader code : keeps_header k v (WriteHeader (B := B) (A := A) code).
Proof.
  intros [[h wr b] l st a c ks o] [Hlive Hsent]. unfold WriteHeader. simpl in *.
  destruct wr as [[code' h'] |]; [done |].
  by destruct ((code <? 100) || (code >? 999)), (informational code).
Qed.

Lemma kept_append data :
  keeps_header k v (with_resp (B := B) (A := A)
                      (fun rw => if bodyAllowedForStatus (status rw)
                                 then mkResponseWriter (rw_header rw) (rw_wrote rw)
                                                       (rw_body rw ++ data)
                                 else rw)).
Proof.
  intros [[h wr b] l st a c ks o] [Hlive Hsent]. unfold with_resp. simpl.
  by destruct (bodyAllowedForStatus _).
Qed.

Lemma kept_Write data : keeps_header k v (Write_ (B := B) (A := A) data).
Proof. apply kept_bind; [apply kept_WriteHeader | intros _; apply kept_append]. Qed.

Lemma kept_io_Copy data : keeps_header k v (io_Copy (B := B) (A := A) data).
Proof. unfold io_Copy. destruct (String.eqb data ""); [apply kept_ret | apply kept_Write]. Qed.

Lemma kept_call {T} c (f : B -> T * B) : keeps_header k v (call (A := A) c f).
Proof. intros w Hw. unfold call. by destruct (f (store w)). Qed.

Lemma kept_with_auth {T} (f : A -> T * A) : keeps_header k v (with_auth (B := B) f).
Proof. intros w Hw. unfold with_auth. by destruct (f (authst w)). Qed.

Lemma kept_get_loginHtml : keeps_header k v (get_loginHtml (B := B) (A := A)).
Proof. intros w Hw. exact Hw. Qed.

Lemma kept_CanRead token path : keeps_header k v (auth_CanRead s token path).
Proof. intros w Hw. exact Hw. Qed.

Lemma kept_CanWrite token path : keeps_header k v (auth_CanWrite s token path).
Proof. intros w Hw. exact Hw. Qed.

Lemma kept_Println line : keeps_header k v (Println (B := B) (A := A) line).
Proof. intros w Hw. exact Hw. Qed.

(** The header is none of those the handlers set. *)
Hypothesis other :
  Forall (fun key => CanonicalHeaderKey key <> k)
    ["WWW-Authenticate"; "Content-Type"; "Content-Length"; "Content-Range";
     "Accept-Ranges"; "Content-Disposition"; "Set-Cookie"].

Lemma other_key key :
  In key ["WWW-Authenticate"; "Content-Type"; "Content-Length"; "Content-Range";
          "Accept-Ranges"; "Content-Disposition"; "Set-Cookie"] ->
  CanonicalHeaderKey key <> k.
Proof. intros Hin. by apply (proj1 (List.Forall_forall _ _) other). Qed.

Hint Resolve kept_ret kept_lift kept_WriteHeader kept_Write kept_io_Copy kept_call
  kept_with_auth kept_get_loginHtml kept_CanRead kept_CanWrite kept_Println : kept.

Ltac kept :=
  repeat first
    [ progress eauto with kept
    | apply kept_bind; [| intros ?]
    | apply kept_header_Set; apply other_key; simpl; tauto
    | apply kept_SetCookie; apply other_key; simpl; tauto
    | match goal with
      | |- keeps_header _ _ (match ?x with _ => _ end) => destruct x
      end ].

Lemma kept_sendLoginPage r : keeps_header k v (sendLoginPage (B := B) (A := A) r).
Proof. unfold sendLoginPage. kept. Qed.

Lemma kept_handleHead r p : keeps_header k v (handleHead lib s r p).
Proof.
  pose proof (kept_sendLoginPage r).
  unfold handleHead, backend_List, write_backend_error. kept.
Qed.

Lemma kept_serveItem r p : keeps_header k v (serveItem lib s r p).
Proof.
  pose proof (kept_sendLoginPage r).
  unfold serveItem, serveDir, serveFile, backend_Read, write_backend_error. kept.
Qed.

Lemma kept_handlePut r p : keeps_header k v (handlePut s r p).
Proof.
  pose proof (kept_sendLoginPage r).
  unfold handlePut, backend_MakeDir, backend_Write. kept.
Qed.

Lemma kept_handlePatch r p : keeps_header k v (handlePatch lib s r p).
Proof.
  pose proof (kept_sendLoginPage r).
  unfold handlePatch, backend_Write. kept.
Qed.

Lemma kept_handleDelete r p : keeps_header k v (handleDelete s r p).
Proof.
  pose proof (kept_sendLoginPage r).
  unfold handleDelete, backend_Delete. kept.
Qed.

Lemma kept_handleGemDriveRequest r p : keeps_header k v (handleGemDriveRequest lib s r p).
Proof.
  pose proof (kept_sendLoginPage r).
  unfold handleGemDriveRequest, authorize, backend_List, backend_GetImage,
    write_backend_error. kept.
Qed.

End Kept.

Hint Resolve kept_ret kept_lift kept_WriteHeader kept_Write kept_io_Copy kept_call
  kept_with_auth kept_get_loginHtml kept_CanRead kept_CanWrite kept_Println : kept.

(** Lookups in a map built by inserts at names that are written out. *)
Ltac insert_lookup :=
  repeat first [ rewrite lookup_insert_eq | rewrite lookup_insert_ne by discriminate ].

(** For a header name that is written out. *)
Ltac kept_closed :=
  repeat first
    [ progress eauto with kept
    | apply kept_bind; [| intros ?]
    | apply kept_header_Set; vm_compute; discriminate
    | match goal with
      | |- keeps_header _ _ (match ?x with _ => _ end) => destruct x
      end ].

(** X19.  Once the login page is loaded, every response of the handler of
    [Run] carries the three CORS headers with the value [*], whatever the
    method, the path and the outcome: no handler takes them away or sends
    the header before they are set. *)
Theorem every_response_has_cors r w box html key :
  rice_FindBox lib "files" = inl box ->
  Box_Bytes lib box "login.html" = (html, None) ->
  rw_wrote (resp w) = None ->
  In key cors_headers ->
  has_header key ["*"] (response (Run_handler lib s r) w).
Proof.
  intros Hbox Hbytes Hw Hkey. unfold response.
  destruct (String.eqb (Method r) "OPTIONS") eqn:Hm.
  - apply String.eqb_eq in Hm.
    rewrite (options_short_circuit r w box html Hbox Hbytes Hm).
    unfold has_header, sent_header. simpl. rewrite Hw.
    destruct Hkey as [<- | [<- | [<- | []]]]; insert_lookup; done.
  - apply String.eqb_neq in Hm.
    rewrite (Run_handler_loaded r w box html Hbox Hbytes Hm).
    assert (Hother : Forall (fun name => CanonicalHeaderKey name <> key)
              ["WWW-Authenticate"; "Content-Type"; "Content-Length"; "Content-Range";
               "Accept-Ranges"; "Content-Disposition"; "Set-Cookie"]).
    { destruct Hkey as [<- | [<- | [<- | []]]];
        repeat constructor; vm_compute; discriminate. }
    assert (Hstart : has_header key ["*"] (resp (prepared lib s html r w))).
    { unfold has_header, sent_header, prepared, Header_Set. simpl. rewrite Hw.
      change (CanonicalHeaderKey "Content-Type") with "Content-Type".
      destruct Hkey as [<- | [<- | [<- | []]]]; insert_lookup; done. }
    revert Hstart. generalize (prepared lib s html r w). intros w' Hstart.
    destruct (length (Strings.Split (request_path s r) "gemdrive/") =? 2)%nat;
      [by apply kept_handleGemDriveRequest |].
    destruct (String.eqb (Method r) "HEAD"); [by apply kept_handleHead |].
    destruct (String.eqb (Method r) "GET"); [by apply kept_serveItem |].
    destruct (String.eqb (Method r) "PUT"); [by apply kept_handlePut |].
    destruct (String.eqb (Method r) "PATCH"); [by apply kept_handlePatch |].
    destruct (String.eqb (Method r) "DELETE"); [by apply kept_handleDelete |].
    exact Hstart.
Qed.

(** X20.  Every response of [serveFile], the error responses included,
    carries [Accept-Ranges: bytes], and with [download=true] in the query
    also [Content-Disposition: attachment]. *)
Theorem file_responses_accept_ranges r p w :
  rw_wrote (resp w) = None ->
  has_header "Accept-Ranges" ["bytes"] (response (serveFile lib s r p) w)
  /\ (Values_Get (URL_Query r) "download" = "true" ->
      has_header "Content-Disposition" ["attachment"] (response (serveFile lib s r p) w)).
Proof.
  intros Hw.
  assert (Hrun : exists rest : M B A unit,
    serveFile lib s r p w = rest (serving r w)
    /\ (forall key value, CanonicalHeaderKey "Content-Range" <> key ->
          CanonicalHeaderKey "Content-Length" <> key -> keeps_header key value rest)).
  { destruct (String.eqb (Header_Get (Header r) "Range") "") eqn:Hrange.
    - apply String.eqb_eq in Hrange. eexists. split; [by apply serveFile_whole |].
      intros key value Hcr Hcl. unfold backend_Read, write_backend_error.
      repeat first
        [ progress eauto with kept | apply kept_bind; [| intros ?]
        | by apply kept_header_Set
        | match goal with
          | |- keeps_header _ _ (match ?x with _ => _ end) => destruct x
          end ].
    - apply String.eqb_neq in Hrange.
      destruct (parseRange lib (Header_Get (Header r) "Range")) as [rg | err] eqn:Hp.
      + eexists. split; [by apply serveFile_ranged |].
        intros key value Hcr Hcl. unfold backend_Read, write_backend_error. cbv zeta.
        repeat first
          [ progress eauto with kept | apply kept_bind; [| intros ?]
          | by apply kept_header_Set
          | match goal with
            | |- keeps_header _ _ (match ?x with _ => _ end) => destruct x
            end ].
      + eexists. split; [by apply serveFile_malformed |].
        intros key value Hcr Hcl. kept_closed. }
  destruct Hrun as (rest & Heq & Hkeeps). unfold response. rewrite Heq.
  split.
  - apply Hkeeps; [vm_compute; discriminate | vm_compute; discriminate |].
    unfold has_header, sent_header, serving, file_header, Header_Set. simpl. rewrite Hw.
    change (CanonicalHeaderKey "Accept-Ranges") with "Accept-Ranges".
    change (CanonicalHeaderKey "Content-Disposition") with "Content-Disposition".
    destruct (String.eqb (Values_Get (URL_Query r) "download") "true");
      insert_lookup; done.
  - intros Hd. apply Hkeeps; [vm_compute; discriminate | vm_compute; discriminate |].
    unfold has_header, sent_header, serving, file_header, Header_Set. simpl.
    rewrite Hw, Hd.
    change (CanonicalHeaderKey "Content-Disposition") with "Content-Disposition".
    cbn [String.eqb Ascii.eqb Bool.eqb]. by rewrite lookup_insert_eq.
Qed.

(** ** The method in meta-protocol mode *)

Lemma handleGemDriveRequest_reads_only r p w :
  exists cs ks,
    calls (snd (handleGemDriveRequest lib s r p w)) = (calls w ++ cs)%list
    /\ checks (snd (handleGemDriveRequest lib s r p w)) = (checks w ++ ks)%list
    /\ (length cs <= 1)%nat
    /\ Forall (fun c => is_meta_call c = true) cs
    /\ Forall (fun k => exists token path, k = CheckRead token path) ks.
Proof.
  assert (Hnone : forall x, handleGemDriveRequest lib s r p w = (x, w) ->
    exists cs ks,
      calls (snd (handleGemDriveRequest lib s r p w)) = (calls w ++ cs)%list
      /\ checks (snd (handleGemDriveRequest lib s r p w)) = (checks w ++ ks)%list
      /\ (length cs <= 1)%nat
      /\ Forall (fun c => is_meta_call c = true) cs
      /\ Forall (fun k => exists token path, k = CheckRead token path) ks).
  { intros x ->. exists [], []. rewrite !app_nil_r.
    repeat split; [simpl; lia | constructor | constructor]. }
  destruct (extractToken r) as [[token e] | msg] eqn:Ht.
  2: { apply (Hnone (Panic msg)).
       unfold handleGemDriveRequest, bind, lift. by rewrite Ht. }
  destruct (index (Strings.Split p "gemdrive/") 0) as [gemPath | msg] eqn:H0.
  2: { apply (Hnone (Panic msg)).
       unfold handleGemDriveRequest, bind, lift. cbv zeta. by rewrite Ht, H0. }
  destruct (index (Strings.Split p "gemdrive/") 1) as [gemReq | msg] eqn:H1.
  2: { apply (Hnone (Panic msg)).
       unfold handleGemDriveRequest, bind, lift. cbv zeta. by rewrite Ht, H0, H1. }
  destruct (String.eqb gemReq "authorize") eqn:Ha.
  - assert (Heq : handleGemDriveRequest lib s r p w = authorize lib s r w).
    { unfold handleGemDriveRequest, bind, lift. cbv zeta. by rewrite Ht, H0, H1, Ha. }
    destruct (silent_authorize r w) as [Hc Hk].
    rewrite Heq, Hc, Hk. exists [], []. rewrite !app_nil_r.
    repeat split; [simpl; lia | constructor | constructor].
  - edestruct (covered (fun c => is_meta_call c = true)
                 (handleGemDriveRequest lib s r p) r (CheckRead token gemPath)
                 (CanRead (auth s) token gemPath (authst w)))
      as (cs & Hcs & Hks & Hone & _ & HP).
    + unfold handleGemDriveRequest, bind at 1, lift. cbv zeta. rewrite Ht.
      unfold bind at 1. rewrite H0. unfold bind at 1. rewrite H1, Ha.
      unfold bind at 1, auth_CanRead. cbn beta iota. cbn [fst]. reflexivity.
    + unfold backend_List, backend_GetImage. one_call.
    + exists cs, [CheckRead token gemPath]. repeat split; try done.
      constructor; [by eexists _, _ | constructor].
Qed.

(** X21.  A request in meta-protocol mode calls none of [Read], [Write],
    [MakeDir] and [Delete], whatever its method: it makes at most one backend
    call, which is a call of [List] or of [GetImage], and the only capability
    it checks is [CanRead]. *)
Theorem meta_mode_never_writes r w box html :
  rice_FindBox lib "files" = inl box ->
  Box_Bytes lib box "login.html" = (html, None) ->
  length (Strings.Split (request_path s r) "gemdrive/") = 2%nat ->
  exists cs ks,
    calls_of (Run_handler lib s r) w = (calls w ++ cs)%list
    /\ checks_of (Run_handler lib s r) w = (checks w ++ ks)%list
    /\ (length cs <= 1)%nat
    /\ Forall (fun c => (exists path depth, c = CallList path depth)
                        \/ (exists path size, c = CallGetImage path size)) cs
    /\ Forall (fun k => exists token path, k = CheckRead token path) ks.
Proof.
  intros Hbox Hbytes Hlen. unfold calls_of, checks_of.
  destruct (String.eqb (Method r) "OPTIONS") eqn:Hm.
  - apply String.eqb_eq in Hm.
    rewrite (options_short_circuit r w box html Hbox Hbytes Hm).
    exists [], []. rewrite !app_nil_r.
    repeat split; [simpl; lia | constructor | constructor].
  - apply String.eqb_neq in Hm.
    rewrite (Run_handler_meta r w box html Hbox Hbytes Hm Hlen).
    destruct (handleGemDriveRequest_reads_only r (request_path s r)
                (prepared lib s html r w)) as (cs & ks & Hcs & Hks & Hone & Hmeta & Hread).
    exists cs, ks. repeat split; try done.
    eapply Forall_impl; [exact Hmeta |].
    intros [path depth | path offset len | path source offset len ov tr | path rec
           | path rec | path size] Hc; simpl in Hc; try discriminate.
    + left. by exists path, depth.
    + right. by exists path, size.
Qed.

(** ** The standalone server *)

(** X22.  For a request that passes the read check and does not ask for a
    download, [serveItem] of [main.go] does what [serveFile] of [server.go]
    does on the URL's path: the same call of [Read], the same status, headers
    and body.  It does so for a path that ends in a slash too: the
    standalone server has no [index.html] rule. *)
Theorem standalone_serves_like_library (g : Cmd.GemDriveServer B A K) r w token e :
  extractToken r = Done (token, e) ->
  CanRead (Cmd.auth g) token (URL_Path r) (authst w) = true ->
  Values_Get (URL_Query r) "download" <> "true" ->
  Cmd.serveItem lib g r w
    = serveFile lib (as_server g) r (URL_Path r) (checked (CheckRead token (URL_Path r)) w).
Proof.
  intros Ht Hc Hd%String.eqb_neq.
  unfold Cmd.serveItem, bind at 1, lift. rewrite Ht.
  unfold bind at 1, Cmd.auth_CanRead. cbn beta iota. cbn [fst]. rewrite Hc.
  unfold serveFile. rewrite Hd. reflexivity.
Qed.

(** X23.  A request that the standalone server denies is answered with 403
    and the [WWW-Authenticate] challenge like in the library, but the body
    is the text "Unauthorized", not the login page, and the content type is
    left alone; [Read] is not called. *)
Theorem standalone_denial (g : Cmd.GemDriveServer B A K) r w token e :
  extractToken r = Done (token, e) ->
  CanRead (Cmd.auth g) token (URL_Path r) (authst w) = false ->
  rw_wrote (resp w) = None ->
  returns (Cmd.serveItem lib g r) w
  /\ status (response (Cmd.serveItem lib g r) w) = 403
  /\ rw_body (response (Cmd.serveItem lib g r) w) = rw_body (resp w) ++ "Unauthorized"
  /\ sent_header (response (Cmd.serveItem lib g r) w)
       = Header_Set "WWW-Authenticate" emauth_challenge (rw_header (resp w))
  /\ calls_of (Cmd.serveItem lib g r) w = calls w
  /\ checks_of (Cmd.serveItem lib g r) w = (checks w ++ [CheckRead token (URL_Path r)])%list.
Proof.
  intros Ht Hc Hw. unfold returns, response, calls_of, checks_of.
  assert (Heq : Cmd.serveItem lib g r w
                = (header_Set "WWW-Authenticate" emauth_challenge ;;;
                   WriteHeader 403 ;;; Write_ "Unauthorized")
                    (checked (CheckRead token (URL_Path r)) w)).
  { unfold Cmd.serveItem, bind at 1, lift. rewrite Ht.
    unfold bind at 1, Cmd.auth_CanRead. cbn beta iota. cbn [fst]. by rewrite Hc. }
  rewrite Heq. destruct w as [[h wr b] l st a c k o]; simpl in *; subst wr.
  done.
Qed.

(** ** Handlers that return *)

Create HintDb total.

Lemma total_ret {T} (t : T) : total (ret (B := B) (A := A) t).
Proof. intros w. by exists t. Qed.

Lemma total_lift {T} (t : T) : total (lift (B := B) (A := A) (Done t)).
Proof. intros w. by exists t. Qed.

Lemma total_bind {T U} (m : M B A T) (f : T -> M B A U) :
  total m -> (forall t, total (f t)) -> total (bind m f).
Proof.
  intros Hm Hf w. unfold bind. destruct (Hm w) as [t Ht].
  destruct (m w) as [[t' | msg] w']; simpl in *; [| done].
  apply Hf.
Qed.

Lemma total_bind_call {T U} c (f : B -> T * B) (g : T -> M B A U) :
  (forall st, total (g (fst (f st)))) -> total (bind (call c f) g).
Proof. intros Hg w. rewrite bind_call_run. apply Hg. Qed.

Lemma total_bind_lift {T U} (x : T) (g : T -> M B A U) :
  total (g x) -> total (bind (lift (Done x)) g).
Proof. intros Hg w. rewrite bind_lift_done. apply Hg. Qed.

Lemma total_with_resp f : total (with_resp (B := B) (A := A) f).
Proof. intros w. by exists tt. Qed.

Lemma total_WriteHeader code :
  100 <= code <= 999 -> total (WriteHeader (B := B) (A := A) code).
Proof.
  intros Hcode w. unfold WriteHeader. destruct (rw_wrote (resp w)); [by exists tt |].
  replace ((code <? 100) || (code >? 999)) with false;
    [destruct (informational code); by exists tt |].
  symmetry. apply orb_false_iff. rewrite Z.gtb_ltb. split; apply Z.ltb_ge; lia.
Qed.

Lemma total_Write data : total (Write_ (B := B) (A := A) data).
Proof.
  apply total_bind; [apply total_WriteHeader; lia | intros _; apply total_with_resp].
Qed.

Lemma total_io_Copy data : total (io_Copy (B := B) (A := A) data).
Proof. unfold io_Copy. destruct (String.eqb data ""); [apply total_ret | apply total_Write]. Qed.

Lemma total_with_auth {T} (f : A -> T * A) : total (with_auth (B := B) f).
Proof. intros w. unfold with_auth. destruct (f (authst w)). by eexists. Qed.

Lemma total_get_loginHtml : total (get_loginHtml (B := B) (A := A)).
Proof. intros w. by eexists. Qed.

Lemma total_set_loginHtml html : total (set_loginHtml (B := B) (A := A) html).
Proof. intros w. by eexists. Qed.

Lemma total_Println line : total (Println (B := B) (A := A) line).
Proof. intros w. by eexists. Qed.

Lemma total_CanRead token path : total (auth_CanRead s token path).
Proof. intros w. by eexists. Qed.

Lemma total_CanWrite token path : total (auth_CanWrite s token path).
Proof. intros w. by eexists. Qed.

Lemma total_write_backend_error err :
  valid_error err -> total (write_backend_error (B := B) (A := A) err).
Proof.
  intros Hvalid. unfold write_backend_error.
  destruct (as_Error err) as [e |] eqn:He.
  - apply total_bind; [apply total_WriteHeader; by apply Hvalid | intros _; apply total_Write].
  - apply total_bind; [apply total_WriteHeader; lia | intros _; apply total_Write].
Qed.

Hint Resolve total_ret total_lift total_with_resp total_Write total_io_Copy
  total_with_auth total_get_loginHtml total_set_loginHtml total_Println total_CanRead
  total_CanWrite : total.

Ltac total :=
  repeat first
    [ progress eauto with total
    | apply total_WriteHeader; lia
    | apply total_bind_call; intros ?
    | apply total_bind; [| intros ?]
    | match goal with
      | |- total (match ?x with _ => _ end) => destruct x eqn:?
      end ].

Lemma total_sendLoginPage r : total (sendLoginPage (B := B) (A := A) r).
Proof. unfold sendLoginPage, header_Set. total. Qed.

Lemma total_authorize r : total (authorize lib s r).
Proof. unfold authorize, http_SetCookie. total. Qed.

Hint Resolve total_sendLoginPage total_authorize : total.

Section Returns.

Hypothesis valid : valid_backend (backend s).

Lemma total_after_List path depth st (f : Item -> M B A unit) :
  (forall item, total (f item)) ->
  total (match fst (List (backend s) path depth st) with
         | inr err => write_backend_error err
         | inl item => f item
         end).
Proof.
  intros Hf. destruct (List (backend s) path depth st) as [[item | err] st'] eqn:Hl.
  - apply Hf.
  - apply total_write_backend_error. by eapply (proj1 valid).
Qed.

Lemma total_after_Read path offset length st (f : Item -> string -> M B A unit) :
  (forall item data, total (f item data)) ->
  total (match fst (Read (backend s) path offset length st) with
         | inr err => write_backend_error err
         | inl (item, data) => f item data
         end).
Proof.
  intros Hf.
  destruct (Read (backend s) path offset length st) as [[[item data] | err] st'] eqn:Hr.
  - apply Hf.
  - apply total_write_backend_error. by eapply (proj2 valid).
Qed.

Lemma total_handleHead r p tok :
  extractToken r = Done tok -> total (handleHead lib s r p).
Proof.
  intros Ht. unfold handleHead. rewrite Ht.
  apply total_bind; [apply total_lift | intros ?].
  apply total_bind; [apply total_CanRead | intros ok].
  destruct (negb ok); [apply total_sendLoginPage |].
  unfold backend_List. apply total_bind_call. intros st.
  apply total_after_List. intros item. unfold header_Set. total.
Qed.

Lemma total_serveItem r p tok :
  extractToken r = Done tok -> total (serveItem lib s r p).
Proof.
  intros Ht. unfold serveItem. rewrite Ht.
  apply total_bind; [apply total_lift | intros ?].
  apply total_bind; [apply total_CanRead | intros ok].
  destruct (negb ok); [apply total_sendLoginPage |].
  destruct (Strings.HasSuffix p "/").
  - unfold serveDir, backend_Read. total.
  - unfold serveFile, header_Set.
    apply total_bind; [apply total_with_resp | intros _].
    apply total_bind; [destruct (String.eqb _ "true"); total | intros _].
    match goal with |- total (match ?x with _ => _ end) => destruct x as [[[rang offset] len] | err] end;
      [| total].
    unfold backend_Read. apply total_bind_call. intros st.
    apply total_after_Read. intros item data. total.
Qed.

Lemma total_handlePut r p tok :
  extractToken r = Done tok -> total (handlePut s r p).
Proof.
  intros Ht. unfold handlePut. rewrite Ht.
  apply total_bind; [apply total_lift | intros ?].
  unfold backend_MakeDir, backend_Write. total.
Qed.

Lemma total_handlePatch r p tok :
  extractToken r = Done tok -> total (handlePatch lib s r p).
Proof.
  intros Ht. unfold handlePatch. rewrite Ht.
  apply total_bind; [apply total_lift | intros ?].
  unfold backend_Write. total.
Qed.

Lemma total_handleDelete r p tok :
  extractToken r = Done tok -> total (handleDelete s r p).
Proof.
  intros Ht. unfold handleDelete. rewrite Ht.
  apply total_bind; [apply total_lift | intros ?].
  unfold backend_Delete. total.
Qed.

Lemma total_handleGemDriveRequest r p tok gemPath gemReq :
  extractToken r = Done tok ->
  Strings.Split p "gemdrive/" = [gemPath; gemReq] ->
  asImageServer (backend s) = None
    \/ head (Strings.Split gemReq "/") <> Some "images"
    \/ (3 <= length (Strings.Split gemReq "/"))%nat ->
  total (handleGemDriveRequest lib s r p).
Proof.
  intros Ht Hsplit Himg. unfold handleGemDriveRequest. rewrite Ht, Hsplit.
  cbv zeta. cbn [index lookup list_lookup].
  do 3 apply total_bind_lift. cbn [fst].
  destruct (String.eqb gemReq "authorize"); [apply total_authorize |].
  apply total_bind; [apply total_CanRead | intros ok].
  destruct (negb ok); [apply total_sendLoginPage |].
  destruct (String.eqb gemReq "meta.json").
  - match goal with |- total (match ?x with _ => _ end) => destruct x as [depth | err] end;
      [| total].
    unfold backend_List. apply total_bind_call. intros st.
    apply total_after_List. intros item. total.
  - pose proof (split_scan_nonempty "/" 0 gemReq) as Hnil.
    change (Strings.split_scan "/" 0 gemReq) with (Strings.Split gemReq "/") in Hnil.
    destruct (Strings.Split gemReq "/") as [| first parts]; [done |].
    cbn [index lookup list_lookup]. apply total_bind_lift.
    destruct (String.eqb first "images") eqn:Hfirst; [| apply total_ret].
    apply String.eqb_eq in Hfirst as ->.
    destruct (asImageServer (backend s)) as [b |]; [| apply total_ret].
    destruct Himg as [? | [Hhead | Hlen]]; [done | done |].
    destruct parts as [| sizeText [| filename rest]]; [simpl in Hlen; lia .. |].
    cbn [index lookup list_lookup]. apply total_bind_lift.
    destruct (Atoi lib sizeText); [| total].
    apply total_bind_lift.
    unfold backend_GetImage. total.
Qed.

End Returns.

(** X24.  The handler of [Run] returns, for every request from which a
    token can be extracted, on a backend whose [List] and [Read]
    fail only with errors whose code [WriteHeader] accepts, unless the
    request is an [images] operation with fewer than three parts on an
    [ImageServer] backend, which panics. *)
Theorem handler_returns r w tok :
  valid_backend (backend s) ->
  extractToken r = Done tok ->
  (forall gemPath gemReq,
     Strings.Split (request_path s r) "gemdrive/" = [gemPath; gemReq] ->
     asImageServer (backend s) = None
     \/ head (Strings.Split gemReq "/") <> Some "images"
     \/ (3 <= length (Strings.Split gemReq "/"))%nat) ->
  returns (Run_handler lib s r) w.
Proof.
  intros Hvalid Ht Himg.
  assert (Htotal : total (Run_handler lib s r)).
  { unfold Run_handler.
    destruct (rice_FindBox lib "files") as [box | err]; [| total].
    destruct (Box_Bytes lib box "login.html") as [html [err |]]; [total |].
    apply total_bind; [apply total_set_loginHtml | intros _].
    unfold header_assign, header_Set.
    do 3 (apply total_bind; [apply total_with_resp | intros _]).
    destruct (String.eqb (Method r) "OPTIONS"); [apply total_ret |].
    apply total_bind; [apply total_Println | intros _].
    apply total_bind; [apply total_with_resp | intros _].
    destruct (length (Strings.Split (request_path s r) "gemdrive/") =? 2)%nat eqn:Hlen.
    - apply Nat.eqb_eq in Hlen.
      destruct (Strings.Split (request_path s r) "gemdrive/")
        as [| gemPath [| gemReq [| ? ?]]] eqn:Hsplit; try done.
      apply (total_handleGemDriveRequest Hvalid r _ tok gemPath gemReq Ht Hsplit).
      exact (Himg gemPath gemReq eq_refl).
    - destruct (String.eqb (Method r) "HEAD"); [by eapply total_handleHead |].
      destruct (String.eqb (Method r) "GET"); [by eapply total_serveItem |].
      destruct (String.eqb (Method r) "PUT"); [by eapply total_handlePut |].
      destruct (String.eqb (Method r) "PATCH"); [by eapply total_handlePatch |].
      destruct (String.eqb (Method r) "DELETE"); [by eapply total_handleDelete |].
      apply total_ret. }
  unfold returns. destruct (Htotal w) as [[] Hdone]. exact Hdone.
Qed.

End Claims.

(** * The properties on the example server *)

(** An anonymous GET is denied: 403, the login page, no backend call. *)
Lemma denied_direct_request_witness :
  denied Demo.server Demo.get_anonymous "/docs/a.txt" tt
  /\ status (response (Run_handler Demo.lib Demo.server Demo.get_anonymous) Demo.world) = 403
  /\ rw_body (response (Run_handler Demo.lib Demo.server Demo.get_anonymous) Demo.world)
       = Demo.login_page
  /\ calls_of (Run_handler Demo.lib Demo.server Demo.get_anonymous) Demo.world = [].
Proof.
  assert (Hd : denied Demo.server Demo.get_anonymous "/docs/a.txt" tt).
  { exists "", (Some (errors_New "No token found")).
    split; [reflexivity |]. left. split; [right |]; reflexivity. }
  split; [exact Hd |].
  destruct (denied_direct_request Demo.lib Demo.server Demo.get_anonymous Demo.world tt
              Demo.login_page) as (_ & Hstatus & Hbody & _ & Hcalls & _).
  - reflexivity.
  - reflexivity.
  - reflexivity.
  - vm_compute. discriminate.
  - exact Hd.
  - exact (conj Hstatus (conj Hbody Hcalls)).
Defined.

(** C2.  DELETE without [recursive] of a directory that holds a file: the
    backend reports the structured error 400 "Directory not empty", and the
    response has status 500, not 400.  The structured error 404 of [Read]
    for a file that does not exist, in contrast, reaches the client as 404. *)
Theorem delete_nonempty_directory_is_500 :
  Delete Demo.writable "/docs/dir/" false Demo.files
    = (Some (Demo.structured 400 "Directory not empty"), Demo.files)
  /\ returns (Run_handler Demo.lib Demo.server Demo.delete_dir) Demo.world
  /\ calls_of (Run_handler Demo.lib Demo.server Demo.delete_dir) Demo.world
       = [CallDelete "/docs/dir/" false]
  /\ status (response (Run_handler Demo.lib Demo.server Demo.delete_dir) Demo.world) = 500
  /\ rw_body (response (Run_handler Demo.lib Demo.server Demo.delete_dir) Demo.world)
       = "Directory not empty"
  /\ Read Demo.memory "/docs/missing.txt" 0 0 Demo.files
       = (inr (Demo.structured 404 "Not found"), Demo.files)
  /\ status (response (Run_handler Demo.lib Demo.server Demo.get_missing) Demo.world) = 404.
Proof.
  split; [reflexivity |].
  assert (Hrun : Run_handler Demo.lib Demo.server Demo.delete_dir Demo.world
                 = handleDelete Demo.server Demo.delete_dir "/docs/dir/"
                     (prepared Demo.lib Demo.server Demo.login_page Demo.delete_dir
                               Demo.world)).
  { destruct (Run_handler_direct Demo.lib Demo.server Demo.delete_dir Demo.world tt
                Demo.login_page) as (_ & _ & _ & _ & Hdelete);
      [reflexivity | reflexivity | vm_compute; discriminate |].
    by apply Hdelete. }
  destruct (handleDelete_error Demo.server Demo.delete_dir "/docs/dir/"
              (prepared Demo.lib Demo.server Demo.login_page Demo.delete_dir Demo.world)
              "writer" None Demo.writable
              (Demo.structured 400 "Directory not empty") Demo.files)
    as [Hstatus Hbody]; try reflexivity.
  unfold returns, calls_of, response. rewrite Hrun.
  split; [reflexivity |]. split; [reflexivity |].
  split; [exact Hstatus |]. split; [exact Hbody |].
  split; [reflexivity |]. vm_compute. reflexivity.
Qed.



(** A header whose start is no integer, and a header without a value. *)
Lemma malformed_range_is_500_witness :
  (forall start end_, ~ range_grammar "bytes=abc-" start end_)
  /\ status (response (Run_handler Demo.lib Demo.server (Demo.get_range "bytes=abc-"))
                      Demo.world) = 500
  /\ calls_of (Run_handler Demo.lib Demo.server (Demo.get_range "bytes=abc-")) Demo.world
       = []
  /\ status (response (serveFile Demo.lib Demo.server (Demo.get_range "") "/docs/a.txt")
                      Demo.world) = 200
  /\ calls_of (serveFile Demo.lib Demo.server (Demo.get_range "") "/docs/a.txt") Demo.world
       = [CallRead "/docs/a.txt" 0 0].
Proof.
  assert (Hno : forall start end_, ~ range_grammar "bytes=abc-" start end_).
  { intros start end_ Hg.
    destruct (malformed_range_is_500 Demo.lib Demo.server) as (Hgrammar & _).
    apply (Hgrammar "bytes=abc-" (mkHttpRange start end_)) in Hg.
    vm_compute in Hg. discriminate. }
  split; [exact Hno |].
  destruct (malformed_range_is_500 Demo.lib Demo.server) as (_ & _ & Hget & Hempty).
  destruct (Hempty (Demo.get_range "") "/docs/a.txt" Demo.world (mkItem 100 ∅)
              Demo.hundred_bytes Demo.files)
    as (_ & _ & Hstatus' & _ & Hcalls'); [reflexivity | reflexivity | reflexivity |].
  destruct (Hget (Demo.get_range "bytes=abc-") Demo.world tt Demo.login_page "reader" None)
    as (_ & Hstatus & Hcalls);
    [reflexivity | reflexivity | reflexivity | reflexivity | vm_compute; discriminate
    | reflexivity | reflexivity | reflexivity | vm_compute; discriminate | exact Hno |].
  exact (conj Hstatus (conj Hcalls (conj Hstatus' Hcalls'))).
Defined.

(** C4, as stated, fails for a [Range] header whose value is empty: the
    request carries the header, its value is not of the grammar, yet the GET
    is answered with 200, not with a 500-class status, and the whole file is
    read. *)
Lemma empty_range_counterexample :
  Header (Demo.get_range "") !! "Range" = Some [""]
  /\ (forall start end_,
        ~ range_grammar (Header_Get (Header (Demo.get_range "")) "Range") start end_)
  /\ status (response (Run_handler Demo.lib Demo.server (Demo.get_range "")) Demo.world)
       = 200
  /\ ~ (500 <= status (response (Run_handler Demo.lib Demo.server (Demo.get_range ""))
                                Demo.world) <= 599)
  /\ calls_of (Run_handler Demo.lib Demo.server (Demo.get_range "")) Demo.world
       = [CallRead "/docs/a.txt" 0 0].
Proof.
  split; [reflexivity |].
  split; [intros start end_; exact (empty_not_of_grammar start end_) |].
  assert (Hstatus : status (response (Run_handler Demo.lib Demo.server (Demo.get_range ""))
                                     Demo.world) = 200) by reflexivity.
  split; [exact Hstatus |]. split; [rewrite Hstatus; lia | reflexivity].
Qed.

(** The query parameter wins over the header and the cookie, and the
    anonymous request is checked with the empty token. *)
Lemma extractToken_priority_witness :
  extractToken Demo.get_three_tokens = Done ("reader", None)
  /\ extractToken
       (Demo.request "GET" "/docs/a.txt" [] [("Authorization", ["Bearer writer"])]
                     [("access_token", "other")] 0 "") = Done ("writer", None)
  /\ extractToken
       (Demo.request "GET" "/docs/a.txt" [] [] [("access_token", "other")] 0 "")
     = Done ("other", None)
  /\ checks_of (serveItem Demo.lib Demo.server Demo.get_anonymous "/docs/a.txt") Demo.world
     = [CheckRead "" "/docs/a.txt"].
Proof.
  destruct (extractToken_priority Demo.lib Demo.server Demo.get_three_tokens)
    as (Hquery & _).
  destruct (extractToken_priority Demo.lib Demo.server
              (Demo.request "GET" "/docs/a.txt" [] [("Authorization", ["Bearer writer"])]
                            [("access_token", "other")] 0 ""))
    as (_ & Hheader & _).
  destruct (extractToken_priority Demo.lib Demo.server
              (Demo.request "GET" "/docs/a.txt" [] [] [("access_token", "other")] 0 ""))
    as (_ & _ & Hcookie & _).
  destruct (extractToken_priority Demo.lib Demo.server Demo.get_anonymous)
    as (_ & _ & _ & Hnone & Hchecks & _).
  split; [apply Hquery; vm_compute; discriminate |].
  split; [apply (Hheader "Bearer" "writer" ""); try reflexivity;
          [vm_compute; discriminate | by left] |].
  split; [apply Hcookie; reflexivity |].
  destruct (Hchecks "" (Some (errors_New "No token found")) "/docs/a.txt" Demo.world)
    as (_ & Hget & _); [apply Hnone; reflexivity |].
  exact Hget.
Defined.

(** C5, as stated, fails when a tab separates the first two fields of the
    header: the second white-space-delimited field is [abc], the token
    extracted is [def]. *)
Lemma tab_separated_token_counterexample :
  Header_Get (Header Demo.get_tab_header) "Authorization" = "Basic" ++ tab ++ "abc def"
  /\ claimed_token Demo.get_tab_header = "abc"
  /\ extractToken Demo.get_tab_header = Done ("def", None)
  /\ forall e, extractToken Demo.get_tab_header
               <> Done (claimed_token Demo.get_tab_header, e).
Proof. vm_compute. repeat split. intros e. discriminate. Qed.

(** [meta.json] without a depth, with depth 2 and with a depth that is no
    integer. *)
Lemma meta_json_depth_witness :
  calls_of (handleGemDriveRequest Demo.lib Demo.server (Demo.meta_json [])
              "/docs/gemdrive/meta.json") Demo.world = [CallList "/docs/" 1]
  /\ calls_of (handleGemDriveRequest Demo.lib Demo.server (Demo.meta_json [("depth", ["2"])])
              "/docs/gemdrive/meta.json") Demo.world = [CallList "/docs/" 2]
  /\ status (response (handleGemDriveRequest Demo.lib Demo.server
                         (Demo.meta_json [("depth", ["x"])]) "/docs/gemdrive/meta.json")
                      Demo.world) = 400.
Proof.
  destruct (meta_json_depth Demo.lib Demo.server (Demo.meta_json [])
              "/docs/gemdrive/meta.json" Demo.world "reader" None "/docs/")
    as (Habsent & _); try reflexivity.
  destruct (meta_json_depth Demo.lib Demo.server (Demo.meta_json [("depth", ["2"])])
              "/docs/gemdrive/meta.json" Demo.world "reader" None "/docs/")
    as (_ & Hvalue & _); try reflexivity.
  destruct (meta_json_depth Demo.lib Demo.server (Demo.meta_json [("depth", ["x"])])
              "/docs/gemdrive/meta.json" Demo.world "reader" None "/docs/")
    as (_ & _ & Hbad); try reflexivity.
  split; [apply Habsent; reflexivity |].
  split; [apply (Hvalue 2); [vm_compute; discriminate | reflexivity] |].
  destruct (Hbad Strconv.ErrSyntax) as (_ & Hstatus & _);
    [vm_compute; discriminate | reflexivity | reflexivity |].
  exact Hstatus.
Defined.

(** C6, as stated, fails for a negative depth: [-1] is an integer for
    [Atoi], the request is not answered with 400, and [List] is called with
    depth -1. *)
Lemma negative_depth_counterexample :
  Values_Get (URL_Query (Demo.meta_json [("depth", ["-1"])])) "depth" = "-1"
  /\ status (response (Run_handler Demo.lib Demo.server (Demo.meta_json [("depth", ["-1"])]))
                      Demo.world) <> 400
  /\ calls_of (Run_handler Demo.lib Demo.server (Demo.meta_json [("depth", ["-1"])]))
              Demo.world = [CallList "/docs/" (-1)].
Proof. vm_compute. repeat split. discriminate. Qed.

(** PUT of a file, of a directory and without a body. *)
Lemma put_translation_witness :
  calls_of (handlePut Demo.server Demo.put_dir "/docs/new/") Demo.world
    = [CallMakeDir "/docs/new/" true]
  /\ calls_of (handlePut Demo.server Demo.put_file "/docs/new.txt") Demo.world
    = [CallWrite "/docs/new.txt" "abc" 0 3 true true]
  /\ status (response (handlePut Demo.server Demo.put_empty "/docs/new.txt") Demo.world) = 400
  /\ calls_of (handlePut Demo.server Demo.put_empty "/docs/new.txt") Demo.world = [].
Proof.
  destruct (put_translation Demo.server Demo.put_dir "/docs/new/" Demo.world "writer" None
              Demo.writable) as (Hdir & _); try reflexivity.
  destruct (put_translation Demo.server Demo.put_file "/docs/new.txt" Demo.world "writer" None
              Demo.writable) as (_ & Hfile & _); try reflexivity.
  destruct (put_translation Demo.server Demo.put_empty "/docs/new.txt" Demo.world "writer" None
              Demo.writable) as (_ & _ & Hempty); try reflexivity.
  split; [apply Hdir; reflexivity |].
  split; [apply Hfile; [reflexivity | simpl; lia] |].
  destruct Hempty as (_ & Hstatus & _ & Hcalls); [reflexivity | simpl; lia | reflexivity |].
  exact (conj Hstatus Hcalls).
Defined.

(** PATCH at offset 7, with an offset that is no integer, and without a
    [Content-Length] header. *)
Lemma patch_translation_witness :
  calls_of (handlePatch Demo.lib Demo.server
              (Demo.patch [("offset", ["7"])] [("Content-Length", ["3"])]) "/docs/a.txt")
           Demo.world = [CallWrite "/docs/a.txt" "xyz" 7 3 true false]
  /\ status (response (handlePatch Demo.lib Demo.server
                         (Demo.patch [("offset", ["a"])] [("Content-Length", ["3"])])
                         "/docs/a.txt") Demo.world) = 400
  /\ status (response (handlePatch Demo.lib Demo.server (Demo.patch [] []) "/docs/a.txt")
                      Demo.world) = 400.
Proof.
  destruct (patch_translation Demo.lib Demo.server
              (Demo.patch [("offset", ["7"])] [("Content-Length", ["3"])]) "/docs/a.txt"
              Demo.world "writer" None Demo.writable) as (Hwrite & _); try reflexivity.
  destruct (patch_translation Demo.lib Demo.server
              (Demo.patch [("offset", ["a"])] [("Content-Length", ["3"])]) "/docs/a.txt"
              Demo.world "writer" None Demo.writable) as (_ & Hoffset & _); try reflexivity.
  destruct (patch_translation Demo.lib Demo.server (Demo.patch [] []) "/docs/a.txt"
              Demo.world "writer" None Demo.writable) as (_ & _ & Hlength); try reflexivity.
  split.
  { apply (Hwrite 7 3); [right; split; [vm_compute; discriminate | reflexivity] | reflexivity]. }
  split.
  { destruct (Hoffset Strconv.ErrSyntax) as (_ & Hstatus & _);
      [vm_compute; discriminate | reflexivity | reflexivity | exact Hstatus]. }
  destruct (Hlength 0 Strconv.ErrSyntax) as (_ & Hstatus & _);
    [left; split; reflexivity | reflexivity | reflexivity | exact Hstatus].
Defined.

(** C8, as stated, fails for a negative offset: [-5] is an integer for
    [Atoi], and [Write] is called with offset -5. *)
Lemma negative_offset_counterexample :
  Values_Get (URL_Query (Demo.patch [("offset", ["-5"])] [("Content-Length", ["3"])]))
             "offset" = "-5"
  /\ status (response (Run_handler Demo.lib Demo.server
                         (Demo.patch [("offset", ["-5"])] [("Content-Length", ["3"])]))
                      Demo.world) <> 400
  /\ calls_of (Run_handler Demo.lib Demo.server
                 (Demo.patch [("offset", ["-5"])] [("Content-Length", ["3"])])) Demo.world
     = [CallWrite "/docs/a.txt" "xyz" (-5) 3 true false].
Proof. vm_compute. repeat split. discriminate. Qed.

(** The header [Bearer], with nothing after the scheme. *)
Lemma extractToken_index_out_of_range_witness :
  Strings.Split "Bearer" " " = ["Bearer"]
  /\ extractToken Demo.get_bearer_only
     = Panic "runtime error: index out of range [1] with length 1".
Proof.
  apply (extractToken_index_out_of_range Demo.get_bearer_only "Bearer");
    [reflexivity | reflexivity | vm_compute; discriminate | reflexivity].
Defined.

(** An operation that is neither [meta.json], [authorize] nor [images]. *)
Lemma unmatched_meta_request_witness :
  Strings.Split "/docs/gemdrive/thumbnails/a.png" "gemdrive/" = ["/docs/"; "thumbnails/a.png"]
  /\ status (response (Run_handler Demo.lib Demo.server Demo.meta_unknown) Demo.world) = 200
  /\ rw_body (response (Run_handler Demo.lib Demo.server Demo.meta_unknown) Demo.world) = ""
  /\ rw_wrote (response (Run_handler Demo.lib Demo.server Demo.meta_unknown) Demo.world) = None.
Proof.
  split; [reflexivity |].
  destruct (unmatched_meta_request Demo.lib Demo.server Demo.meta_unknown Demo.world tt
              Demo.login_page "reader" None "/docs/" "thumbnails/a.png")
    as (_ & Hwrote & Hbody & Hstatus & _); try reflexivity.
  - vm_compute. discriminate.
  - vm_compute. discriminate.
  - vm_compute. discriminate.
  - right. reflexivity.
  - exact (conj Hstatus (conj Hbody Hwrote)).
Defined.

(** * The further properties on the example servers *)

(** OPTIONS by the reader. *)
Lemma options_short_circuit_witness :
  calls_of (Run_handler Demo.lib Demo.server (More.by_reader "OPTIONS" "/docs/a.txt" [] []))
           Demo.world = []
  /\ checks_of (Run_handler Demo.lib Demo.server (More.by_reader "OPTIONS" "/docs/a.txt" [] []))
               Demo.world = []
  /\ rw_wrote (response (Run_handler Demo.lib Demo.server
                           (More.by_reader "OPTIONS" "/docs/a.txt" [] [])) Demo.world) = None.
Proof.
  unfold calls_of, checks_of, response.
  rewrite (options_short_circuit Demo.lib Demo.server
             (More.by_reader "OPTIONS" "/docs/a.txt" [] []) Demo.world tt Demo.login_page);
    [| reflexivity ..].
  repeat split.
Defined.

(** No box, and a box without the page. *)
Lemma login_page_unavailable_witness :
  status (response (Run_handler More.no_box Demo.server Demo.get_whole) Demo.world) = 500
  /\ rw_body (response (Run_handler More.no_box Demo.server Demo.get_whole) Demo.world)
       = "could not locate box"
  /\ status (response (Run_handler More.no_page Demo.server Demo.get_whole) Demo.world) = 500
  /\ calls_of (Run_handler More.no_page Demo.server Demo.get_whole) Demo.world = [].
Proof.
  destruct (login_page_unavailable More.no_box Demo.server Demo.get_whole Demo.world)
    as [Hbox _]; [reflexivity |].
  destruct (Hbox (errors_New "could not locate box")) as (_ & Hstatus & Hbody & _);
    [reflexivity |].
  destruct (login_page_unavailable More.no_page Demo.server Demo.get_whole Demo.world)
    as [_ Hpage]; [reflexivity |].
  destruct (Hpage tt "" (errors_New "file does not exist")) as (_ & Hstatus' & _ & _ & Hcalls & _);
    [reflexivity | reflexivity |].
  exact (conj Hstatus (conj Hbody (conj Hstatus' Hcalls))).
Defined.

(** POST of a file path. *)
Lemma unknown_method_falls_through_witness :
  status (response (Run_handler Demo.lib Demo.server (More.by_reader "POST" "/docs/a.txt" [] []))
                   Demo.world) = 200
  /\ rw_body (response (Run_handler Demo.lib Demo.server
                          (More.by_reader "POST" "/docs/a.txt" [] [])) Demo.world) = ""
  /\ checks_of (Run_handler Demo.lib Demo.server (More.by_reader "POST" "/docs/a.txt" [] []))
               Demo.world = [].
Proof.
  destruct (unknown_method_falls_through Demo.lib Demo.server
              (More.by_reader "POST" "/docs/a.txt" [] []) Demo.world tt Demo.login_page)
    as (_ & Hreply & _ & Hchecks); try reflexivity; try (vm_compute; discriminate).
  destruct (Hreply eq_refl) as [Hstatus Hbody].
  exact (conj Hstatus (conj Hbody Hchecks)).
Defined.

(** A request for [/a.txt] forwarded for the host [files.example]. *)
Lemma mapped_path_is_checked_witness :
  checks_of (Run_handler Demo.lib More.mapped_server
               (More.by_reader "GET" "/a.txt" [] [("X-Forwarded-Host", ["files.example"])]))
            Demo.world = [CheckRead "reader" "/docs/a.txt"]
  /\ checks_of (Run_handler Demo.lib More.mapped_server (More.by_reader "GET" "/a.txt" [] []))
               Demo.world = [CheckRead "reader" "/a.txt"].
Proof.
  destruct (mapped_path_is_checked Demo.lib More.mapped_server
              (More.by_reader "GET" "/a.txt" [] [("X-Forwarded-Host", ["files.example"])])
              Demo.world tt Demo.login_page "reader" None) as [Hmapped _]; try reflexivity.
  destruct (mapped_path_is_checked Demo.lib More.mapped_server
              (More.by_reader "GET" "/a.txt" [] [])
              Demo.world tt Demo.login_page "reader" None) as [_ Hplain]; try reflexivity.
  split.
  - apply (Hmapped "/docs"); [reflexivity | vm_compute; discriminate].
  - apply Hplain; [reflexivity | vm_compute; discriminate].
Defined.

(** PUT, PATCH and DELETE by the writer on the backend that cannot write. *)
Lemma read_only_backend_rejects_writes_witness :
  status (response (handlePut More.read_only_server Demo.put_file "/docs/new.txt") Demo.world)
    = 500
  /\ calls_of (handleDelete More.read_only_server Demo.delete_dir "/docs/dir/") Demo.world = [].
Proof.
  destruct (read_only_backend_rejects_writes Demo.lib More.read_only_server Demo.put_file
              "/docs/new.txt" Demo.world "writer" None)
    as ((_ & Hstatus & _) & _ & _); try reflexivity.
  destruct (read_only_backend_rejects_writes Demo.lib More.read_only_server Demo.delete_dir
              "/docs/dir/" Demo.world "writer" None)
    as (_ & _ & (_ & _ & _ & Hcalls)); try reflexivity.
  exact (conj Hstatus Hcalls).
Defined.

(** HEAD of a file of 100 bytes, and of a name the directory does not
    hold. *)
Lemma head_reports_the_size_witness :
  Header_Get (sent_header (response (handleHead Demo.lib Demo.server Demo.get_whole
                                       "/docs/a.txt") Demo.world)) "Content-Length" = "100"
  /\ status (response (handleHead Demo.lib Demo.server Demo.get_whole "/docs/zz.txt")
                      Demo.world) = 404.
Proof.
  destruct (Demo.mList "/docs/" 1 Demo.files) as [[item | err] st] eqn:Hlist;
    [| vm_compute in Hlist; discriminate].
  destruct (head_reports_the_size Demo.lib Demo.server Demo.get_whole "/docs/a.txt" Demo.world
              "reader" None item st) as (_ & Hchild & _); try reflexivity; [exact Hlist |].
  destruct (head_reports_the_size Demo.lib Demo.server Demo.get_whole "/docs/zz.txt" Demo.world
              "reader" None item st) as (_ & _ & Hnone); try reflexivity; [exact Hlist |].
  assert (Hitem : item = mkItem 0 (list_to_map
            (map (Demo.child_of "/docs/")
                 (filter (fun f => Demo.under "/docs/" f = true) Demo.files)))).
  { vm_compute in Hlist. injection Hlist as <- _. vm_compute. reflexivity. }
  split.
  - destruct (Hchild (mkItem 100 ∅)) as (_ & _ & Hlen & _);
      [subst item; vm_compute; reflexivity | exact Hlen].
  - destruct Hnone as (_ & Hstatus & _); [subst item; vm_compute; reflexivity | exact Hstatus].
Defined.

(** GET of a file the backend does not hold: the backend's 404 reaches the
    client.  A backend that fails with the code 150 is answered with 200 and
    the message, one that fails with 204 with 204 and no body. *)
Lemma read_side_errors_propagate_witness :
  (status (response (serveItem Demo.lib Demo.server Demo.get_missing "/docs/missing.txt")
                    Demo.world) = 404
   /\ rw_body (response (serveItem Demo.lib Demo.server Demo.get_missing "/docs/missing.txt")
                        Demo.world) = "Not found")
  /\ (status (response (serveItem Demo.lib (More.failing_server 150) Demo.get_whole
                          "/docs/a.txt") Demo.world) = 200
      /\ rw_body (response (serveItem Demo.lib (More.failing_server 150) Demo.get_whole
                              "/docs/a.txt") Demo.world) = "failed")
  /\ (status (response (serveItem Demo.lib (More.failing_server 204) Demo.get_whole
                          "/docs/a.txt") Demo.world) = 204
      /\ rw_body (response (serveItem Demo.lib (More.failing_server 204) Demo.get_whole
                              "/docs/a.txt") Demo.world) = "").
Proof.
  destruct (read_side_errors_propagate Demo.lib Demo.server Demo.get_missing
              "/docs/missing.txt" Demo.world "reader" None
              (Demo.structured 404 "Not found") Demo.files)
    as (_ & _ & Hread); [reflexivity | reflexivity | |].
  { intros e0 He0. injection He0 as <-. simpl. lia. }
  destruct Hread as (_ & Hcode & _); [reflexivity | reflexivity | reflexivity | reflexivity |].
  destruct (Hcode (mkError 404 "Not found") eq_refl) as (_ & _ & Hplain).
  split; [apply Hplain; simpl; lia |].
  destruct (read_side_errors_propagate Demo.lib (More.failing_server 150) Demo.get_whole
              "/docs/a.txt" Demo.world "reader" None
              (Demo.structured 150 "failed") Demo.files)
    as (_ & _ & Hinterim); [reflexivity | reflexivity | |].
  { intros e0 He0. injection He0 as <-. simpl. lia. }
  destruct Hinterim as (_ & Hcode150 & _);
    [reflexivity | reflexivity | reflexivity | reflexivity |].
  destruct (Hcode150 (mkError 150 "failed") eq_refl) as (Hstatus150 & Hbody150 & _).
  split; [exact (conj Hstatus150 Hbody150) |].
  destruct (read_side_errors_propagate Demo.lib (More.failing_server 204) Demo.get_whole
              "/docs/a.txt" Demo.world "reader" None
              (Demo.structured 204 "failed") Demo.files)
    as (_ & _ & Hnobody); [reflexivity | reflexivity | |].
  { intros e0 He0. injection He0 as <-. simpl. lia. }
  destruct Hnobody as (_ & Hcode204 & _);
    [reflexivity | reflexivity | reflexivity | reflexivity |].
  destruct (Hcode204 (mkError 204 "failed") eq_refl) as (Hstatus204 & Hbody204 & _).
  exact (conj Hstatus204 Hbody204).
Defined.

(** [meta.json] of the directory [/docs/]. *)
Lemma meta_json_body_witness :
  status (response (handleGemDriveRequest Demo.lib Demo.server (Demo.meta_json [])
                      "/docs/gemdrive/meta.json") Demo.world) = 200
  /\ store (snd (handleGemDriveRequest Demo.lib Demo.server (Demo.meta_json [])
                   "/docs/gemdrive/meta.json" Demo.world)) = Demo.files.
Proof.
  destruct (Demo.mList "/docs/" 1 Demo.files) as [[item | err] st] eqn:Hlist;
    [| vm_compute in Hlist; discriminate].
  assert (Hst : st = Demo.files) by (vm_compute in Hlist; injection Hlist as _ <-; reflexivity).
  destruct (meta_json_body Demo.lib Demo.server (Demo.meta_json [])
              "/docs/gemdrive/meta.json" Demo.world "reader" None "/docs/" 1 item st)
    as [Hbody _]; try reflexivity; [exact Hlist |].
  destruct (json_Marshal Demo.lib item) as [jsonBody [err |]] eqn:Hjson;
    [vm_compute in Hjson; discriminate |].
  destruct (Hbody jsonBody eq_refl) as (_ & Hstatus & _ & Hstore).
  split; [exact Hstatus | rewrite Hstore; exact Hst].
Defined.

(** GET of the directory [/docs/], which holds no [index.html]. *)
Lemma directory_get_serves_index_witness :
  calls_of (serveItem Demo.lib Demo.server (More.by_reader "GET" "/docs/" [] []) "/docs/")
           Demo.world = [CallRead "/docs/index.html" 0 0]
  /\ status (response (serveItem Demo.lib Demo.server (More.by_reader "GET" "/docs/" [] [])
                         "/docs/") Demo.world) = 400.
Proof.
  destruct (directory_get_serves_index Demo.lib Demo.server
              (More.by_reader "GET" "/docs/" [] []) "/docs/" Demo.world "reader" None)
    as (Hcalls & Herr & _); try reflexivity.
  destruct (Herr (Demo.structured 404 "Not found") Demo.files) as (_ & Hstatus & _);
    [reflexivity |].
  exact (conj Hcalls Hstatus).
Defined.

(** [meta.json] without a token. *)
Lemma denied_meta_request_witness :
  status (response (Run_handler Demo.lib Demo.server
                      (Demo.request "GET" "/docs/gemdrive/meta.json" [] [] [] 0 ""))
                   Demo.world) = 403
  /\ calls_of (Run_handler Demo.lib Demo.server
                 (Demo.request "GET" "/docs/gemdrive/meta.json" [] [] [] 0 ""))
              Demo.world = [].
Proof.
  destruct (denied_meta_request Demo.lib Demo.server
              (Demo.request "GET" "/docs/gemdrive/meta.json" [] [] [] 0 "")
              Demo.world tt Demo.login_page "" (Some (errors_New "No token found"))
              "/docs/" "meta.json")
    as (_ & Hstatus & _ & _ & Hcalls & _);
    [reflexivity | reflexivity | discriminate | reflexivity | reflexivity | discriminate
    | reflexivity | reflexivity |].
  exact (conj Hstatus Hcalls).
Defined.

(** The operation [authorize] of a request without a token. *)
Lemma authorize_needs_no_capability_witness :
  checks_of (handleGemDriveRequest Demo.lib More.handshake_server More.start
               "/docs/gemdrive/authorize") More.handshake_world = [].
Proof.
  destruct (authorize_needs_no_capability Demo.lib More.handshake_server More.start
              "/docs/gemdrive/authorize" More.handshake_world
              ("", Some (errors_New "No token found")) "/docs/")
    as (_ & Hchecks & _); [reflexivity | reflexivity |].
  exact Hchecks.
Defined.

(** The handshake for [auth-1], with the right code and with a wrong
    one. *)
Lemma authorize_completion_witness :
  rw_body (response (authorize Demo.lib More.handshake_server (More.complete "1234"))
                    More.handshake_world) = "token-1"
  /\ authst (snd (authorize Demo.lib More.handshake_server (More.complete "1234")
                    More.handshake_world)) = []
  /\ status (response (authorize Demo.lib More.handshake_server (More.complete "0000"))
                      More.handshake_world) = 400.
Proof.
  destruct (authorize_completion Demo.lib More.handshake_server (More.complete "1234")
              More.handshake_world [])
    as [Hdone _]; try reflexivity; try (vm_compute; discriminate).
  destruct (Hdone "token-1") as (_ & _ & Hbody & Hauth & _); [reflexivity |].
  destruct (authorize_completion Demo.lib More.handshake_server (More.complete "0000")
              More.handshake_world ["auth-1"])
    as [_ Hfail]; try reflexivity; try (vm_compute; discriminate).
  destruct (Hfail "" (errors_New "Invalid code")) as (_ & Hstatus & _); [reflexivity |].
  exact (conj Hbody (conj Hauth Hstatus)).
Defined.

(** The start of a handshake. *)
Lemma authorize_request_witness :
  rw_body (response (authorize Demo.lib More.handshake_server More.start)
                    More.handshake_world) = "auth-2"
  /\ authst (snd (authorize Demo.lib More.handshake_server More.start More.handshake_world))
       = ["auth-2"; "auth-1"].
Proof.
  destruct (authorize_request Demo.lib More.handshake_server More.start More.handshake_world)
    as (_ & _ & _ & Hstart); [left; reflexivity | reflexivity |].
  destruct (json_Unmarshal Demo.lib (Body More.start)) as [key | err] eqn:Hkey;
    [| vm_compute in Hkey; discriminate].
  destruct (Hstart key "auth-2" ["auth-2"; "auth-1"]) as (_ & _ & Hbody & Hauth);
    [reflexivity | reflexivity | reflexivity |].
  exact (conj Hbody Hauth).
Defined.

(** The image of [/docs/a.txt] at size 64. *)
Lemma images_translation_witness :
  calls_of (handleGemDriveRequest Demo.lib More.image_server
              (More.by_reader "GET" "/docs/gemdrive/images/64/a.txt" [] [])
              "/docs/gemdrive/images/64/a.txt") Demo.world
    = [CallGetImage (path_Join Demo.lib "/docs/" "a.txt") 64].
Proof.
  destruct (images_translation Demo.lib More.image_server
              (More.by_reader "GET" "/docs/gemdrive/images/64/a.txt" [] [])
              "/docs/gemdrive/images/64/a.txt" Demo.world "reader" None "/docs/" "64" "a.txt"
              (mkImageServer _ More.mGetImage))
    as [_ Hsize]; [reflexivity .. |].
  destruct (Hsize 64) as [Hcalls _]; [reflexivity |].
  exact Hcalls.
Defined.

(** [images] alone, and [images/64]. *)
Lemma images_without_parts_panics_witness :
  fst (handleGemDriveRequest Demo.lib More.image_server
         (More.by_reader "GET" "/docs/gemdrive/images" [] []) "/docs/gemdrive/images"
         Demo.world) = Panic "runtime error: index out of range [1] with length 1"
  /\ fst (handleGemDriveRequest Demo.lib More.image_server
            (More.by_reader "GET" "/docs/gemdrive/images/64" [] []) "/docs/gemdrive/images/64"
            Demo.world) = Panic "runtime error: index out of range [2] with length 2".
Proof.
  destruct (images_without_parts_panics Demo.lib More.image_server
              (More.by_reader "GET" "/docs/gemdrive/images" [] [])
              "/docs/gemdrive/images" Demo.world "reader" None "/docs/"
              (mkImageServer _ More.mGetImage)) as [Hone _]; try reflexivity.
  destruct (images_without_parts_panics Demo.lib More.image_server
              (More.by_reader "GET" "/docs/gemdrive/images/64" [] [])
              "/docs/gemdrive/images/64" Demo.world "reader" None "/docs/"
              (mkImageServer _ More.mGetImage)) as [_ Htwo]; try reflexivity.
  split.
  - rewrite (Hone eq_refl). reflexivity.
  - rewrite (Htwo "64" 64 eq_refl eq_refl eq_refl). reflexivity.
Defined.

(** The header [bytes=-500]. *)
Lemma parseRange_has_no_negative_bound_witness :
  parseRange Demo.lib "bytes=-500" = inl {| Start := 0; End := 500 |}
  /\ 0 <= 500 <= MAX_INT64.
Proof.
  destruct (parseRange_has_no_negative_bound Demo.lib) as [Hbounds Hlast].
  pose proof (Hlast "bytes" "500" 500 eq_refl eq_refl eq_refl
                ltac:(discriminate) eq_refl) as Hrange.
  change ("bytes" ++ "=-" ++ "500") with "bytes=-500" in Hrange.
  split; [exact Hrange |].
  exact (proj2 (Hbounds "bytes=-500" _ Hrange)).
Defined.

(** PUT of three bytes, and of a directory, by the writer. *)
Lemma accepted_writes_answer_nothing_witness :
  rw_wrote (response (handlePut Demo.server Demo.put_file "/docs/new.txt") Demo.world) = None
  /\ store (snd (handlePut Demo.server Demo.put_file "/docs/new.txt" Demo.world))
       = ("/docs/new.txt", "abc") :: Demo.files
  /\ calls_of (handlePut Demo.server Demo.put_dir "/docs/new/") Demo.world
       = [CallMakeDir "/docs/new/" true].
Proof.
  destruct (accepted_writes_answer_nothing Demo.lib Demo.server Demo.put_file "/docs/new.txt"
              Demo.world "writer" None Demo.writable (("/docs/new.txt", "abc") :: Demo.files))
    as (_ & Hfile & _); try reflexivity.
  destruct (accepted_writes_answer_nothing Demo.lib Demo.server Demo.put_dir "/docs/new/"
              Demo.world "writer" None Demo.writable Demo.files)
    as (Hdir & _); try reflexivity.
  unfold response, calls_of.
  rewrite Hfile by (reflexivity || (simpl; lia)).
  rewrite Hdir by reflexivity.
  repeat split.
Defined.

(** The three headers on the answer to a request without a token. *)
Lemma every_response_has_cors_witness :
  has_header "Access-Control-Allow-Origin" ["*"]
             (response (Run_handler Demo.lib Demo.server Demo.get_anonymous) Demo.world)
  /\ has_header "Access-Control-Allow-Methods" ["*"]
                (response (Run_handler Demo.lib Demo.server Demo.get_missing) Demo.world)
  /\ has_header "Access-Control-Allow-Headers" ["*"]
                (response (Run_handler Demo.lib Demo.server Demo.delete_dir) Demo.world).
Proof.
  split; [| split].
  - apply (every_response_has_cors Demo.lib Demo.server Demo.get_anonymous Demo.world tt
             Demo.login_page); [reflexivity | reflexivity | reflexivity | simpl; tauto].
  - apply (every_response_has_cors Demo.lib Demo.server Demo.get_missing Demo.world tt
             Demo.login_page); [reflexivity | reflexivity | reflexivity | simpl; tauto].
  - apply (every_response_has_cors Demo.lib Demo.server Demo.delete_dir Demo.world tt
             Demo.login_page); [reflexivity | reflexivity | reflexivity | simpl; tauto].
Defined.

(** A file that does not exist, asked for as a download. *)
Lemma file_responses_accept_ranges_witness :
  has_header "Accept-Ranges" ["bytes"]
             (response (serveFile Demo.lib Demo.server
                          (More.by_reader "GET" "/docs/zz.txt" [("download", ["true"])] [])
                          "/docs/zz.txt") Demo.world)
  /\ has_header "Content-Disposition" ["attachment"]
                (response (serveFile Demo.lib Demo.server
                             (More.by_reader "GET" "/docs/zz.txt" [("download", ["true"])] [])
                             "/docs/zz.txt") Demo.world).
Proof.
  destruct (file_responses_accept_ranges Demo.lib Demo.server
              (More.by_reader "GET" "/docs/zz.txt" [("download", ["true"])] [])
              "/docs/zz.txt" Demo.world) as [Hranges Hdownload]; [reflexivity |].
  exact (conj Hranges (Hdownload eq_refl)).
Defined.

(** DELETE of [meta.json] by the writer. *)
Lemma meta_mode_never_writes_witness :
  exists cs ks,
    calls_of (Run_handler Demo.lib Demo.server
                (More.by_writer "DELETE" "/docs/gemdrive/meta.json" [] [] 0 "")) Demo.world
      = cs
    /\ checks_of (Run_handler Demo.lib Demo.server
                    (More.by_writer "DELETE" "/docs/gemdrive/meta.json" [] [] 0 ""))
                 Demo.world = ks
    /\ (length cs <= 1)%nat
    /\ Forall (fun c => (exists path depth, c = CallList path depth)
                        \/ (exists path size, c = CallGetImage path size)) cs
    /\ Forall (fun k => exists token path, k = CheckRead token path) ks.
Proof.
  destruct (meta_mode_never_writes Demo.lib Demo.server
              (More.by_writer "DELETE" "/docs/gemdrive/meta.json" [] [] 0 "")
              Demo.world tt Demo.login_page)
    as (cs & ks & Hcalls & Hchecks & Hone & Hcs & Hks);
    [reflexivity | reflexivity | reflexivity |].
  exists cs, ks. exact (conj Hcalls (conj Hchecks (conj Hone (conj Hcs Hks)))).
Defined.

(** Ten bytes of [/docs/a.txt] from the standalone server. *)
Lemma standalone_serves_like_library_witness :
  Cmd.serveItem Demo.lib More.standalone (Demo.get_range "bytes=10-19") Demo.world
    = serveFile Demo.lib (as_server More.standalone) (Demo.get_range "bytes=10-19")
                "/docs/a.txt" (checked (CheckRead "reader" "/docs/a.txt") Demo.world)
  /\ status (response (Cmd.serveItem Demo.lib More.standalone (Demo.get_range "bytes=10-19"))
                      Demo.world) = 206.
Proof.
  pose proof (standalone_serves_like_library Demo.lib More.standalone
                (Demo.get_range "bytes=10-19") Demo.world "reader" None
                eq_refl eq_refl ltac:(vm_compute; discriminate)) as Hsame.
  split; [exact Hsame |].
  unfold response. rewrite Hsame. reflexivity.
Defined.

(** The standalone server and a request without a token. *)
Lemma standalone_denial_witness :
  status (response (Cmd.serveItem Demo.lib More.standalone Demo.get_anonymous) Demo.world)
    = 403
  /\ rw_body (response (Cmd.serveItem Demo.lib More.standalone Demo.get_anonymous)
                       Demo.world) = "Unauthorized".
Proof.
  destruct (standalone_denial Demo.lib More.standalone Demo.get_anonymous Demo.world ""
              (Some (errors_New "No token found")))
    as (_ & Hstatus & Hbody & _); [reflexivity | reflexivity | reflexivity |].
  exact (conj Hstatus Hbody).
Defined.

(** The example backend fails with 404 only. *)
Lemma memory_is_valid : valid_backend Demo.memory.
Proof.
  split.
  - intros path depth st err st' H. simpl in H. unfold Demo.mList in H.
    destruct (Demo.lookup_file path st); [discriminate |].
    destruct (existsb (Demo.under path) st); [discriminate |].
    injection H as <- _. intros e He. injection He as <-. simpl. lia.
  - intros path offset len st err st' H. simpl in H. unfold Demo.mRead in H.
    destruct (Demo.lookup_file path st); [discriminate |].
    injection H as <- _. intros e He. injection He as <-. simpl. lia.
Qed.

(** GET of a file that does not exist. *)
Lemma handler_returns_witness :
  returns (Run_handler Demo.lib Demo.server Demo.get_missing) Demo.world.
Proof.
  apply (handler_returns Demo.lib Demo.server Demo.get_missing Demo.world ("reader", None)).
  - exact memory_is_valid.
  - reflexivity.
  - intros gemPath gemReq _. left. reflexivity.
Defined.
